(** * The CTC downstream expert of s3prl ([downstream/ctc/expert.py])

  A shallow embedding of [DownstreamExpert]: construction from the run
  configuration, the per-batch [forward] step and the epoch-end
  [log_records], together with the properties its specification states.

  The expert is glue between collaborators that live elsewhere (torch, the
  tokenizer of [.text], the sequence models of [..asr.model], the metric
  functions of [.metric]).  Those are taken as parameters of the
  development; everything the file itself computes (padding, lengths, the
  order of the appends to the records accumulator, the best-score
  comparison, the sampling stride of the text log) is modelled as written. *)

From Stdlib Require Import ZArith List Lia Ascii String.
From Corelib Require Import SpecFloat.
From stdpp Require Import base list strings gmap pretty.

Local Open Scope string_scope.
Local Open Scope list_scope.
Local Open Scope Z_scope.

(** ** Python primitives used by the file *)

Module Py.

(** The exceptions that can leave the three methods. *)
Inductive exn : Type :=
| KeyError (key : string)
| NameError (name : string)
| IndexError
| ValueError
| TypeError
| RuntimeError
| SyntaxError.

Inductive result (A : Type) : Type :=
| Ok (a : A)
| Raise (e : exn).
Arguments Ok {A} a.
Arguments Raise {A} e.

Definition is_ok {A} (r : result A) : bool :=
  match r with Ok _ => true | Raise _ => false end.

Global Instance result_ret : MRet result := @Ok.
Global Instance result_bind : MBind result := fun A B f r =>
  match r with Ok a => f a | Raise e => Raise e end.

(** [len(l)] *)
Definition len {A} (l : list A) : Z := Z.of_nat (length l).

(** [l[i]]: negative indices count from the end, anything out of range
    raises [IndexError]. *)
Definition getitem {A} (l : list A) (i : Z) : result A :=
  let j := if i <? 0 then i + len l else i in
  if j <? 0 then Raise IndexError
  else match l !! Z.to_nat j with
       | Some a => Ok a
       | None => Raise IndexError
       end.

(** [d[k]] on a mapping whose key may be absent. *)
Definition getkey {A} (k : string) (o : option A) : result A :=
  match o with Some a => Ok a | None => Raise (KeyError k) end.

(** [round(n / d)] for integers [n] and [d > 0]: true division followed by
    rounding to the nearest integer, ties to the even one.  (The quotient is
    a binary64 in Python; for list lengths, far below 2^52, it rounds to the
    same integer as the exact quotient.) *)
Definition round_div (n d : Z) : Z :=
  let q := n / d in
  match 2 * (n mod d) ?= d with
  | Lt => q
  | Gt => q + 1
  | Eq => if Z.even q then q else q + 1
  end.

(** [range(start, stop, step)], as the list it iterates over. *)
Definition range (start stop step : Z) : result (list Z) :=
  if step =? 0 then Raise ValueError
  else
    let count :=
      if 0 <? step then (stop - start + step - 1) / step
      else (start - stop - step - 1) / (- step) in
    Ok (map (fun i => start + Z.of_nat i * step) (seq 0 (Z.to_nat count))).

(** Text is held as its UTF-8 bytes; text that is all ASCII has no byte
    above 127. *)
Definition is_ascii (s : string) : bool :=
  forallb (fun c => (nat_of_ascii c <? 128)%nat) (list_ascii_of_string s).

(** [s.lower()] on text that is all ASCII: the letters A-Z are rewritten,
    nothing else is.  (On other text [str.lower] is Unicode's lowering,
    which can change the length; see [lower] below.) *)
Definition lower_ascii (c : ascii) : ascii :=
  let n := nat_of_ascii c in
  if ((65 <=? n)%nat && (n <=? 90)%nat)%bool then ascii_of_nat (n + 32) else c.

Fixpoint ascii_lower (s : string) : string :=
  match s with
  | EmptyString => EmptyString
  | String c s' => String (lower_ascii c) (ascii_lower s')
  end.

(** The source texts that are a single name for [eval]: an ASCII letter or
    underscore followed by ASCII letters, digits and underscores, and no
    keyword.  (Names with letters beyond ASCII, names with blanks around
    them and every other expression are left to the evaluator.) *)
Definition is_name_start (c : ascii) : bool :=
  let n := nat_of_ascii c in
  ((65 <=? n)%nat && (n <=? 90)%nat) || ((97 <=? n)%nat && (n <=? 122)%nat)
  || (n =? 95)%nat.

Definition is_name_char (c : ascii) : bool :=
  let n := nat_of_ascii c in
  is_name_start c || ((48 <=? n)%nat && (n <=? 57)%nat).

Definition keywords : list string :=
  [ "False"; "None"; "True"; "and"; "as"; "assert"; "async"; "await"; "break";
    "class"; "continue"; "def"; "del"; "elif"; "else"; "except"; "finally";
    "for"; "from"; "global"; "if"; "import"; "in"; "is"; "lambda"; "nonlocal";
    "not"; "or"; "pass"; "raise"; "return"; "try"; "while"; "with"; "yield" ].

Definition is_name (source : string) : bool :=
  match source with
  | EmptyString => false
  | String c rest =>
      is_name_start c
      && forallb is_name_char (list_ascii_of_string rest)
      && negb (existsb (String.eqb source) keywords)
  end.

End Py.
Export Py.

(** ** Single-precision scalars

  Losses, metric values and the best score are IEEE-754 numbers; torch
  holds them in binary32.  They are modelled by [spec_float] with 24 bits
  of precision. *)

Module F32.

Definition prec : Z := 24.
Definition emax : Z := 128.

Definition of_Z (z : Z) : spec_float := binary_normalize prec emax z 0 false.
Definition add : spec_float -> spec_float -> spec_float := SFadd prec emax.
Definition div : spec_float -> spec_float -> spec_float := SFdiv prec emax.

Definition zero : spec_float := S754_zero false.

Definition is_finite (x : spec_float) : bool :=
  match x with
  | S754_zero _ | S754_finite _ _ _ => true
  | S754_infinity _ | S754_nan => false
  end.

(** [x < y] and [x > y] on floats; both are false on NaN. *)
Definition lt (x y : spec_float) : bool := SFltb x y.
Definition gt (x y : spec_float) : bool := SFltb y x.

(** The binary32 values of the literals 0.75 and 0.60. *)
Definition c0_75 : spec_float := S754_finite false 12582912 (-24).
Definition c0_60 : spec_float := S754_finite false 10066330 (-24).

(** A reference mean: left-to-right binary32 sum divided by the count. *)
Definition mean (xs : list spec_float) : spec_float :=
  div (fold_left add xs zero) (of_Z (len xs)).

End F32.

Abbreviation float := spec_float.

(** ** Effects: a mutable state threaded through calls that may raise

  A computation takes the state, and gives the state it leaves behind
  together with a value or the exception raised.  The state survives the
  exception: what was mutated before the raise stays mutated. *)

Module Eff.

Definition M (S A : Type) : Type := S -> S * result A.

Global Instance M_ret {S} : MRet (M S) := fun A a s => (s, Ok a).
Global Instance M_bind {S} : MBind (M S) := fun A B f m s =>
  match m s with
  | (s', Ok a) => f a s'
  | (s', Raise e) => (s', Raise e)
  end.

Definition lift {S A} (r : result A) : M S A := fun s => (s, r).
Definition gets {S A} (f : S -> A) : M S A := fun s => (s, Ok (f s)).
Definition modify {S} (f : S -> S) : M S unit := fun s => (f s, Ok tt).

(** [for x in l: body(x)] *)
Fixpoint for_each {S A} (l : list A) (body : A -> M S unit) : M S unit :=
  match l with
  | [] => mret tt
  | x :: l' => body x ;; for_each l' body
  end.

(** A loop that updates a local variable [acc]. *)
Fixpoint for_fold {S A B} (l : list A) (body : B -> A -> M S B) (acc : B) : M S B :=
  match l with
  | [] => mret acc
  | x :: l' => acc' ← body acc x; for_fold l' body acc'
  end.

End Eff.
Export Eff.

(** ** The records accumulator

  [records] maps a field name to the list of per-batch values.  Iteration
  follows insertion order, so the mapping is kept as an association list
  with distinct keys.  The training loop hands in a [defaultdict(list)]:
  reading an absent key inserts an empty list; with [default_factory] unset
  the mapping is a plain [dict] and the read raises [KeyError]. *)

Module Rec.

Inductive value : Type :=
| VInt (z : Z)
| VFloat (x : float)
| VTensor (x : float)
| VStr (s : string).

(** [type(v) in [int, float, torch.Tensor]] *)
Definition is_number (v : value) : bool :=
  match v with VStr _ => false | _ => true end.

Record Records : Type := {
  default_factory : bool;
  items : list (string * list value)
}.

Fixpoint assoc {A} (k : string) (l : list (string * A)) : option A :=
  match l with
  | [] => None
  | (k', a) :: l' => if String.eqb k k' then Some a else assoc k l'
  end.

Fixpoint assoc_alter {A} (f : A -> A) (k : string) (l : list (string * A))
  : list (string * A) :=
  match l with
  | [] => []
  | (k', a) :: l' =>
      if String.eqb k k' then (k', f a) :: l' else (k', a) :: assoc_alter f k l'
  end.

Definition keys (r : Records) : list string := map fst (items r).

(** The list stored under [k], empty when there is none. *)
Definition field (k : string) (r : Records) : list value :=
  default [] (assoc k (items r)).

(** [records[k]]: the records afterwards and the list read. *)
Definition get (k : string) : M Records (list value) := fun r =>
  match assoc k (items r) with
  | Some l => (r, Ok l)
  | None =>
      if default_factory r
      then ({| default_factory := true; items := items r ++ [(k, [])] |}, Ok [])
      else (r, Raise (KeyError k))
  end.

(** [l.append(v)] on the list object stored under [k]. *)
Definition append (k : string) (v : value) : M Records unit :=
  modify (fun r => {| default_factory := default_factory r;
                      items := assoc_alter (fun l => l ++ [v]) k (items r) |}).

(** The records after [records[k].append(v)]. *)
Definition push (k : string) (v : value) (r : Records) : Records :=
  fst (append k v (fst (get k r))).

End Rec.
Export Rec.

(** ** What the logger and the console receive *)

Inductive event : Type :=
| Print (line : string)
| AddScalar (tag : string) (scalar_value : float) (global_step : Z)
| AddText (tag : string) (text_string : string) (global_step : Z).

(** ** Tensors as nested lists *)

Module Tensor.

(** Length of the longest sequence. *)
Definition max_len {A} (sequences : list (list A)) : nat :=
  foldr Nat.max 0%nat (map length sequences).

(** Every sequence extended on the right to the longest one. *)
Definition right_pad {A} (padding_value : A) (sequences : list (list A))
  : list (list A) :=
  map (fun s => s ++ replicate (max_len sequences - length s) padding_value)
      sequences.

(** [pad_sequence(sequences, batch_first=True, padding_value=...)]; torch
    refuses an empty list of sequences. *)
Definition pad_sequence {A} (padding_value : A) (sequences : list (list A))
  : result (list (list A)) :=
  match sequences with
  | [] => Raise RuntimeError
  | _ => Ok (right_pad padding_value sequences)
  end.

(** [t.transpose(0, 1)] of a batch of at least one row. *)
Fixpoint transpose {A} (t : list (list A)) : list (list A) :=
  match t with
  | [] => []
  | [row] => map (fun x => [x]) row
  | row :: rest => zip_with cons row (transpose rest)
  end.


(** All rows have length [n]. *)
Definition rows_of_length {A} (n : Z) (t : list (list A)) : Prop :=
  Forall (fun row => len row = n) t.

End Tensor.
Export Tensor.

(** ** The run configuration

  The configuration is a nested mapping read from a YAML file.  The keys
  the expert reads are fields that may be absent; the hyperparameter blocks
  of [downstream_expert['model']], one per model name, are a finite map.
  Keys the expert only forwards to its collaborators are not represented. *)

Module Config.

Record Corpus : Type := { name : option string }.

Record ModelRc (Kwargs : Type) : Type := {
  project_dim : option Z;
  select : option string;
  zero_infinity : option bool;
  blocks : gmap string Kwargs
}.
Arguments project_dim {Kwargs} _.
Arguments select {Kwargs} _.
Arguments zero_infinity {Kwargs} _.
Arguments blocks {Kwargs} _.

Record DownstreamRc (TextRc Kwargs : Type) : Type := {
  corpus : option Corpus;
  text : option TextRc;
  model : option (ModelRc Kwargs);
  metric : option (list string);
  metric_higher_better : option bool
}.
Arguments corpus {TextRc Kwargs} _.
Arguments text {TextRc Kwargs} _.
Arguments model {TextRc Kwargs} _.
Arguments metric {TextRc Kwargs} _.
Arguments metric_higher_better {TextRc Kwargs} _.

Record Runner : Type := { eval_dataloaders : option (list string) }.

End Config.

(** ** The collaborators

    Types of the objects the expert holds, and the operations of torch and of
    the sibling modules it calls. *)

(** Log-probabilities of shape (N, T, C). *)
Definition LogProbs : Type := list (list (list float)).

(** The tokenizer of [.text]: [decode(tokens, ignore_repeat)]. *)
Record Tokenizer : Type := {
  vocab_size : Z;
  pad_idx : Z;
  decode : list Z -> bool -> string
}.

(** [model(features, features_len)] gives [(log_probs, log_probs_len)]. *)
Definition Model (PFrame : Type) : Type :=
  list (list PFrame) -> list Z -> result (LogProbs * list Z).

(** [objective(log_probs, targets, input_lengths, target_lengths)] *)
Definition Objective : Type :=
  list (list (list float)) -> list (list Z) -> list Z -> list Z -> result float.

(** [metric(log_probs=, log_probs_len=, hypothesis=, groundtruth=)] *)
Definition Metric : Type :=
  LogProbs -> list Z -> list string -> list string -> result value.

(** [Frame] is an upstream feature frame, [PFrame] a projected frame,
    [TextRc] the tokenizer parameters and [Kwargs] the keyword arguments of
    a model constructor. *)
Class Collaborators (Frame PFrame TextRc Kwargs : Type) : Type := {
  (** the all-zero frame [pad_sequence] fills features with *)
  zero_frame : Frame;
  load_text_encoder : TextRc -> result Tokenizer;
  (** [nn.Linear(in_features, out_features)]: the layer, applied to one
      frame, or the error torch raises for dimensions it refuses *)
  nn_Linear : Z -> Z -> result (Frame -> PFrame);
  (** [nn.CTCLoss(blank=, zero_infinity=)] *)
  nn_CTCLoss : Z -> bool -> Objective;
  (** what [eval(model_select)] finds when the text is a name: what the
      name is bound to (the model classes imported from [..asr.model]),
      called as [cls(input_dim, vocab_size, upstream_rate, **kwargs)]; a
      name bound to something else is a [cls] whose call raises *)
  model_scope : string -> option (Z -> Z -> Z -> Kwargs -> result (Model PFrame));
  (** what [eval(model_select)] gives for a text that is no name: the value
      of the expression, or the error of the evaluator ([SyntaxError] for
      text that is no expression) *)
  model_expression : string -> result (Z -> Z -> Z -> Kwargs -> result (Model PFrame));
  (** what [eval(metric)] finds when the text is a name: the functions
      imported from [.metric] *)
  metric_scope : string -> option Metric;
  (** what [eval(metric)] gives for a text that is no name *)
  metric_expression : string -> result Metric;
  (** [str.lower] on text that is not all ASCII *)
  unicode_lower : string -> string;
  (** [argmax(dim=-1)] on one vector of class scores *)
  argmax : list float -> Z;
  (** [torch.FloatTensor(values).mean().item()] *)
  FloatTensor_mean : list value -> result float;
  (** how an f-string renders a float and a tensor *)
  float_repr : float -> string;
  tensor_repr : float -> string
}.

(** ** The expert *)

Section Expert.

Context `{Collaborators Frame PFrame TextRc Kwargs}.

(** [eval(source)].  A text that is a name is looked up in the namespace,
    and a name the namespace does not bind raises [NameError]; any other
    text is handed to the evaluator. *)
Definition eval {A} (scope : string -> option A) (expression : string -> result A)
    (source : string) : result A :=
  if is_name source then
    match scope source with
    | Some a => Ok a
    | None => Raise (NameError source)
    end
  else expression source.

(** [s.lower()] *)
Definition lower (s : string) : string :=
  if is_ascii s then ascii_lower s else unicode_lower s.

(** [f'{v}'] *)
Definition format (v : value) : string :=
  match v with
  | VStr s => s
  | VInt z => pretty z
  | VFloat x => float_repr x
  | VTensor x => tensor_repr x
  end.

Record DownstreamExpert : Type := {
  upstream_dim : Z;
  corpus : Config.Corpus;
  tokenizer : Tokenizer;
  projector : Frame -> PFrame;
  model : Model PFrame;
  objective : Objective;
  eval_dataloaders : list string;
  metrics : list string;
  metric_higher_better : bool;
  best_score : float
}.

(** [0 if self.metric_higher_better else 1 << 31], as a float tensor. *)
Definition initial_best_score (metric_higher_better : bool) : float :=
  F32.of_Z (if metric_higher_better then 0 else Z.shiftl 1 31).

Definition __init__ (upstream_dim upstream_rate : Z) (runner : Config.Runner)
    (downstream_expert : Config.DownstreamRc TextRc Kwargs)
  : result DownstreamExpert :=
  corpus ← getkey "corpus" (Config.corpus downstream_expert);
  text ← getkey "text" (Config.text downstream_expert);
  tokenizer ← load_text_encoder text;
  modelrc ← getkey "model" (Config.model downstream_expert);
  project_dim ← getkey "project_dim" (Config.project_dim modelrc);
  projector ← nn_Linear upstream_dim project_dim;
  (* the later reads of ['model'] and ['project_dim'] repeat reads that
     have succeeded *)
  model_select ← getkey "select" (Config.select modelrc);
  cls ← eval model_scope model_expression model_select;
  kwargs ← getkey model_select (Config.blocks modelrc !! model_select);
  model ← cls project_dim (vocab_size tokenizer) upstream_rate kwargs;
  zero_infinity ← getkey "zero_infinity" (Config.zero_infinity modelrc);
  let objective := nn_CTCLoss (pad_idx tokenizer) zero_infinity in
  eval_dataloaders ← getkey "eval_dataloaders" (Config.eval_dataloaders runner);
  metrics ← getkey "metric" (Config.metric downstream_expert);
  metric_higher_better ←
    getkey "metric_higher_better" (Config.metric_higher_better downstream_expert);
  Ok {| upstream_dim := upstream_dim;
        corpus := corpus;
        tokenizer := tokenizer;
        projector := projector;
        model := model;
        objective := objective;
        eval_dataloaders := eval_dataloaders;
        metrics := metrics;
        metric_higher_better := metric_higher_better;
        best_score := initial_best_score metric_higher_better |}.

(** [f'ctc-{self.corpus["name"].lower()}'] *)
Definition _get_task_name (self : DownstreamExpert) : result string :=
  name ← getkey "name" (Config.name (corpus self));
  Ok ("ctc-" +:+ lower name).

(** *** The state a call works on *)

Record State : Type := {
  self : DownstreamExpert;
  records : Records;
  logger : list event
}.

Definition on_records {A} (m : M Records A) : M State A := fun s =>
  let (r, a) := m (records s) in
  ({| self := self s; records := r; logger := logger s |}, a).

Definition emit (e : event) : M State unit :=
  modify (fun s => {| self := self s; records := records s;
                      logger := logger s ++ [e] |}).

Definition with_best_score (x : float) (e : DownstreamExpert) : DownstreamExpert :=
  {| upstream_dim := upstream_dim e;
     corpus := corpus e;
     tokenizer := tokenizer e;
     projector := projector e;
     model := model e;
     objective := objective e;
     eval_dataloaders := eval_dataloaders e;
     metrics := metrics e;
     metric_higher_better := metric_higher_better e;
     best_score := x |}.

Definition set_best_score (x : float) : M State unit :=
  modify (fun s => {| self := with_best_score x (self s); records := records s;
                      logger := logger s |}).

(** *** [forward] *)

(** [pred_tokens = log_probs.argmax(dim=-1)] *)
Definition pred_tokens (log_probs : LogProbs) : list (list Z) :=
  map (map argmax) log_probs.

(** The hypothesis and ground-truth texts of a batch. *)
Definition hypothesis_of (tok : Tokenizer) (log_probs : LogProbs) : list string :=
  map (fun h => decode tok h true) (pred_tokens log_probs).

(** [decode(g.tolist())] leaves [ignore_repeat] at its default, false. *)
Definition groundtruth_of (tok : Tokenizer) (labels : list (list Z)) : list string :=
  map (fun g => decode tok g false) labels.

(** [records[metric].append(eval(metric)(...))]: the subscription is
    evaluated first, then the name, then the call. *)
Definition record_metric (log_probs : LogProbs) (log_probs_len : list Z)
    (hypothesis groundtruth : list string) (metric : string) : M State unit :=
  on_records (Rec.get metric) ;;
  f ← lift (eval metric_scope metric_expression metric);
  v ← lift (f log_probs log_probs_len hypothesis groundtruth);
  on_records (Rec.append metric v).

(** What the model and the loss are called with. *)
Record Batch : Type := {
  features_len : list Z;
  labels_len : list Z;
  padded_features : list (list Frame);
  padded_labels : list (list Z)
}.

(** Lengths are taken first, then both lists are padded. *)
Definition collate (pad : Z) (features : list (list Frame)) (labels : list (list Z))
  : result Batch :=
  let features_len := map len features in
  let labels_len := map len labels in
  features ← pad_sequence zero_frame features;
  labels ← pad_sequence pad labels;
  Ok {| features_len := features_len; labels_len := labels_len;
        padded_features := features; padded_labels := labels |}.

Definition forward (split : string) (features : list (list Frame))
    (labels : list (list Z)) (filenames : list string) : M State float :=
  me ← gets self;
  lift (getitem features 0) ;;                      (* features[0].device *)
  b ← lift (collate (pad_idx (tokenizer me)) features labels);
  let features := map (map (projector me)) (padded_features b) in
  '(log_probs, log_probs_len) ← lift (model me features (features_len b));
  loss ← lift (objective me (transpose log_probs) (padded_labels b)
                 log_probs_len (labels_len b));
  on_records (Rec.get "loss") ;;
  on_records (Rec.append "loss" (VFloat loss)) ;;
  let hypothesis := hypothesis_of (tokenizer me) log_probs in
  let groundtruth := groundtruth_of (tokenizer me) (padded_labels b) in
  for_each (metrics me)
    (record_metric log_probs log_probs_len hypothesis groundtruth) ;;
  on_records (Rec.get "hypothesis") ;;
  h ← lift (getitem hypothesis 0);
  on_records (Rec.append "hypothesis" (VStr h)) ;;
  on_records (Rec.get "groundtruth") ;;
  g ← lift (getitem groundtruth 0);
  on_records (Rec.append "groundtruth" (VStr g)) ;;
  on_records (Rec.get "filename") ;;
  f ← lift (getitem filenames 0);
  on_records (Rec.append "filename" (VStr f)) ;;
  mret loss.

(** *** [log_records] *)

(** [average > self.best_score if self.metric_higher_better else
    average < self.best_score] *)
Definition save_criterion (higher_better : bool) (average best : float) : bool :=
  if higher_better then F32.gt average best else F32.lt average best.

Definition best_ckpt (split : string) : string := split +:+ "-best.ckpt".

(** The body of the loop over [records.items()]. *)
Definition log_scalar (split : string) (global_step : Z)
    (save_names : list string) (item : string * list value)
  : M State (list string) :=
  let '(key, values) := item in
  v0 ← lift (getitem values 0);
  if is_number v0 then
    average ← lift (FloatTensor_mean values);
    emit (Print (split +:+ " " +:+ key +:+ ": " +:+ float_repr average)) ;;
    me ← gets self;
    task ← lift (_get_task_name me);
    emit (AddScalar (task +:+ "/" +:+ split +:+ "-" +:+ key) average global_step) ;;
    m0 ← lift (getitem (metrics me) 0);
    if String.eqb key m0 then
      let criterion :=
        save_criterion (metric_higher_better me) average (best_score me) in
      e0 ← lift (getitem (eval_dataloaders me) 0);
      if String.eqb split e0 && criterion then
        set_best_score average ;;
        mret (save_names ++ [best_ckpt split])
      else mret save_names
    else mret save_names
  else mret save_names.

(** The body of the loop over the sampled indices. *)
Definition log_text (split : string) (global_step : Z) (i : Z) : M State unit :=
  l ← on_records (Rec.get "filename");
  filename ← lift (getitem l i);
  l ← on_records (Rec.get "hypothesis");
  hypothesis ← lift (getitem l i);
  l ← on_records (Rec.get "groundtruth");
  groundtruth ← lift (getitem l i);
  me ← gets self;
  task ← lift (_get_task_name me);
  emit (AddText (task +:+ "/" +:+ split +:+ "-" +:+ format filename)
          ("**hypothesis**: " +:+ format hypothesis
             +:+ "<br>**groundtruth**: " +:+ format groundtruth)
          global_step).

(** [range(0, len(records['filename']), round(len(records['filename']) / 5))] *)
Definition sample_indices : M State (list Z) :=
  stop ← on_records (Rec.get "filename");
  l ← on_records (Rec.get "filename");
  lift (range 0 (len stop) (round_div (len l) 5)).

Definition log_records (split : string) (global_step : Z) : M State (list string) :=
  its ← gets (fun s => items (records s));
  save_names ← for_fold its (log_scalar split global_step) [];
  indices ← sample_indices;
  for_each indices (log_text split global_step) ;;
  mret save_names.

(** *** Notions the statements use *)

(** The item [(key, values)] makes [log_records] take [average] as the new
    best score: the key is the primary metric, its values are numbers with
    mean [average], the split is the first evaluation split and the mean
    beats the best score in the configured direction. *)
Definition improves (me : DownstreamExpert) (split key : string)
    (values : list value) (average : float) : Prop :=
  metrics me !! 0%nat = Some key /\
  (exists v0, values !! 0%nat = Some v0 /\ is_number v0 = true) /\
  FloatTensor_mean values = Ok average /\
  eval_dataloaders me !! 0%nat = Some split /\
  save_criterion (metric_higher_better me) average (best_score me) = true.

Definition is_text (e : event) : bool :=
  match e with AddText _ _ _ => true | _ => false end.

(** The text entries among the logged events. *)
Definition texts (l : list event) : list event := List.filter is_text l.

(** The text entry for sample [i] of a records accumulator. *)
Definition sample_at (task split : string) (global_step : Z) (r : Records) (i : nat)
  : option event :=
  filename ← field "filename" r !! i;
  hypothesis ← field "hypothesis" r !! i;
  groundtruth ← field "groundtruth" r !! i;
  Some (AddText (task +:+ "/" +:+ split +:+ "-" +:+ format filename)
          ("**hypothesis**: " +:+ format hypothesis
             +:+ "<br>**groundtruth**: " +:+ format groundtruth)
          global_step).

(** The scalar loop meets no error: the corpus has a name, there is a
    primary metric and a first evaluation split, and every field holds a
    first value and, when that is a number, values torch can average. *)
Definition scalars_loggable (me : DownstreamExpert) (its : list (string * list value))
  : Prop :=
  Config.name (corpus me) <> None /\
  metrics me <> [] /\
  eval_dataloaders me <> [] /\
  Forall (fun item : string * list value =>
            exists v0, snd item !! 0%nat = Some v0 /\
              (is_number v0 = true -> exists average, FloatTensor_mean (snd item) = Ok average))
         its.

(** Every recorded filename comes with its hypothesis and ground truth. *)
Definition samples_aligned (r : Records) : Prop :=
  (length (field "filename" r) <= length (field "hypothesis" r))%nat /\
  (length (field "filename" r) <= length (field "groundtruth" r))%nat.

(** Every key the constructor reads is there, the block of hyperparameters
    named after the selected model included. *)
Definition complete (runner : Config.Runner)
    (downstream_expert : Config.DownstreamRc TextRc Kwargs) : bool :=
  match Config.corpus downstream_expert, Config.text downstream_expert,
        Config.model downstream_expert, Config.metric downstream_expert,
        Config.metric_higher_better downstream_expert,
        Config.eval_dataloaders runner with
  | Some _, Some _, Some modelrc, Some _, Some _, Some _ =>
      match Config.project_dim modelrc, Config.select modelrc,
            Config.zero_infinity modelrc with
      | Some _, Some model_select, Some _ =>
          bool_decide (is_Some (Config.blocks modelrc !! model_select))
      | _, _, _ => false
      end
  | _, _, _, _, _, _ => false
  end.

(** [metric] resolved and applied to the outputs of a batch. *)
Definition metric_value (log_probs : LogProbs) (log_probs_len : list Z)
    (hypothesis groundtruth : list string) (metric : string) : result value :=
  f ← eval metric_scope metric_expression metric;
  f log_probs log_probs_len hypothesis groundtruth.

(** The records after the loop over the metrics, when every metric gives a
    value. *)
Definition with_metrics (log_probs : LogProbs) (log_probs_len : list Z)
    (hypothesis groundtruth : list string) (r : Records) (metrics : list string)
  : Records :=
  foldl (fun r metric =>
           match metric_value log_probs log_probs_len hypothesis groundtruth metric with
           | Ok v => push metric v r
           | Raise _ => r
           end) r metrics.

(** What one turn of the scalar loop can do. *)
Inductive scalar_outcome (s : State) (split : string) (acc : list string)
    (key : string) (values : list value) : State * result (list string) -> Prop :=
| scalar_saves average s' :
    improves (self s) split key values average ->
    self s' = with_best_score average (self s) ->
    scalar_outcome s split acc key values (s', Ok (acc ++ [best_ckpt split]))
| scalar_keeps s' :
    (forall average, ~ improves (self s) split key values average) ->
    self s' = self s ->
    scalar_outcome s split acc key values (s', Ok acc)
| scalar_raises s' e :
    self s' = self s ->
    scalar_outcome s split acc key values (s', Raise e).


(** What the whole scalar loop can do on items with distinct keys. *)
Inductive loop_outcome (s : State) (split : string) (acc : list string)
    (its : list (string * list value)) : State * result (list string) -> Prop :=
| loop_saves key values average s' out :
    In (key, values) its ->
    improves (self s) split key values average ->
    self s' = with_best_score average (self s) ->
    out = Ok (acc ++ [best_ckpt split]) \/ (exists e, out = Raise e) ->
    loop_outcome s split acc its (s', out)
| loop_keeps s' :
    (forall key values average,
        In (key, values) its -> ~ improves (self s) split key values average) ->
    self s' = self s ->
    loop_outcome s split acc its (s', Ok acc)
| loop_raises s' e :
    self s' = self s ->
    loop_outcome s split acc its (s', Raise e).

(** The positions [range(0, n, stride)] visits, for a positive stride. *)
Definition positions (n stride : Z) : list nat :=
  map (fun j => (j * Z.to_nat stride)%nat)
      (seq 0 (Z.to_nat ((n + stride - 1) / stride))).

(** Everything the constructor evaluates before it resolves the model name
    succeeds. *)
Definition reaches_model_lookup (upstream_dim : Z)
    (rc : Config.DownstreamRc TextRc Kwargs) (modelrc : Config.ModelRc Kwargs)
  : Prop :=
  Config.corpus rc <> None /\
  (exists text tok, Config.text rc = Some text /\ load_text_encoder text = Ok tok) /\
  Config.model rc = Some modelrc /\
  (exists project_dim projector,
     Config.project_dim modelrc = Some project_dim /\
     nn_Linear upstream_dim project_dim = Ok projector).

(** [records[k]] can be read: the key is there, or the mapping creates it. *)
Definition readable (k : string) (r : Records) : Prop :=
  default_factory r = true \/ assoc k (items r) <> None.


(** What the scalar loop prints and logs for one item: nothing for a field
    whose first value is no number, the mean otherwise. *)
Definition scalar_events (task split : string) (global_step : Z)
    (item : string * list value) : list event :=
  match snd item with
  | v0 :: _ =>
      if is_number v0 then
        match FloatTensor_mean (snd item) with
        | Ok average =>
            [ Print (split +:+ " " +:+ fst item +:+ ": " +:+ float_repr average);
              AddScalar (task +:+ "/" +:+ split +:+ "-" +:+ fst item) average
                        global_step ]
        | Raise _ => []
        end
      else []
  | [] => []
  end.

(** The records [r'] extend [r]: every field of [r] is a prefix of the same
    field of [r'], no key is lost, and distinct keys stay distinct. *)
Definition extends (r r' : Records) : Prop :=
  default_factory r' = default_factory r /\
  (forall k, exists more, field k r' = field k r ++ more) /\
  (forall k, assoc k (items r) <> None -> assoc k (items r') <> None) /\
  (NoDup (keys r) -> NoDup (keys r')).

(** The records [r'] are [r] up to keys created with an empty list. *)
Definition same_fields (r r' : Records) : Prop :=
  default_factory r' = default_factory r /\
  (forall k, field k r' = field k r) /\
  (forall k, assoc k (items r) <> None -> assoc k (items r') <> None) /\
  (NoDup (keys r) -> NoDup (keys r')).

(** A computation keeps a part [proj] of the state within the relation [R],
    whether it returns or raises. *)
Definition keeps {X A} (proj : State -> X) (R : X -> X -> Prop) (m : M State A)
  : Prop :=
  forall s, R (proj s) (proj (fst (m s))).

(** The records are the same up to empty lists created under the keys the
    text loop reads. *)
Definition only_read (r r' : Records) : Prop :=
  same_fields r r' /\
  forall k, assoc k (items r') <> None ->
            assoc k (items r) <> None \/
            In k ["filename"; "hypothesis"; "groundtruth"].

(** An upper-case ASCII letter, what [lower] rewrites. *)
Definition is_upper (c : ascii) : bool :=
  ((65 <=? nat_of_ascii c)%nat && (nat_of_ascii c <=? 90)%nat)%bool.

End Expert.

(** ** A small concrete instance

    Stand-ins for the collaborators, used to run the expert on explicit
    inputs: frames are token numbers, the projection is the identity, the
    model scores each frame one-hot and keeps the lengths, and the tokenizer
    spells token [i] as the [i]-th letter, with 0 as padding. *)

Module Demo.

Definition letter (t : Z) : string :=
  String (ascii_of_nat (96 + Z.to_nat t)) EmptyString.

Fixpoint spell (pad : Z) (ignore_repeat : bool) (prev : option Z) (toks : list Z)
  : string :=
  match toks with
  | [] => EmptyString
  | t :: toks' =>
      let skip := (t =? pad)
                  || (ignore_repeat && match prev with
                                       | Some q => t =? q
                                       | None => false
                                       end) in
      (if skip then EmptyString else letter t)
        +:+ spell pad ignore_repeat (Some t) toks'
  end.

Definition letters : Tokenizer :=
  {| vocab_size := 27; pad_idx := 0;
     decode := fun toks ignore_repeat => spell 0 ignore_repeat None toks |}.

Definition one : float := F32.of_Z 1.

Definition one_hot (classes : nat) (t : Z) : list float :=
  map (fun c => if Z.of_nat c =? t then one else F32.zero) (seq 0 classes).

Definition rnn (input_dim vocab_size upstream_rate : Z) (kwargs : unit)
  : result (Model Z) :=
  Ok (fun features features_len =>
        Ok (map (map (one_hot (Z.to_nat vocab_size))) features, features_len)).

(** Index of the first largest score. *)
Fixpoint first_max (best : float) (at_ next : Z) (scores : list float) : Z :=
  match scores with
  | [] => at_
  | x :: scores' =>
      if F32.lt best x then first_max x next (next + 1) scores'
      else first_max best at_ (next + 1) scores'
  end.

Definition to_float (v : value) : result float :=
  match v with
  | VInt z => Ok (F32.of_Z z)
  | VFloat x | VTensor x => Ok x
  | VStr _ => Raise TypeError
  end.

Fixpoint to_floats (vs : list value) : result (list float) :=
  match vs with
  | [] => Ok []
  | v :: vs' => x ← to_float v; xs ← to_floats vs'; Ok (x :: xs)
  end.

Definition error_rate : Metric := fun _ _ hypothesis groundtruth =>
  Ok (VFloat (if decide (hypothesis = groundtruth) then F32.zero else one)).

Definition repr (x : float) : string :=
  match x with
  | S754_zero _ => "0.0"
  | S754_infinity s => if s then "-inf" else "inf"
  | S754_nan => "nan"
  | S754_finite s m e =>
      (if s then "-" else "") +:+ pretty (Zpos m) +:+ "p" +:+ pretty e
  end.

Global Instance env : Collaborators Z Z unit unit := {|
  zero_frame := 0;
  load_text_encoder := fun _ => Ok letters;
  nn_Linear := fun in_features out_features =>
    if (in_features <? 0) || (out_features <? 0) then Raise RuntimeError
    else Ok (fun x => x);
  nn_CTCLoss := fun blank zero_infinity log_probs targets input_lengths target_lengths =>
    Ok (F32.of_Z (len targets));
  model_scope := fun name => if String.eqb name "RNNs" then Some rnn else None;
  model_expression := fun _ => Raise SyntaxError;
  metric_scope := fun name =>
    if String.eqb name "wer" || String.eqb name "cer" then Some error_rate else None;
  metric_expression := fun _ => Raise SyntaxError;
  unicode_lower := fun s => s;
  argmax := fun scores =>
    match scores with [] => 0 | x :: rest => first_max x 0 1 rest end;
  FloatTensor_mean := fun values => xs ← to_floats values; Ok (F32.mean xs);
  float_repr := repr;
  tensor_repr := repr
|}.

Definition runner : Config.Runner :=
  {| Config.eval_dataloaders := Some ["dev-clean"; "test-clean"] |}.

Definition modelrc (select : string) : Config.ModelRc unit :=
  {| Config.project_dim := Some 27;
     Config.select := Some select;
     Config.zero_infinity := Some true;
     Config.blocks := {[ "RNNs" := tt ]} |}.

Definition config (select : string) (metric : list string) (higher_better : bool)
  : Config.DownstreamRc unit unit :=
  {| Config.corpus := Some {| Config.name := Some "LibriSpeech" |};
     Config.text := Some tt;
     Config.model := Some (modelrc select);
     Config.metric := Some metric;
     Config.metric_higher_better := Some higher_better |}.

(** A complete configuration whose projection width torch refuses. *)
Definition negative_width (select : string) : Config.DownstreamRc unit unit :=
  {| Config.corpus := Some {| Config.name := Some "LibriSpeech" |};
     Config.text := Some tt;
     Config.model :=
       Some {| Config.project_dim := Some (-1);
               Config.select := Some select;
               Config.zero_infinity := Some true;
               Config.blocks := {[ "RNNs" := tt ]} |};
     Config.metric := Some ["wer"];
     Config.metric_higher_better := Some false |}.

(** The expert a configuration builds; configurations that fail to build
    give an expert without a model. *)
Definition expert (metric : list string) (higher_better : bool)
  : @DownstreamExpert Z Z :=
  match __init__ 27 1 runner (config "RNNs" metric higher_better) with
  | Ok e => e
  | Raise _ =>
      {| upstream_dim := 0; corpus := {| Config.name := None |};
         tokenizer := letters; projector := fun x => x;
         model := fun _ _ => Raise RuntimeError;
         objective := fun _ _ _ _ => Raise RuntimeError;
         eval_dataloaders := []; metrics := []; metric_higher_better := false;
         best_score := F32.zero |}
  end.

Definition empty_records : Records := {| default_factory := true; items := [] |}.

Definition state (e : @DownstreamExpert Z Z) (r : Records) : State :=
  {| self := e; records := r; logger := [] |}.

(** A records accumulator as [n] batches of the demo leave it, with the
    given per-batch values of the metric "wer". *)
Definition sampled (wer : list float) : Records :=
  {| default_factory := true;
     items := [ ("loss", map VFloat wer);
                ("wer", map VFloat wer);
                ("hypothesis", map (fun _ => VStr "ab") wer);
                ("groundtruth", map (fun _ => VStr "ab") wer);
                ("filename", map (fun _ => VStr "utt") wer) ] |}.

(** The expert the constructor builds for the metric "wer", and a call of
    [log_records] on the records of some batches. *)
Definition scored (higher_better : bool) : @DownstreamExpert Z Z :=
  expert ["wer"] higher_better.

Definition epoch (higher_better : bool) (wer : list float) : @State Z Z :=
  state (scored higher_better) (sampled wer).

(** A batch of two utterances, on fresh records. *)
Definition batch_features : list (list Z) := [[1; 2; 2; 3]; [1; 1]].
Definition batch_labels : list (list Z) := [[1; 2; 3]; [1]].
Definition batch_filenames : list string := ["utt1"; "utt2"].

Definition batch_state (metric : list string) : @State Z Z :=
  state (expert metric false) empty_records.

Definition batch_log_probs : LogProbs :=
  map (map (one_hot 27)) (right_pad 0 batch_features).


(** The primary metric of six batches. *)
Definition six : list float := replicate 6 F32.c0_75.




(** Records that hold only number fields. *)
Definition scalars_only (wer : list float) : Records :=
  {| default_factory := true;
     items := [ ("loss", map VFloat wer); ("wer", map VFloat wer) ] |}.

(** Records in which a metric name that did not resolve has left an empty
    list. *)
Definition poisoned : Records :=
  {| default_factory := true;
     items := [ ("loss", [VFloat one]); ("bleu", []) ] |}.

(** A batch whose first label sequence is the shorter one. *)
Definition short_first : list (list Z) := [[1]; [1; 2; 3]].

End Demo.

(** * Properties *)

(** ** The sampling stride *)

Lemma round_div_5 n : round_div n 5 = (n + 2) / 5.
Proof.
  unfold round_div.
  destruct (Z.compare_spec (2 * (n mod 5)) 5) as [E|L|G];
    Z.div_mod_to_equations; lia.
Qed.

Lemma stride_zero_iff n : 0 <= n -> round_div n 5 = 0 <-> n < 3.
Proof. rewrite round_div_5. Z.div_mod_to_equations; lia. Qed.

Lemma sample_count_bounds n :
  5 <= n -> let st := round_div n 5 in 4 <= (n + st - 1) / st <= 7.
Proof.
  intros Hn st. subst st. rewrite round_div_5.
  assert (5 * ((n + 2) / 5) <= n + 2 < 5 * ((n + 2) / 5) + 5)
    by (Z.div_mod_to_equations; lia).
  set (st := (n + 2) / 5) in *.
  assert (1 <= st) by lia.
  split.
  - apply Z.div_le_lower_bound; nia.
  - apply Z.div_le_upper_bound; [lia|]. nia.
Qed.

Lemma sample_count_multiple n :
  0 < n -> n mod 5 = 0 -> let st := round_div n 5 in (n + st - 1) / st = 5.
Proof.
  intros Hn Hm st. subst st. rewrite round_div_5.
  assert (n = 5 * ((n + 2) / 5)) by (Z.div_mod_to_equations; lia).
  set (st := (n + 2) / 5) in *.
  assert (1 <= st) by lia.
  symmetry. apply (Z.div_unique_pos _ _ _ (st - 1)); nia.
Qed.

Section Properties.

Context `{Collaborators Frame PFrame TextRc Kwargs}.

(** ** [log_records] *)

(** *** The scalar loop *)

Lemma run_bind {S A B} (m : M S A) (k : A -> M S B) (s : S) :
  (m ≫= k) s = match m s with
               | (s', Ok a) => k a s'
               | (s', Raise e) => (s', Raise e)
               end.
Proof. reflexivity. Qed.

Lemma getitem_0 {A} (l : list A) :
  getitem l 0 = match l with [] => Raise IndexError | x :: _ => Ok x end.
Proof. destruct l; reflexivity. Qed.

Lemma texts_app l1 l2 : texts (l1 ++ l2) = texts l1 ++ texts l2.
Proof. apply List.filter_app. Qed.

Lemma SFltb_irrefl x : SFltb x x = false.
Proof.
  unfold SFltb, SFcompare. destruct x as [s|s| |s m e]; try destruct s; try reflexivity;
    rewrite Z.compare_refl, Pos.compare_cont_refl; reflexivity.
Qed.

Lemma save_criterion_strict hb avg best :
  save_criterion hb avg best = true -> avg <> best.
Proof.
  intros Hc ->. unfold save_criterion, F32.gt, F32.lt in Hc.
  rewrite SFltb_irrefl in Hc. destruct hb; discriminate.
Qed.


Ltac mrun :=
  repeat (progress
    (unfold mbind, M_bind, mret, M_ret, lift, gets, modify, emit, set_best_score,
       on_records;
     cbn beta iota zeta delta [fst snd self records logger];
     rewrite ?getitem_0)).

Lemma log_scalar_frame split step acc item s :
  let r := log_scalar split step acc item s in
  records (fst r) = records s /\ texts (logger (fst r)) = texts (logger s).
Proof.
  destruct item as [key values]. unfold log_scalar. mrun.
  destruct values as [|v0 values']; [split; reflexivity|]. mrun.
  destruct (is_number v0); [|split; reflexivity]. mrun.
  destruct (FloatTensor_mean (v0 :: values')) as [avg|e]; [|split; reflexivity]. mrun.
  destruct (_get_task_name (self s)) as [task|e]; mrun;
    [|rewrite texts_app, app_nil_r; split; reflexivity].
  destruct (metrics (self s)) as [|m0 ms]; mrun;
    [rewrite !texts_app, !app_nil_r; split; reflexivity|].
  destruct (String.eqb key m0); mrun;
    [|rewrite !texts_app, !app_nil_r; split; reflexivity].
  destruct (eval_dataloaders (self s)) as [|e0 es]; mrun;
    [rewrite !texts_app, !app_nil_r; split; reflexivity|].
  destruct (String.eqb split e0 && _); mrun;
    rewrite !texts_app, !app_nil_r; split; reflexivity.
Qed.

Lemma log_scalar_outcome split step acc key values s :
  scalar_outcome s split acc key values (log_scalar split step acc (key, values) s).
Proof.
  unfold log_scalar. mrun.
  destruct values as [|v0 values']; mrun.
  { apply scalar_raises. reflexivity. }
  destruct (is_number v0) eqn:Hnum; mrun.
  2:{ apply scalar_keeps; [|reflexivity].
      intros avg (_ & (v & Hv & Hn) & _). cbn in Hv. congruence. }
  destruct (FloatTensor_mean (v0 :: values')) as [avg|e] eqn:Hmean; mrun.
  2:{ apply scalar_raises. reflexivity. }
  destruct (_get_task_name (self s)) as [task|e]; mrun.
  2:{ apply scalar_raises. reflexivity. }
  destruct (metrics (self s)) as [|m0 ms] eqn:Hms; mrun.
  { apply scalar_raises. reflexivity. }
  destruct (String.eqb_spec key m0) as [->|Hne]; mrun.
  2:{ apply scalar_keeps; [|reflexivity].
      intros a (Hk & _). rewrite Hms in Hk. cbn in Hk. congruence. }
  destruct (eval_dataloaders (self s)) as [|e0 es] eqn:Hes; mrun.
  { apply scalar_raises. reflexivity. }
  destruct (String.eqb_spec split e0) as [->|Hne]; cbn [andb].
  2:{ apply scalar_keeps; [|reflexivity].
      intros a (_ & _ & _ & He & _). rewrite Hes in He. cbn in He. congruence. }
  destruct (save_criterion _ avg _) eqn:Hc; mrun.
  - apply scalar_saves with (average := avg); [|reflexivity].
    repeat split; try (rewrite ?Hms, ?Hes; reflexivity); auto.
    exists v0. auto.
  - apply scalar_keeps; [|reflexivity].
    intros a (_ & _ & Hm & _ & Hc'). rewrite Hmean in Hm. injection Hm as <-.
    congruence.
Qed.

Lemma scalar_loop_frame split step its : forall acc s,
  let r := for_fold its (log_scalar split step) acc s in
  records (fst r) = records s /\ texts (logger (fst r)) = texts (logger s).
Proof.
  induction its as [|item its IH]; intros acc s; cbn [for_fold].
  - split; reflexivity.
  - rewrite run_bind.
    pose proof (log_scalar_frame split step acc item s) as [Hr Hl].
    destruct (log_scalar split step acc item s) as [s1 [acc1|e]]; cbn [fst] in *.
    + destruct (IH acc1 s1) as [Hr' Hl']. split; congruence.
    + split; assumption.
Qed.

Lemma scalar_loop_other split step its : forall acc s,
  (forall key values, In (key, values) its -> metrics (self s) !! 0%nat <> Some key) ->
  let r := for_fold its (log_scalar split step) acc s in
  self (fst r) = self s /\ (snd r = Ok acc \/ exists e, snd r = Raise e).
Proof.
  induction its as [|[key values] its IH]; intros acc s Hother; cbn [for_fold].
  - split; [reflexivity | left; reflexivity].
  - rewrite run_bind.
    destruct (log_scalar_outcome split step acc key values s)
      as [avg s1 Himp _ | s1 _ Hself | s1 e Hself].
    + exfalso. destruct Himp as [Hk _]. apply (Hother key values); [left; reflexivity | exact Hk].
    + destruct (IH acc s1) as [Hs Ho].
      { intros k v Hin. rewrite Hself. apply (Hother k v). right. exact Hin. }
      split; [congruence | exact Ho].
    + cbn. split; [exact Hself | right; eauto].
Qed.

Lemma scalar_loop_outcome split step its : forall acc s,
  NoDup (map fst its) ->
  loop_outcome s split acc its (for_fold its (log_scalar split step) acc s).
Proof.
  induction its as [|[key values] its IH]; intros acc s Hnd; cbn [for_fold].
  - apply loop_keeps; [intros ? ? ? [] | reflexivity].
  - cbn in Hnd. apply NoDup_cons in Hnd as [Hfresh Hnd].
    rewrite run_bind.
    destruct (log_scalar_outcome split step acc key values s)
      as [avg s1 Himp Hself | s1 Hno Hself | s1 e Hself].
    + (* the primary metric: no later key can be it again *)
      destruct (scalar_loop_other split step its (acc ++ [best_ckpt split]) s1)
        as [Hs Ho].
      { intros k v Hin Hk. rewrite Hself in Hk. cbn in Hk.
        destruct Himp as [Hkey _]. rewrite Hkey in Hk. injection Hk as <-.
        apply Hfresh. apply list_elem_of_In. apply in_map_iff. exists (key, v). auto. }
      destruct (for_fold its _ _ s1) as [s2 out]. cbn [fst snd] in *.
      apply loop_saves with (key := key) (values := values) (average := avg);
        [left; reflexivity | exact Himp | congruence | exact Ho].
    + specialize (IH acc s1 Hnd).
      destruct (for_fold its _ _ s1) as [s2 out].
      inversion IH as [k v avg s' out' Hin Himp Hs Ho | s' Hno' Hs | s' e Hs]; subst.
      * apply loop_saves with (key := k) (values := v) (average := avg);
          [right; exact Hin | rewrite <- Hself; exact Himp | congruence | exact Ho].
      * apply loop_keeps; [|congruence].
        intros k v a [[= <- <-]|Hin]; [apply Hno | rewrite <- Hself; apply Hno'; exact Hin].
      * apply loop_raises. congruence.
    + apply loop_raises. exact Hself.
Qed.


Lemma with_best_score_id (me : @DownstreamExpert Frame PFrame) :
  with_best_score (best_score me) me = me.
Proof. destruct me; reflexivity. Qed.

(** The scalar loop changes nothing of the expert but the best score. *)
Lemma scalar_loop_self split step its : forall acc (s : @State Frame PFrame),
  let r := for_fold its (log_scalar split step) acc s in
  self (fst r) = with_best_score (best_score (self (fst r))) (self s).
Proof.
  induction its as [|[key values] its IH]; intros acc s; cbn [for_fold].
  - cbn. symmetry. apply with_best_score_id.
  - rewrite run_bind.
    pose proof (log_scalar_outcome split step acc key values s) as Ho.
    destruct (log_scalar split step acc (key, values) s) as [s1 [acc1|e]].
    + specialize (IH acc1 s1). cbn zeta in IH. rewrite IH at 1.
      inversion Ho as [avg s' _ Hs | s' _ Hs | ]; subst; rewrite Hs; reflexivity.
    + cbn [fst]. inversion Ho as [ | | s' e' Hs]; subst. rewrite Hs.
      symmetry. apply with_best_score_id.
Qed.

(** *** The text loop *)

Lemma field_present k r :
  field k r <> [] -> assoc k (items r) = Some (field k r).
Proof. unfold field. destruct (assoc k (items r)); cbn; congruence. Qed.

Lemma get_present k r l : assoc k (items r) = Some l -> Rec.get k r = (r, Ok l).
Proof. unfold Rec.get. intros ->. reflexivity. Qed.

Lemma assoc_app_fresh {A} k (l : list (string * A)) a :
  assoc k l = None -> assoc k (l ++ [(k, a)]) = Some a.
Proof.
  induction l as [|[k' a'] l IH]; cbn.
  - rewrite String.eqb_refl. reflexivity.
  - destruct (String.eqb k k'); [discriminate | exact IH].
Qed.

Lemma assoc_app_other {A} k k' (l : list (string * A)) a :
  k <> k' -> assoc k (l ++ [(k', a)]) = assoc k l.
Proof.
  intros Hne. induction l as [|[k2 a2] l IH]; cbn.
  - destruct (String.eqb_spec k k'); [contradiction | reflexivity].
  - destruct (String.eqb k k2); [reflexivity | exact IH].
Qed.

(** Reading a key that can be read gives the stored list and leaves every
    field as it was; at most an empty list is inserted under the key. *)
Lemma get_readable k r :
  readable k r ->
  exists r', Rec.get k r = (r', Ok (field k r)) /\
    default_factory r' = default_factory r /\
    assoc k (items r') = Some (field k r) /\
    (forall k', field k' r' = field k' r) /\
    (forall k', k' <> k -> assoc k' (items r') = assoc k' (items r)).
Proof.
  intros Hr. unfold Rec.get, field.
  destruct (assoc k (items r)) as [l|] eqn:Hk.
  - exists r. cbn. rewrite Hk. auto.
  - destruct Hr as [Hd|Hp]; [|congruence]. rewrite Hd.
    eexists. split; [reflexivity|]. cbn. repeat split.
    + apply assoc_app_fresh. exact Hk.
    + intros k'. destruct (String.eqb_spec k' k) as [->|Hne].
      * rewrite (assoc_app_fresh _ _ _ Hk), Hk. reflexivity.
      * rewrite assoc_app_other by exact Hne. reflexivity.
    + intros k' Hne. apply assoc_app_other. exact Hne.
Qed.

Lemma get_unreadable k r :
  ~ readable k r -> Rec.get k r = (r, Raise (KeyError k)).
Proof.
  intros Hr. unfold Rec.get.
  destruct (assoc k (items r)) eqn:Hk.
  - exfalso. apply Hr. right. congruence.
  - destruct (default_factory r) eqn:Hd; [|reflexivity].
    exfalso. apply Hr. left. exact Hd.
Qed.

Lemma sample_indices_run (s : @State Frame PFrame) :
  readable "filename" (records s) ->
  let n := len (field "filename" (records s)) in
  exists r',
    sample_indices s =
      ({| self := self s; records := r'; logger := logger s |},
       range 0 n (round_div n 5)) /\
    (forall k, field k r' = field k (records s)) /\
    readable "filename" r'.
Proof.
  intros Hr n. unfold sample_indices. mrun.
  destruct (get_readable _ _ Hr) as (r1 & -> & Hd1 & Hk1 & Hf1 & _).
  cbn [records]. rewrite (get_present _ _ _ Hk1).
  exists r1. split; [reflexivity|]. split; [exact Hf1|].
  right. congruence.
Qed.

Lemma getitem_raises {A} (l : list A) i e : getitem l i = Raise e -> e = IndexError.
Proof.
  unfold getitem. destruct (_ <? 0); [congruence|].
  destruct (l !! _); congruence.
Qed.

Lemma get_raises k r r' e : Rec.get k r = (r', Raise e) -> e = KeyError k.
Proof.
  unfold Rec.get. destruct (assoc k (items r)); [congruence|].
  destruct (default_factory r); congruence.
Qed.

Lemma task_name_raises (me : @DownstreamExpert Frame PFrame) e :
  _get_task_name me = Raise e -> e = KeyError "name".
Proof.
  unfold _get_task_name. destruct (Config.name (corpus me)); cbn; congruence.
Qed.

(** A sampled entry never touches the expert, and never fails on a value. *)
Lemma log_text_general split step i (s : @State Frame PFrame) :
  let r := log_text split step i s in
  self (fst r) = self s /\ snd r <> Raise ValueError.
Proof.
  unfold log_text. mrun.
  destruct (Rec.get "filename" (records s)) as [r1 [l1|e]] eqn:E1; mrun.
  2:{ apply get_raises in E1 as ->. split; [reflexivity | discriminate]. }
  destruct (getitem l1 i) as [f|e] eqn:G1; mrun.
  2:{ apply getitem_raises in G1 as ->. split; [reflexivity | discriminate]. }
  destruct (Rec.get "hypothesis" r1) as [r2 [l2|e]] eqn:E2; mrun.
  2:{ apply get_raises in E2 as ->. split; [reflexivity | discriminate]. }
  destruct (getitem l2 i) as [h|e] eqn:G2; mrun.
  2:{ apply getitem_raises in G2 as ->. split; [reflexivity | discriminate]. }
  destruct (Rec.get "groundtruth" r2) as [r3 [l3|e]] eqn:E3; mrun.
  2:{ apply get_raises in E3 as ->. split; [reflexivity | discriminate]. }
  destruct (getitem l3 i) as [g|e] eqn:G3; mrun.
  2:{ apply getitem_raises in G3 as ->. split; [reflexivity | discriminate]. }
  destruct (_get_task_name (self s)) as [task|e] eqn:T; mrun.
  2:{ apply task_name_raises in T as ->. split; [reflexivity | discriminate]. }
  split; [reflexivity | discriminate].
Qed.

Lemma text_loop_general split step idx : forall (s : @State Frame PFrame),
  let r := for_each idx (log_text split step) s in
  self (fst r) = self s /\ snd r <> Raise ValueError.
Proof.
  induction idx as [|i idx IH]; intros s; cbn [for_each].
  - split; [reflexivity | discriminate].
  - rewrite run_bind.
    pose proof (log_text_general split step i s) as [Hs He].
    destruct (log_text split step i s) as [s1 [[]|e]]; cbn [fst snd] in *.
    + destruct (IH s1) as [Hs' He']. split; [congruence | exact He'].
    + split; assumption.
Qed.

Lemma getitem_lookup {A} (l : list A) (i : nat) a :
  l !! i = Some a -> getitem l (Z.of_nat i) = Ok a.
Proof.
  intros Hl. unfold getitem.
  destruct (Z.ltb_spec (Z.of_nat i) 0); [lia|].
  destruct (Z.ltb_spec (Z.of_nat i) 0); [lia|].
  rewrite Nat2Z.id, Hl. reflexivity.
Qed.

(** On aligned samples, entry [i] logs exactly [sample_at i]. *)
Lemma log_text_run split step (i : nat) (s : @State Frame PFrame) task ev :
  _get_task_name (self s) = Ok task ->
  sample_at task split step (records s) i = Some ev ->
  log_text split step (Z.of_nat i) s =
    ({| self := self s; records := records s; logger := logger s ++ [ev] |}, Ok tt).
Proof.
  intros Htask Hev. unfold sample_at in Hev.
  destruct (field "filename" (records s) !! i) as [f|] eqn:Hf; [|discriminate].
  destruct (field "hypothesis" (records s) !! i) as [h|] eqn:Hh; [|discriminate].
  destruct (field "groundtruth" (records s) !! i) as [g|] eqn:Hg; [|discriminate].
  cbn in Hev. injection Hev as <-.
  assert (Hp : forall k x, field k (records s) !! i = Some x ->
                 assoc k (items (records s)) = Some (field k (records s))).
  { intros k x Hx. apply field_present. intros E. rewrite E in Hx. discriminate. }
  unfold log_text. mrun.
  rewrite (get_present _ _ _ (Hp _ _ Hf)). cbn [fst snd records].
  rewrite (getitem_lookup _ _ _ Hf).
  rewrite (get_present _ _ _ (Hp _ _ Hh)). cbn [fst snd records].
  rewrite (getitem_lookup _ _ _ Hh).
  rewrite (get_present _ _ _ (Hp _ _ Hg)). cbn [fst snd records].
  rewrite (getitem_lookup _ _ _ Hg). mrun.
  rewrite Htask. reflexivity.
Qed.

Lemma text_loop_run split step task (idx : list nat) : forall (s : @State Frame PFrame) evs,
  _get_task_name (self s) = Ok task ->
  Forall2 (fun i ev => sample_at task split step (records s) i = Some ev) idx evs ->
  for_each (map Z.of_nat idx) (log_text split step) s =
    ({| self := self s; records := records s; logger := logger s ++ evs |}, Ok tt).
Proof.
  induction idx as [|i idx IH]; intros s evs Htask Hall.
  - apply Forall2_nil_inv_l in Hall as ->. cbn. rewrite app_nil_r.
    destruct s; reflexivity.
  - apply Forall2_cons_inv_l in Hall as (ev & evs' & Hev & Hall & ->).
    cbn [map for_each]. rewrite run_bind.
    rewrite (log_text_run _ _ _ _ _ _ Htask Hev).
    rewrite (IH _ evs'); [|exact Htask|exact Hall].
    cbn [self records logger]. rewrite <- app_assoc. reflexivity.
Qed.

Lemma sample_at_aligned task split step r (i : nat) :
  samples_aligned r ->
  (i < length (field "filename" r))%nat ->
  is_Some (sample_at task split step r i).
Proof.
  intros [Hh Hg] Hi. unfold sample_at.
  destruct (lookup_lt_is_Some_2 (field "filename" r) i Hi) as [f ->].
  destruct (lookup_lt_is_Some_2 (field "hypothesis" r) i ltac:(lia)) as [h ->].
  destruct (lookup_lt_is_Some_2 (field "groundtruth" r) i ltac:(lia)) as [g ->].
  cbn. eauto.
Qed.

Lemma range_positions n stride :
  0 < stride -> range 0 n stride = Ok (map Z.of_nat (positions n stride)).
Proof.
  intros Hs. unfold range, positions.
  destruct (Z.eqb_spec stride 0); [lia|].
  destruct (Z.ltb_spec 0 stride); [|lia].
  f_equal. rewrite map_map. rewrite Z.sub_0_r. apply map_ext. intros j. lia.
Qed.

Lemma positions_in_range n stride i :
  0 < stride -> In i (positions n stride) -> (Z.of_nat i < n).
Proof.
  intros Hs Hin. unfold positions in Hin. apply in_map_iff in Hin as (j & <- & Hj).
  apply in_seq in Hj. 
  assert (Hc : stride * ((n + stride - 1) / stride) <= n + stride - 1)
    by (apply Z.mul_div_le; lia).
  assert (Z.of_nat j < (n + stride - 1) / stride) by lia.
  nia.
Qed.

(** *** The whole call *)

Lemma log_scalar_returns split step acc key values (s : @State Frame PFrame) :
  scalars_loggable (self s) [(key, values)] ->
  exists s1 names, log_scalar split step acc (key, values) s = (s1, Ok names).
Proof.
  intros (Hname & Hms & Hes & Hall).
  apply Forall_cons in Hall as [(v0 & Hv0 & Hmean) _]. cbn [snd] in *.
  unfold log_scalar. mrun.
  destruct values as [|v values']; [discriminate|]. cbn in Hv0. injection Hv0 as ->.
  mrun. destruct (is_number v0); [|eauto].
  destruct (Hmean eq_refl) as [avg ->]. mrun.
  unfold _get_task_name.
  destruct (Config.name (corpus (self s))) as [nm|]; [|congruence]. mrun.
  destruct (metrics (self s)) as [|m0 ms]; [congruence|]. mrun.
  destruct (String.eqb key m0); [|eauto]. mrun.
  destruct (eval_dataloaders (self s)) as [|e0 es]; [congruence|]. mrun.
  destruct (String.eqb split e0 && _); mrun; eauto.
Qed.

Lemma scalars_loggable_self (me me' : @DownstreamExpert Frame PFrame) its :
  corpus me' = corpus me -> metrics me' = metrics me ->
  eval_dataloaders me' = eval_dataloaders me ->
  scalars_loggable me its -> scalars_loggable me' its.
Proof. unfold scalars_loggable. intros -> -> ->. auto. Qed.

Lemma scalar_loop_returns split step its : forall acc (s : @State Frame PFrame),
  scalars_loggable (self s) its ->
  exists s1 names, for_fold its (log_scalar split step) acc s = (s1, Ok names).
Proof.
  induction its as [|[key values] its IH]; intros acc s Hlog; cbn [for_fold].
  - eauto.
  - rewrite run_bind.
    destruct Hlog as (Hname & Hms & Hes & Hall).
    apply Forall_cons in Hall as [Hhd Htl].
    destruct (log_scalar_returns split step acc key values s) as (s1 & names & E).
    { repeat split; auto. }
    pose proof (log_scalar_outcome split step acc key values s) as Ho.
    rewrite E in *. apply IH.
    inversion Ho as [avg s' _ Hs | s' _ Hs | ]; subst;
      rewrite Hs; repeat split; auto.
Qed.

Lemma log_records_unfold split step (s : @State Frame PFrame) :
  log_records split step s =
    match for_fold (items (records s)) (log_scalar split step) [] s with
    | (s1, Ok save_names) =>
        match sample_indices s1 with
        | (s2, Ok indices) =>
            match for_each indices (log_text split step) s2 with
            | (s3, Ok _) => (s3, Ok save_names)
            | (s3, Raise e) => (s3, Raise e)
            end
        | (s2, Raise e) => (s2, Raise e)
        end
    | (s1, Raise e) => (s1, Raise e)
    end.
Proof.
  unfold log_records. rewrite run_bind. unfold gets at 1. rewrite run_bind.
  destruct (for_fold _ _ _ s) as [s1 [names|e]]; [|reflexivity].
  rewrite run_bind. destruct (sample_indices s1) as [s2 [idx|e]]; [|reflexivity].
  rewrite run_bind. destruct (for_each idx _ s2) as [s3 [[]|e]]; reflexivity.
Qed.

(** The call never moves the best score outside the scalar loop. *)
Lemma log_records_self split step (s : @State Frame PFrame) :
  self (fst (log_records split step s)) =
  self (fst (for_fold (items (records s)) (log_scalar split step) [] s)).
Proof.
  rewrite log_records_unfold.
  destruct (for_fold _ _ _ s) as [s1 [names|e]]; [|reflexivity].
  unfold sample_indices. mrun.
  destruct (Rec.get "filename" (records s1)) as [r1 [l1|e]]; [|reflexivity]. mrun.
  destruct (Rec.get "filename" r1) as [r2 [l2|e]]; [|reflexivity]. mrun.
  destruct (range 0 (len l1) (round_div (len l2) 5)) as [idx|e]; [|reflexivity].
  match goal with |- context [for_each idx ?b ?st] =>
    pose proof (text_loop_general split step idx st) as [Hs _];
    destruct (for_each idx b st) as [s3 [[]|e]] end; exact Hs.
Qed.

Lemma Forall2_sample_at task split step r idx :
  Forall (fun i => is_Some (sample_at task split step r i)) idx ->
  exists evs, Forall2 (fun i ev => sample_at task split step r i = Some ev) idx evs.
Proof.
  induction 1 as [|i idx [ev Hev] _ [evs IH]].
  - exists []. constructor.
  - exists (ev :: evs). constructor; assumption.
Qed.

(** On a loggable accumulator with at least three samples the call returns:
    the scalar loop decides the labels, and the text loop logs the entries
    at the sampled positions. *)
Lemma log_records_run split step (s : @State Frame PFrame) :
  let n := len (field "filename" (records s)) in
  scalars_loggable (self s) (items (records s)) ->
  samples_aligned (records s) ->
  3 <= n ->
  exists s1 save_names task evs,
    for_fold (items (records s)) (log_scalar split step) [] s = (s1, Ok save_names) /\
    _get_task_name (self s) = Ok task /\
    Forall2 (fun i ev => sample_at task split step (records s) i = Some ev)
            (positions n (round_div n 5)) evs /\
    log_records split step s =
      ({| self := self s1; records := records s; logger := logger s1 ++ evs |},
       Ok save_names).
Proof.
  intros n Hlog Hal Hn.
  destruct (scalar_loop_returns split step _ [] s Hlog) as (s1 & names & Hloop).
  pose proof (scalar_loop_frame split step (items (records s)) [] s) as [Hrec _].
  pose proof (scalar_loop_self split step (items (records s)) [] s) as Hself.
  rewrite Hloop in Hrec, Hself. cbn [fst] in Hrec, Hself.
  assert (Hpos : 0 < round_div n 5) by (rewrite round_div_5; Z.div_mod_to_equations; lia).
  assert (Hne : field "filename" (records s) <> []).
  { intros E. subst n. rewrite E in Hn. unfold len in Hn. cbn in Hn. lia. }
  assert (Hname : exists task, _get_task_name (self s) = Ok task).
  { destruct Hlog as (Hnm & _). unfold _get_task_name.
    destruct (Config.name (corpus (self s))); [cbn; eauto | congruence]. }
  destruct Hname as [task Htask].
  destruct (Forall2_sample_at task split step (records s) (positions n (round_div n 5)))
    as [evs Hevs].
  { apply Forall_forall. intros i Hi. apply sample_at_aligned; [exact Hal|].
    apply list_elem_of_In, positions_in_range in Hi; [|exact Hpos].
    subst n. unfold len in Hi. lia. }
  exists s1, names, task, evs. repeat split; try assumption.
  rewrite log_records_unfold, Hloop.
  assert (Hself1 : _get_task_name (self s1) = Ok task).
  { destruct Hlog as (Hnm & _). unfold _get_task_name in *.
    assert (corpus (self s1) = corpus (self s)) as ->; [|exact Htask].
    rewrite Hself. reflexivity. }
  destruct (sample_indices_run s1) as (r' & Hidx & _ & _).
  { right. rewrite Hrec. rewrite (field_present _ _ Hne). discriminate. }
  (* the key is present, so reading it inserts nothing *)
  unfold sample_indices in *. revert Hidx. mrun.
  rewrite Hrec, (get_present _ _ _ (field_present _ _ Hne)). cbn [records].
  rewrite (get_present _ _ _ (field_present _ _ Hne)). intros _.
  fold n. rewrite (range_positions n _ Hpos).
  rewrite (text_loop_run split step task _ _ evs); cbn [self records logger].
  - reflexivity.
  - exact Hself1.
  - exact Hevs.
Qed.

Lemma log_records_names split step (s : @State Frame PFrame) save_names :
  snd (log_records split step s) = Ok save_names ->
  snd (for_fold (items (records s)) (log_scalar split step) [] s) = Ok save_names.
Proof.
  rewrite log_records_unfold.
  destruct (for_fold _ _ _ s) as [s1 [names|e]]; [|discriminate].
  destruct (sample_indices s1) as [s2 [idx|e]]; [|discriminate].
  destruct (for_each idx _ s2) as [s3 [[]|e]]; [|discriminate].
  cbn. congruence.
Qed.

(** When the call returns: one label and a new best score when an item
    improves, no label and the old best score otherwise. *)
Lemma log_records_cases split step (s : @State Frame PFrame) save_names :
  NoDup (keys (records s)) ->
  let r := log_records split step s in
  snd r = Ok save_names ->
  (exists key values average,
     In (key, values) (items (records s)) /\
     improves (self s) split key values average /\
     best_score (self (fst r)) = average /\
     average <> best_score (self s) /\
     save_names = [best_ckpt split])
  \/
  ((forall key values average,
      In (key, values) (items (records s)) ->
      ~ improves (self s) split key values average) /\
   best_score (self (fst r)) = best_score (self s) /\
   save_names = []).
Proof.
  intros Hnd r Hr.
  pose proof (scalar_loop_outcome split step (items (records s)) [] s Hnd) as Hout.
  pose proof (log_records_self split step s) as Hsame.
  apply log_records_names in Hr. fold r in Hsame.
  destruct (for_fold (items (records s)) (log_scalar split step) [] s) as [s1 out].
  cbn [fst snd] in *. subst out.
  inversion Hout as [k v avg s' out' Hin Himp Hs Ho | s' Hno Hs | ]; subst.
  - left. exists k, v, avg. rewrite Hsame, Hs. cbn [best_score with_best_score].
    destruct Ho as [[= <-]|[e [=]]].
    assert (avg <> best_score (self s)) as Hstrict.
    { destruct Himp as (_ & _ & _ & _ & Hc). eapply save_criterion_strict, Hc. }
    auto 10.
  - right. rewrite Hsame, Hs. auto.
Qed.

Lemma log_records_returns split step (s : @State Frame PFrame) :
  scalars_loggable (self s) (items (records s)) ->
  samples_aligned (records s) ->
  3 <= len (field "filename" (records s)) ->
  exists save_names, snd (log_records split step s) = Ok save_names.
Proof.
  intros Hlog Hal Hn.
  destruct (log_records_run split step s Hlog Hal Hn)
    as (s1 & names & task & evs & _ & _ & _ & Hrun).
  exists names. rewrite Hrun. reflexivity.
Qed.

(** C1: in every call to [log_records] the expert changes in its best score
    only, and the best score changes only when an item of the records is the
    primary metric (the first configured metric), the split is the first
    evaluation split and the mean of the item beats the best score in the
    configured direction: strictly greater when [metric_higher_better],
    strictly less otherwise.  When the call returns, it returns the single
    label [<split>-best.ckpt] in exactly that case, the best score then
    being that mean, and no label otherwise, so at most one label; and it
    does return on every accumulator whose fields can be averaged and that
    holds at least three aligned samples. *)
Theorem log_records_best_score split step (s : @State Frame PFrame) :
  NoDup (keys (records s)) ->
  let me := self s in
  let r := log_records split step s in
  let best' := best_score (self (fst r)) in
  let triggers (key : string) (values : list value) (average : float) : Prop :=
    metrics me !! 0%nat = Some key /\
    (exists v0, values !! 0%nat = Some v0 /\ is_number v0 = true) /\
    FloatTensor_mean values = Ok average /\
    eval_dataloaders me !! 0%nat = Some split /\
    (if metric_higher_better me then F32.gt average (best_score me)
     else F32.lt average (best_score me)) = true in
  self (fst r) = with_best_score best' me /\
  (best' <> best_score me ->
   exists key values average,
     In (key, values) (items (records s)) /\
     triggers key values average /\
     best' = average) /\
  (forall save_names, snd r = Ok save_names ->
     (exists key values average,
        In (key, values) (items (records s)) /\
        triggers key values average /\
        best' = average /\
        average <> best_score me /\
        save_names = [split +:+ "-best.ckpt"])
     \/
     ((forall key values average,
         In (key, values) (items (records s)) ->
         ~ triggers key values average) /\
      best' = best_score me /\
      save_names = [])) /\
  (forall save_names, snd r = Ok save_names -> (length save_names <= 1)%nat) /\
  (scalars_loggable me (items (records s)) ->
   samples_aligned (records s) ->
   3 <= len (field "filename" (records s)) ->
   exists save_names, snd r = Ok save_names).
Proof.
  intros Hnd me r best' triggers.
  pose proof (scalar_loop_outcome split step (items (records s)) [] s Hnd) as Hout.
  pose proof (scalar_loop_self split step (items (records s)) [] s) as Hself.
  pose proof (log_records_self split step s) as Hsame. fold r in Hsame.
  pose proof (fun names => log_records_cases split step s names Hnd) as Hcases.
  cbn zeta in Hcases. fold r in Hcases.
  subst best' triggers me.
  split; [|split; [|split; [|split]]].
  - rewrite Hsame. exact Hself.
  - intros Hchg. rewrite Hsame in *.
    destruct (for_fold (items (records s)) (log_scalar split step) [] s) as [s1 out].
    cbn [fst] in *.
    inversion Hout as [k v avg s' out' Hin Himp Hs Ho | s' Hno Hs | s' e Hs]; subst.
    + exists k, v, avg. rewrite Hs.
      split; [exact Hin|]. split; [exact Himp|]. reflexivity.
    + rewrite Hs in Hchg. contradiction.
    + rewrite Hs in Hchg. contradiction.
  - intros names Hr.
    destruct (Hcases names Hr)
      as [(k & v & a & Hin & Himp & Hbest & Hne & Hnames)|(Hno & Hbest & Hnames)].
    + left. exists k, v, a.
      split; [exact Hin|]. split; [exact Himp|]. split; [exact Hbest|].
      split; [exact Hne|exact Hnames].
    + right. split; [|split; [exact Hbest|exact Hnames]].
      intros k v a Hin Htr. exact (Hno k v a Hin Htr).
  - intros names Hr.
    destruct (Hcases names Hr) as [(k & v & a & _ & _ & _ & _ & ->)|(_ & _ & ->)];
      cbn; lia.
  - apply log_records_returns.
Qed.

(** *** The best score over two epochs *)

Lemma items_functional (its : list (string * list value)) k v v' :
  NoDup (map fst its) -> In (k, v) its -> In (k, v') its -> v = v'.
Proof.
  induction its as [|[k0 v0] its IH]; cbn; intros Hnd Hv Hv'; [contradiction|].
  apply NoDup_cons in Hnd as [Hfresh Hnd].
  assert (Hout : forall w, In (k0, w) its -> False).
  { intros w Hw. apply Hfresh, list_elem_of_In, in_map_iff. exists (k0, w). auto. }
  destruct Hv as [Hv|Hv], Hv' as [Hv'|Hv'].
  - congruence.
  - exfalso. injection Hv as -> ->. eauto.
  - exfalso. injection Hv' as -> ->. eauto.
  - auto.
Qed.

(** What a returning call does, given the item of the primary metric. *)
Lemma log_records_primary split step (s : @State Frame PFrame) key values average :
  NoDup (keys (records s)) ->
  scalars_loggable (self s) (items (records s)) ->
  samples_aligned (records s) ->
  3 <= len (field "filename" (records s)) ->
  metrics (self s) !! 0%nat = Some key ->
  eval_dataloaders (self s) !! 0%nat = Some split ->
  In (key, values) (items (records s)) ->
  (exists v0, values !! 0%nat = Some v0 /\ is_number v0 = true) ->
  FloatTensor_mean values = Ok average ->
  let r := log_records split step s in
  if save_criterion (metric_higher_better (self s)) average (best_score (self s))
  then snd r = Ok [best_ckpt split] /\ best_score (self (fst r)) = average
  else snd r = Ok [] /\ best_score (self (fst r)) = best_score (self s).
Proof.
  intros Hnd Hlog Hal Hn Hkey Hsplit Hin Hnum Hmean r.
  destruct (log_records_returns split step s Hlog Hal Hn) as [names Hnames].
  fold r in Hnames.
  destruct (log_records_cases split step s names Hnd Hnames)
    as [(k & v & a & Hin' & Himp & Hbest & _ & ->)|(Hno & Hbest & ->)];
    fold r in Hbest.
  - pose proof Himp as (Hk & _ & Hm & _ & Hc).
    assert (k = key) as -> by congruence.
    rewrite (items_functional _ _ _ _ Hnd Hin' Hin) in Hm.
    assert (a = average) as -> by congruence.
    rewrite Hc. auto.
  - destruct (save_criterion _ average _) eqn:Hc; [|auto].
    exfalso. apply (Hno key values average Hin). repeat split; auto.
Qed.

(** C3: with higher-is-better and the initial best score 0, a first call
    on the first evaluation split whose primary-metric mean is 0.75 returns
    the label [<split>-best.ckpt] and sets the best score to 0.75; a second
    call on the same split, on records whose primary-metric mean is 0.60,
    returns no label and leaves the best score at 0.75. *)
Theorem best_score_two_epochs split step step' (s : @State Frame PFrame)
    (records' : Records) key first_values second_values :
  metric_higher_better (self s) = true ->
  best_score (self s) = initial_best_score true ->
  metrics (self s) !! 0%nat = Some key ->
  eval_dataloaders (self s) !! 0%nat = Some split ->
  (* the records of the first epoch *)
  NoDup (keys (records s)) ->
  scalars_loggable (self s) (items (records s)) ->
  samples_aligned (records s) ->
  3 <= len (field "filename" (records s)) ->
  In (key, first_values) (items (records s)) ->
  (exists v0, first_values !! 0%nat = Some v0 /\ is_number v0 = true) ->
  FloatTensor_mean first_values = Ok F32.c0_75 ->
  (* the records of the second epoch *)
  NoDup (keys records') ->
  scalars_loggable (self s) (items records') ->
  samples_aligned records' ->
  3 <= len (field "filename" records') ->
  In (key, second_values) (items records') ->
  (exists v0, second_values !! 0%nat = Some v0 /\ is_number v0 = true) ->
  FloatTensor_mean second_values = Ok F32.c0_60 ->
  let first := log_records split step s in
  let second :=
    log_records split step'
      {| self := self (fst first); records := records';
         logger := logger (fst first) |} in
  snd first = Ok [best_ckpt split] /\
  best_score (self (fst first)) = F32.c0_75 /\
  snd second = Ok [] /\
  best_score (self (fst second)) = F32.c0_75.
Proof.
  intros Hhb Hbest Hkey Hsplit Hnd1 Hlog1 Hal1 Hn1 Hin1 Hnum1 Hmean1
         Hnd2 Hlog2 Hal2 Hn2 Hin2 Hnum2 Hmean2 first second.
  pose proof (log_records_primary split step s key first_values F32.c0_75
                Hnd1 Hlog1 Hal1 Hn1 Hkey Hsplit Hin1 Hnum1 Hmean1) as H1.
  rewrite Hhb, Hbest in H1. cbn in H1. destruct H1 as [Hfirst Hbest1].
  fold first in Hfirst, Hbest1.
  assert (Hself1 : self (fst first)
                   = with_best_score (best_score (self (fst first))) (self s)).
  { subst first. rewrite log_records_self. apply scalar_loop_self. }
  assert (Hcorpus : corpus (self (fst first)) = corpus (self s))
    by (rewrite Hself1; reflexivity).
  assert (Hmetrics : metrics (self (fst first)) = metrics (self s))
    by (rewrite Hself1; reflexivity).
  assert (Hsplits : eval_dataloaders (self (fst first)) = eval_dataloaders (self s))
    by (rewrite Hself1; reflexivity).
  assert (Hh : metric_higher_better (self (fst first)) = true)
    by (rewrite Hself1; exact Hhb).
  pose proof (log_records_primary split step'
                {| self := self (fst first); records := records';
                   logger := logger (fst first) |}
                key second_values F32.c0_60) as H2.
  cbn [self records] in H2.
  rewrite Hh, Hbest1, Hmetrics, Hsplits in H2.
  specialize (H2 Hnd2 (scalars_loggable_self _ _ _ Hcorpus Hmetrics Hsplits Hlog2)
                 Hal2 Hn2 Hkey Hsplit Hin2 Hnum2 Hmean2).
  cbn in H2. destruct H2 as [Hsecond Hbest2].
  auto.
Qed.


(** *** The sampled text entries *)

Lemma sample_at_is_text task split step r i ev :
  sample_at task split step r i = Some ev -> is_text ev = true.
Proof.
  unfold sample_at.
  destruct (field "filename" r !! i); [|discriminate].
  destruct (field "hypothesis" r !! i); [|discriminate].
  destruct (field "groundtruth" r !! i); [|discriminate].
  cbn. intros [= <-]. reflexivity.
Qed.

Lemma texts_of_samples task split step r idx evs :
  Forall2 (fun i ev => sample_at task split step r i = Some ev) idx evs ->
  texts evs = evs.
Proof.
  induction 1 as [|i ev idx evs Hev _ IH]; [reflexivity|].
  unfold texts in *. cbn. rewrite (sample_at_is_text _ _ _ _ _ _ Hev), IH.
  reflexivity.
Qed.

Lemma length_positions n stride :
  Z.of_nat (length (positions n stride)) = Z.max 0 ((n + stride - 1) / stride).
Proof. unfold positions. rewrite length_map, length_seq. lia. Qed.

(** C6, as the code has it: on a records accumulator with at least 5
    samples, one call to [log_records] returns and logs one text entry
    (pairing filename, hypothesis and ground truth) for each position
    0, stride, 2 stride, ... below the number of samples, where stride is
    [round(samples / 5)].  That is between 4 and 7 entries, and exactly 5
    when the number of samples is a multiple of 5. *)
Theorem log_records_text_entries split step (s : @State Frame PFrame) :
  let n := len (field "filename" (records s)) in
  let stride := round_div n 5 in
  let r := log_records split step s in
  scalars_loggable (self s) (items (records s)) ->
  samples_aligned (records s) ->
  5 <= n ->
  exists save_names task evs,
    snd r = Ok save_names /\
    _get_task_name (self s) = Ok task /\
    texts (logger (fst r)) = texts (logger s) ++ evs /\
    Forall2 (fun i ev => sample_at task split step (records s) i = Some ev)
            (positions n stride) evs /\
    Z.of_nat (length evs) = (n + stride - 1) / stride /\
    4 <= Z.of_nat (length evs) <= 7 /\
    (n mod 5 = 0 -> length evs = 5%nat).
Proof.
  intros n stride r Hlog Hal Hn.
  destruct (log_records_run split step s Hlog Hal ltac:(fold n; lia))
    as (s1 & names & task & evs & Hloop & Htask & Hevs & Hrun).
  fold n in Hevs. fold stride in Hevs.
  pose proof (scalar_loop_frame split step (items (records s)) [] s) as [_ Htexts].
  rewrite Hloop in Htexts. cbn [fst] in Htexts.
  pose proof (sample_count_bounds n Hn) as Hb. cbn zeta in Hb. fold stride in Hb.
  assert (Hlen : Z.of_nat (length evs) = (n + stride - 1) / stride).
  { rewrite <- (Forall2_length _ _ _ Hevs), length_positions. lia. }
  exists names, task, evs. subst r. rewrite Hrun. cbn [fst snd logger].
  repeat split; try assumption; try lia.
  - rewrite texts_app, Htexts, (texts_of_samples _ _ _ _ _ _ Hevs). reflexivity.
  - intros Hm. pose proof (sample_count_multiple n ltac:(lia) Hm) as H5.
    cbn zeta in H5. fold stride in H5. lia.
Qed.

(** C7, as the code has it: on a records accumulator whose scalar fields
    can be logged, the zero-stride error ([range() arg 3 must not be zero])
    ends the call exactly when fewer than 3 samples were recorded; with 3
    samples or more it is never raised, and the call returns when the
    samples are aligned. *)
Theorem log_records_zero_stride split step (s : @State Frame PFrame) :
  let n := len (field "filename" (records s)) in
  let r := log_records split step s in
  scalars_loggable (self s) (items (records s)) ->
  readable "filename" (records s) ->
  (n < 3 -> snd r = Raise ValueError) /\
  (3 <= n -> snd r <> Raise ValueError) /\
  (3 <= n -> samples_aligned (records s) -> exists save_names, snd r = Ok save_names).
Proof.
  intros n r Hlog Hread.
  destruct (scalar_loop_returns split step _ [] s Hlog) as (s1 & names & Hloop).
  pose proof (scalar_loop_frame split step (items (records s)) [] s) as [Hrec _].
  rewrite Hloop in Hrec. cbn [fst] in Hrec.
  destruct (sample_indices_run s1) as (r' & Hidx & _ & _);
    [rewrite Hrec; exact Hread|].
  rewrite Hrec in Hidx. fold n in Hidx.
  assert (H0 : 0 <= n) by (subst n; unfold len; lia).
  subst r. rewrite log_records_unfold, Hloop, Hidx.
  split; [|split].
  - intros Hlt. apply (stride_zero_iff n H0) in Hlt. rewrite Hlt.
    unfold range. cbn. reflexivity.
  - intros Hge.
    assert (Hpos : 0 < round_div n 5)
      by (rewrite round_div_5; Z.div_mod_to_equations; lia).
    rewrite (range_positions n _ Hpos).
    match goal with |- context [for_each ?idx ?b ?st] =>
      pose proof (text_loop_general split step idx st) as [_ Hne];
      destruct (for_each idx b st) as [s3 [[]|e]] end; cbn in *; congruence.
  - intros Hge Hal.
    destruct (log_records_run split step s Hlog Hal Hge)
      as (s1' & names' & task & evs & _ & _ & _ & Hrun).
    rewrite log_records_unfold, Hloop, Hidx in Hrun.
    rewrite Hrun. eauto.
Qed.


(** ** [__init__] *)

Ltac rrun := unfold mbind, result_bind, getkey; cbn beta iota.

Lemma eval_unbound {A} (scope : string -> option A) expression source :
  is_name source = true -> scope source = None ->
  eval scope expression source = Raise (NameError source).
Proof. unfold eval. intros -> ->. reflexivity. Qed.

Lemma eval_name_raises {A} (scope : string -> option A) expression source e :
  is_name source = true -> eval scope expression source = Raise e ->
  e = NameError source /\ scope source = None.
Proof.
  unfold eval. intros ->. destruct (scope source); [discriminate|].
  intros [= <-]. split; reflexivity.
Qed.

Lemma eval_expression {A} (scope : string -> option A) expression source :
  is_name source = false -> eval scope expression source = expression source.
Proof. unfold eval. intros ->. reflexivity. Qed.

Lemma init_complete upstream_dim upstream_rate runner
    (rc : Config.DownstreamRc TextRc Kwargs) me :
  __init__ upstream_dim upstream_rate runner rc = Ok me ->
  complete runner rc = true /\
  Config.metric rc = Some (metrics me) /\
  Config.metric_higher_better rc = Some (metric_higher_better me) /\
  Config.eval_dataloaders runner = Some (eval_dataloaders me) /\
  Config.corpus rc = Some (corpus me) /\
  best_score me = initial_best_score (metric_higher_better me).
Proof.
  unfold __init__, complete. rrun.
  destruct (Config.corpus rc) as [c|]; [|discriminate].
  destruct (Config.text rc) as [text|]; [|discriminate]. rrun.
  destruct (load_text_encoder text) as [tok|e]; [|discriminate].
  destruct (Config.model rc) as [modelrc|]; [|discriminate]. rrun.
  destruct (Config.project_dim modelrc) as [pd|]; [|discriminate].
  destruct (nn_Linear upstream_dim pd) as [proj|e]; [|discriminate].
  destruct (Config.select modelrc) as [sel|]; [|discriminate]. rrun.
  destruct (eval model_scope model_expression sel) as [cls|e]; [|discriminate].
  destruct (Config.blocks modelrc !! sel) as [kw|] eqn:Hkw; [|discriminate]. rrun.
  destruct (cls pd (vocab_size tok) upstream_rate kw) as [mdl|e]; [|discriminate].
  destruct (Config.zero_infinity modelrc) as [zi|]; [|discriminate].
  destruct (Config.eval_dataloaders runner) as [eds|]; [|discriminate].
  destruct (Config.metric rc) as [ms|]; [|discriminate].
  destruct (Config.metric_higher_better rc) as [hb|]; [|discriminate].
  intros [= <-]. cbn. repeat split; try (apply bool_decide_eq_true; eauto).
Qed.

Lemma init_total upstream_dim upstream_rate runner
    (rc : Config.DownstreamRc TextRc Kwargs) text modelrc project_dim proj
    model_select cls kwargs tok mdl :
  complete runner rc = true ->
  Config.text rc = Some text ->
  load_text_encoder text = Ok tok ->
  Config.model rc = Some modelrc ->
  Config.project_dim modelrc = Some project_dim ->
  nn_Linear upstream_dim project_dim = Ok proj ->
  Config.select modelrc = Some model_select ->
  eval model_scope model_expression model_select = Ok cls ->
  Config.blocks modelrc !! model_select = Some kwargs ->
  cls project_dim (vocab_size tok) upstream_rate kwargs = Ok mdl ->
  exists me, __init__ upstream_dim upstream_rate runner rc = Ok me /\
             tokenizer me = tok /\ projector me = proj /\ model me = mdl.
Proof.
  unfold __init__, complete. rrun.
  intros Hc Htext Htok Hmodel Hpd Hlin Hsel Hcls Hkw Hmdl.
  rewrite Htext, Hmodel, Hsel, Hpd in *. rrun.
  rewrite Htok, Hlin, Hcls, Hkw. rrun. rewrite Hmdl.
  destruct (Config.corpus rc) as [c|]; [|discriminate].
  destruct (Config.metric rc) as [ms|]; [|discriminate].
  destruct (Config.metric_higher_better rc) as [hb|]; [|discriminate].
  destruct (Config.eval_dataloaders runner) as [eds|]; [|discriminate].
  destruct (Config.zero_infinity modelrc) as [zi|]; [|discriminate].
  eexists. split; [reflexivity|]. repeat split.
Qed.

Lemma init_incomplete upstream_dim upstream_rate runner
    (rc : Config.DownstreamRc TextRc Kwargs) :
  complete runner rc = false ->
  exists e, __init__ upstream_dim upstream_rate runner rc = Raise e.
Proof.
  intros Hc.
  destruct (__init__ upstream_dim upstream_rate runner rc) as [me|e] eqn:E; [|eauto].
  apply init_complete in E as [Hc' _]. congruence.
Qed.

(** The constructor fails when the model text does not evaluate, with the
    error of [eval] once everything before the evaluation has succeeded. *)
Lemma init_unknown_model upstream_dim upstream_rate runner
    (rc : Config.DownstreamRc TextRc Kwargs) modelrc model_select e0 :
  Config.model rc = Some modelrc ->
  Config.select modelrc = Some model_select ->
  eval model_scope model_expression model_select = Raise e0 ->
  (exists e, __init__ upstream_dim upstream_rate runner rc = Raise e) /\
  (reaches_model_lookup upstream_dim rc modelrc ->
   __init__ upstream_dim upstream_rate runner rc = Raise e0).
Proof.
  intros Hmodel Hsel Hcls. unfold __init__. rrun. rewrite Hmodel. rrun.
  rewrite Hsel. rrun. rewrite Hcls. split.
  - destruct (Config.corpus rc); [|eauto].
    destruct (Config.text rc) as [text|]; rrun; [|eauto].
    destruct (load_text_encoder text); [|eauto].
    destruct (Config.project_dim modelrc) as [pd|]; [|eauto].
    destruct (nn_Linear upstream_dim pd); eauto.
  - intros (Hc & (text & tok & -> & Htok) & _ & (pd & proj & Hpd & Hlin)). rrun.
    rewrite Htok, Hpd, Hlin.
    destruct (Config.corpus rc); [reflexivity|congruence].
Qed.

Lemma init_missing_block upstream_dim upstream_rate runner
    (rc : Config.DownstreamRc TextRc Kwargs) modelrc model_select cls :
  Config.select modelrc = Some model_select ->
  eval model_scope model_expression model_select = Ok cls ->
  Config.blocks modelrc !! model_select = None ->
  reaches_model_lookup upstream_dim rc modelrc ->
  __init__ upstream_dim upstream_rate runner rc = Raise (KeyError model_select).
Proof.
  intros Hsel Hcls Hkw (Hc & (text & tok & Htext & Htok) & Hmodel
                        & (pd & proj & Hpd & Hlin)).
  unfold __init__. rrun. rewrite Htext, Hmodel. rrun.
  rewrite Htok, Hsel, Hpd, Hlin. rrun. rewrite Hcls, Hkw.
  destruct (Config.corpus rc); [reflexivity|congruence].
Qed.

(** C8: construction fails whenever the configured model-selection name is
    not bound to a model implementation: it always raises, and it raises
    the lookup error [NameError] on that name as soon as the name is
    resolved, that is when the reads before it succeed and the tokenizer
    and the projection layer have been built.  (A selection that is no name
    at all fails in the same place with the error of the evaluator.)  It
    fails whenever a key it reads is absent, with [KeyError] on the selected
    name for the block of hyperparameters named after the model.  With a
    known model name and a complete configuration it does not raise,
    provided the tokenizer, the projection layer and the model can be
    built. *)
Theorem construction_errors upstream_dim upstream_rate runner
    (rc : Config.DownstreamRc TextRc Kwargs) modelrc model_select :
  Config.model rc = Some modelrc ->
  Config.select modelrc = Some model_select ->
  (is_name model_select = true -> model_scope model_select = None ->
   (exists e, __init__ upstream_dim upstream_rate runner rc = Raise e) /\
   (reaches_model_lookup upstream_dim rc modelrc ->
    __init__ upstream_dim upstream_rate runner rc = Raise (NameError model_select))) /\
  (forall e0,
     is_name model_select = false -> model_expression model_select = Raise e0 ->
     (exists e, __init__ upstream_dim upstream_rate runner rc = Raise e) /\
     (reaches_model_lookup upstream_dim rc modelrc ->
      __init__ upstream_dim upstream_rate runner rc = Raise e0)) /\
  (complete runner rc = false ->
   exists e, __init__ upstream_dim upstream_rate runner rc = Raise e) /\
  (forall cls,
     eval model_scope model_expression model_select = Ok cls ->
     Config.blocks modelrc !! model_select = None ->
     reaches_model_lookup upstream_dim rc modelrc ->
     __init__ upstream_dim upstream_rate runner rc = Raise (KeyError model_select)) /\
  (forall cls text tok project_dim proj kwargs mdl,
     is_name model_select = true ->
     model_scope model_select = Some cls ->
     complete runner rc = true ->
     Config.text rc = Some text ->
     load_text_encoder text = Ok tok ->
     Config.project_dim modelrc = Some project_dim ->
     nn_Linear upstream_dim project_dim = Ok proj ->
     Config.blocks modelrc !! model_select = Some kwargs ->
     cls project_dim (vocab_size tok) upstream_rate kwargs = Ok mdl ->
     exists me, __init__ upstream_dim upstream_rate runner rc = Ok me /\
                tokenizer me = tok /\ projector me = proj /\ model me = mdl).
Proof.
  intros Hmodel Hsel.
  split; [|split; [|split; [|split]]].
  - intros Hname Hnone.
    apply (init_unknown_model _ _ _ _ modelrc model_select); try assumption.
    apply eval_unbound; assumption.
  - intros e0 Hname Hexpr.
    apply (init_unknown_model _ _ _ _ modelrc model_select); try assumption.
    rewrite eval_expression by exact Hname. exact Hexpr.
  - apply init_incomplete.
  - intros cls Hcls Hkw Hreach. eapply init_missing_block; eauto.
  - intros cls text tok pd proj kwargs mdl Hname Hcls Hc Htext Htok Hpd Hlin Hkw Hmdl.
    apply (init_total upstream_dim upstream_rate runner rc text modelrc pd proj
             model_select cls kwargs tok mdl); try assumption.
    unfold eval. rewrite Hname, Hcls. reflexivity.
Qed.


(** C2, as the code has it: at construction the best score is 0 when
    [metric_higher_better] is true and 2^31 when it is false; a first
    evaluation mean on the first evaluation split then triggers a save when
    it is strictly greater than 0, respectively strictly less than 2^31, and
    only then. *)
Theorem initial_best_score_bound upstream_dim upstream_rate runner
    (rc : Config.DownstreamRc TextRc Kwargs) me :
  __init__ upstream_dim upstream_rate runner rc = Ok me ->
  best_score me = (if metric_higher_better me then F32.zero else F32.of_Z (2 ^ 31)) /\
  forall split step (records : Records) (lg : list event) key values average,
    NoDup (keys records) ->
    scalars_loggable me (items records) ->
    samples_aligned records ->
    3 <= len (field "filename" records) ->
    metrics me !! 0%nat = Some key ->
    eval_dataloaders me !! 0%nat = Some split ->
    In (key, values) (items records) ->
    (exists v0, values !! 0%nat = Some v0 /\ is_number v0 = true) ->
    FloatTensor_mean values = Ok average ->
    let r := log_records split step {| self := me; records := records; logger := lg |} in
    let beats :=
      if metric_higher_better me then F32.gt average F32.zero
      else F32.lt average (F32.of_Z (2 ^ 31)) in
    snd r = Ok (if beats then [best_ckpt split] else []) /\
    best_score (self (fst r)) = (if beats then average else best_score me).
Proof.
  intros Hinit. apply init_complete in Hinit as (_ & _ & _ & _ & _ & Hbest).
  assert (Hval : best_score me =
                 if metric_higher_better me then F32.zero else F32.of_Z (2 ^ 31)).
  { rewrite Hbest. destruct (metric_higher_better me); reflexivity. }
  split; [exact Hval|].
  intros split step records lg key values average Hnd Hlog Hal Hn Hkey Hsplit Hin
         Hnum Hmean r beats.
  pose proof (log_records_primary split step
                {| self := me; records := records; logger := lg |}
                key values average Hnd Hlog Hal Hn Hkey Hsplit Hin Hnum Hmean) as Hp.
  cbn [self] in Hp. fold r in Hp.
  assert (Hb : save_criterion (metric_higher_better me) average (best_score me) = beats).
  { subst beats. rewrite Hval. unfold save_criterion.
    destruct (metric_higher_better me); reflexivity. }
  rewrite Hb in Hp. destruct beats; exact Hp.
Qed.


(** ** [forward] *)

(** *** Appending to the records *)

Lemma assoc_alter_same {A} (f : A -> A) k (l : list (string * A)) :
  assoc k (assoc_alter f k l) = f <$> assoc k l.
Proof.
  induction l as [|[k' a] l IH]; cbn; [reflexivity|].
  destruct (String.eqb k k') eqn:E; cbn; rewrite E; [reflexivity | exact IH].
Qed.

Lemma assoc_alter_other {A} (f : A -> A) k k' (l : list (string * A)) :
  k' <> k -> assoc k' (assoc_alter f k l) = assoc k' l.
Proof.
  intros Hne. induction l as [|[k2 a] l IH]; cbn; [reflexivity|].
  destruct (String.eqb_spec k k2) as [<-|Hne2]; cbn.
  - destruct (String.eqb_spec k' k); [contradiction | reflexivity].
  - destruct (String.eqb k' k2); [reflexivity | exact IH].
Qed.

Lemma field_push_same k v r :
  readable k r -> field k (push k v r) = field k r ++ [v].
Proof.
  intros Hr. unfold push.
  destruct (get_readable k r Hr) as (r' & -> & _ & Hk & _ & _). cbn [fst].
  unfold append, modify, field. cbn. rewrite assoc_alter_same, Hk. reflexivity.
Qed.

Lemma assoc_push_other k k' v r :
  k' <> k -> readable k r -> assoc k' (items (push k v r)) = assoc k' (items r).
Proof.
  intros Hne Hr. unfold push.
  destruct (get_readable k r Hr) as (r' & -> & _ & _ & _ & Ho). cbn [fst].
  unfold append, modify. cbn. rewrite assoc_alter_other by exact Hne. apply Ho, Hne.
Qed.

Lemma field_push_other k k' v r :
  k' <> k -> readable k r -> field k' (push k v r) = field k' r.
Proof. intros Hne Hr. unfold field. rewrite assoc_push_other; auto. Qed.

Lemma default_factory_push k v r :
  readable k r -> default_factory (push k v r) = default_factory r.
Proof.
  intros Hr. unfold push.
  destruct (get_readable k r Hr) as (r' & -> & Hd & _). exact Hd.
Qed.

Lemma readable_push k k' v r :
  readable k r -> readable k' r -> readable k' (push k v r).
Proof.
  intros Hr [Hd|Hp].
  - left. rewrite default_factory_push; assumption.
  - right. destruct (String.eqb_spec k' k) as [->|Hne].
    + pose proof (field_push_same k v r Hr) as Hf. unfold field in Hf.
      destruct (assoc k (items (push k v r))); [discriminate|].
      cbn in Hf. destruct (default [] (assoc k (items r))); discriminate.
    + rewrite assoc_push_other; assumption.
Qed.

(** [records[k].append(v)] with an argument that evaluates without error. *)
Lemma get_run k (s : @State Frame PFrame) :
  readable k (records s) ->
  on_records (Rec.get k) s =
    ({| self := self s; records := fst (Rec.get k (records s));
        logger := logger s |}, Ok (field k (records s))).
Proof.
  intros Hr. unfold on_records.
  destruct (get_readable k _ Hr) as (r' & -> & _). reflexivity.
Qed.

Lemma append_run k v (s : @State Frame PFrame) :
  on_records (Rec.append k v) s =
    ({| self := self s; records := fst (Rec.append k v (records s));
        logger := logger s |}, Ok tt).
Proof. reflexivity. Qed.

Lemma push_run k v (s : @State Frame PFrame) :
  readable k (records s) ->
  (on_records (Rec.get k) ;; on_records (Rec.append k v)) s =
    ({| self := self s; records := push k v (records s); logger := logger s |},
     Ok tt).
Proof. intros Hr. rewrite run_bind, get_run by exact Hr. reflexivity. Qed.


(** *** The loop over the metrics *)

Lemma record_metric_run lp lpl hyp gt m v (s : @State Frame PFrame) :
  readable m (records s) ->
  metric_value lp lpl hyp gt m = Ok v ->
  record_metric lp lpl hyp gt m s =
    ({| self := self s; records := push m v (records s); logger := logger s |},
     Ok tt).
Proof.
  intros Hr Hv. unfold record_metric, metric_value in *.
  rewrite run_bind, get_run by exact Hr.
  unfold mbind at 1, result_bind in Hv. rewrite run_bind. unfold lift at 1.
  destruct (eval metric_scope metric_expression m) as [f|e]; [|discriminate].
  rewrite run_bind. unfold lift at 1. rewrite Hv. reflexivity.
Qed.

Lemma with_metrics_cons lp lpl hyp gt r m ms :
  with_metrics lp lpl hyp gt r (m :: ms) =
  with_metrics lp lpl hyp gt
    match metric_value lp lpl hyp gt m with
    | Ok v => push m v r
    | Raise _ => r
    end ms.
Proof. reflexivity. Qed.

Lemma metrics_loop_run lp lpl hyp gt ms : forall (s : @State Frame PFrame),
  Forall (fun m => readable m (records s)) ms ->
  Forall (fun m => is_ok (metric_value lp lpl hyp gt m) = true) ms ->
  for_each ms (record_metric lp lpl hyp gt) s =
    ({| self := self s; records := with_metrics lp lpl hyp gt (records s) ms;
        logger := logger s |}, Ok tt).
Proof.
  induction ms as [|m ms IH]; intros s Hread Hok; cbn [for_each].
  - destruct s; reflexivity.
  - apply Forall_cons in Hread as [Hr Hread]. apply Forall_cons in Hok as [Hm Hok].
    destruct (metric_value lp lpl hyp gt m) as [v|e] eqn:Hv; [|discriminate].
    rewrite run_bind, (record_metric_run _ _ _ _ _ v) by assumption.
    rewrite IH; cbn [self records logger].
    + rewrite with_metrics_cons, Hv. reflexivity.
    + eapply Forall_impl; [exact Hread|]. intros k Hk. apply readable_push; assumption.
    + exact Hok.
Qed.

Lemma with_metrics_readable lp lpl hyp gt ms : forall r k,
  Forall (fun m => readable m r) ms -> readable k r ->
  readable k (with_metrics lp lpl hyp gt r ms).
Proof.
  induction ms as [|m ms IH]; intros r k Hread Hk; [exact Hk|].
  apply Forall_cons in Hread as [Hr Hread].
  rewrite with_metrics_cons.
  destruct (metric_value lp lpl hyp gt m) as [v|e]; [|apply IH; assumption].
  apply IH; [|apply readable_push; assumption].
  eapply Forall_impl; [exact Hread|]. intros k' Hk'. apply readable_push; assumption.
Qed.

Lemma with_metrics_other lp lpl hyp gt ms : forall r k,
  Forall (fun m => readable m r) ms -> ~ In k ms ->
  assoc k (items (with_metrics lp lpl hyp gt r ms)) = assoc k (items r).
Proof.
  induction ms as [|m ms IH]; intros r k Hread Hk; [reflexivity|].
  apply Forall_cons in Hread as [Hr Hread].
  rewrite with_metrics_cons.
  assert (k <> m /\ ~ In k ms) as [Hne Hk'] by (cbn in Hk; split; intros ?; apply Hk; auto).
  destruct (metric_value lp lpl hyp gt m) as [v|e]; [|apply IH; assumption].
  rewrite IH; [apply assoc_push_other; assumption| |exact Hk'].
  eapply Forall_impl; [exact Hread|]. intros k' Hk2. apply readable_push; assumption.
Qed.

Lemma with_metrics_in lp lpl hyp gt ms : forall r k v,
  Forall (fun m => readable m r) ms -> NoDup ms -> In k ms ->
  metric_value lp lpl hyp gt k = Ok v ->
  field k (with_metrics lp lpl hyp gt r ms) = field k r ++ [v].
Proof.
  induction ms as [|m ms IH]; intros r k v Hread Hnd Hin Hv; [destruct Hin|].
  apply Forall_cons in Hread as [Hr Hread]. apply NoDup_cons in Hnd as [Hfresh Hnd].
  rewrite with_metrics_cons.
  assert (Hread' : forall w, Forall (fun m0 => readable m0 (push m w r)) ms).
  { intros w. eapply Forall_impl; [exact Hread|]. intros k' Hk'.
    apply readable_push; assumption. }
  destruct Hin as [->|Hin].
  - rewrite Hv. unfold field.
    rewrite with_metrics_other; [|apply Hread'|rewrite <- list_elem_of_In; exact Hfresh].
    apply field_push_same. exact Hr.
  - assert (k <> m) by (intros ->; apply Hfresh, list_elem_of_In, Hin).
    destruct (metric_value lp lpl hyp gt m) as [w|e].
    + rewrite (IH _ k v); auto. rewrite field_push_other; auto.
    + apply IH; auto.
Qed.


(** *** One batch *)

Lemma collate_nonempty pad (features : list (list Frame)) (labels : list (list Z)) :
  features <> [] -> labels <> [] ->
  collate pad features labels =
    Ok {| features_len := map len features;
          labels_len := map len labels;
          padded_features := right_pad zero_frame features;
          padded_labels := right_pad pad labels |}.
Proof.
  intros Hf Hl. unfold collate, pad_sequence.
  destruct features; [contradiction|]. destruct labels; [contradiction|].
  reflexivity.
Qed.

(** The state a batch leaves behind when nothing raises. *)
Lemma forward_run split (features : list (list Frame)) labels filenames
    (s : @State Frame PFrame) lp lpl loss h0 g0 f0 :
  let me := self s in
  let tok := tokenizer me in
  let hyp := hypothesis_of tok lp in
  let gt := groundtruth_of tok (right_pad (pad_idx tok) labels) in
  features <> [] -> labels <> [] ->
  model me (map (map (projector me)) (right_pad zero_frame features))
        (map len features) = Ok (lp, lpl) ->
  objective me (transpose lp) (right_pad (pad_idx tok) labels) lpl
            (map len labels) = Ok loss ->
  Forall (fun m => is_ok (metric_value lp lpl hyp gt m) = true) (metrics me) ->
  hyp !! 0%nat = Some h0 -> gt !! 0%nat = Some g0 -> filenames !! 0%nat = Some f0 ->
  Forall (fun k => readable k (records s))
         ("loss" :: metrics me ++ ["hypothesis"; "groundtruth"; "filename"]) ->
  forward split features labels filenames s =
    ({| self := me;
        records :=
          push "filename" (VStr f0)
            (push "groundtruth" (VStr g0)
               (push "hypothesis" (VStr h0)
                  (with_metrics lp lpl hyp gt
                     (push "loss" (VFloat loss) (records s)) (metrics me))));
        logger := logger s |}, Ok loss).
Proof.
  intros me tok hyp gt Hf Hl Hmodel Hloss Hms Hh Hg Hfn Hread.
  apply Forall_cons in Hread as [Rloss Hread].
  apply Forall_app in Hread as [Rms Hread].
  apply Forall_cons in Hread as [Rh Hread].
  apply Forall_cons in Hread as [Rg Hread].
  apply Forall_cons in Hread as [Rf _].
  unfold forward. rewrite run_bind. unfold gets at 1. fold me.
  rewrite run_bind. unfold lift at 1.
  destruct features as [|f1 features'] eqn:Ef; [contradiction|].
  rewrite getitem_0. rewrite <- Ef in *.
  rewrite run_bind. unfold lift at 1. fold tok.
  rewrite (collate_nonempty _ _ _ Hf Hl). cbn [padded_features features_len padded_labels labels_len].
  rewrite run_bind. unfold lift at 1. rewrite Hmodel.
  rewrite run_bind. unfold lift at 1. rewrite Hloss.
  rewrite run_bind, get_run by exact Rloss.
  rewrite run_bind, append_run. cbn [self records logger].
  fold (push "loss" (VFloat loss) (records s)).
  fold hyp gt.
  set (r1 := push "loss" (VFloat loss) (records s)).
  assert (R1 : forall k, readable k (records s) -> readable k r1)
    by (intros k Hk; apply readable_push; assumption).
  rewrite run_bind, metrics_loop_run; cbn [self records logger]; [|
    eapply Forall_impl; [exact Rms|exact R1] | exact Hms].
  set (r2 := with_metrics lp lpl hyp gt r1 (metrics me)).
  assert (R2 : forall k, readable k (records s) -> readable k r2).
  { intros k Hk. apply with_metrics_readable; [|apply R1, Hk].
    eapply Forall_impl; [exact Rms|exact R1]. }
  rewrite run_bind, get_run by (apply R2, Rh). cbn [self records logger].
  rewrite run_bind. unfold lift at 1.
  replace 0 with (Z.of_nat 0) by reflexivity.
  rewrite (getitem_lookup _ _ _ Hh).
  rewrite run_bind, append_run. cbn [self records logger].
  fold (push "hypothesis" (VStr h0) r2).
  set (r3 := push "hypothesis" (VStr h0) r2).
  assert (R3 : forall k, readable k (records s) -> readable k r3)
    by (intros k Hk; apply readable_push; auto).
  rewrite run_bind, get_run by (apply R3, Rg). cbn [self records logger].
  rewrite run_bind. unfold lift at 1. rewrite (getitem_lookup _ _ _ Hg).
  rewrite run_bind, append_run. cbn [self records logger].
  fold (push "groundtruth" (VStr g0) r3).
  set (r4 := push "groundtruth" (VStr g0) r3).
  assert (R4 : forall k, readable k (records s) -> readable k r4)
    by (intros k Hk; apply readable_push; auto).
  rewrite run_bind, get_run by (apply R4, Rf). cbn [self records logger].
  rewrite run_bind. unfold lift at 1. rewrite (getitem_lookup _ _ _ Hfn).
  rewrite run_bind, append_run. cbn [self records logger].
  reflexivity.
Qed.


Lemma field_with_metrics_other lp lpl hyp gt ms r k :
  Forall (fun m => readable m r) ms -> ~ In k ms ->
  field k (with_metrics lp lpl hyp gt r ms) = field k r.
Proof. intros Hr Hk. unfold field. rewrite with_metrics_other; auto. Qed.

(** What a batch appends to the records when nothing raises. *)
Lemma forward_fields split (features : list (list Frame)) labels filenames
    (s : @State Frame PFrame) lp lpl loss :
  let me := self s in
  let tok := tokenizer me in
  let hyp := hypothesis_of tok lp in
  let gt := groundtruth_of tok (right_pad (pad_idx tok) labels) in
  let names := "loss" :: metrics me ++ ["hypothesis"; "groundtruth"; "filename"] in
  features <> [] -> labels <> [] -> filenames <> [] -> lp <> [] ->
  model me (map (map (projector me)) (right_pad zero_frame features))
        (map len features) = Ok (lp, lpl) ->
  objective me (transpose lp) (right_pad (pad_idx tok) labels) lpl
            (map len labels) = Ok loss ->
  Forall (fun m => is_ok (metric_value lp lpl hyp gt m) = true) (metrics me) ->
  NoDup names ->
  Forall (fun k => readable k (records s)) names ->
  let r := forward split features labels filenames s in
  snd r = Ok loss /\
  self (fst r) = self s /\
  logger (fst r) = logger s /\
  field "loss" (records (fst r)) = field "loss" (records s) ++ [VFloat loss] /\
  (forall m, In m (metrics me) ->
     exists v, metric_value lp lpl hyp gt m = Ok v /\
               field m (records (fst r)) = field m (records s) ++ [v]) /\
  (exists h0 g0 f0,
     hyp !! 0%nat = Some h0 /\ gt !! 0%nat = Some g0 /\ filenames !! 0%nat = Some f0 /\
     field "hypothesis" (records (fst r)) = field "hypothesis" (records s) ++ [VStr h0] /\
     field "groundtruth" (records (fst r)) = field "groundtruth" (records s) ++ [VStr g0] /\
     field "filename" (records (fst r)) = field "filename" (records s) ++ [VStr f0]) /\
  (forall k, ~ In k names ->
     assoc k (items (records (fst r))) = assoc k (items (records s))).
Proof.
  intros me tok hyp gt names Hf Hl Hfn Hlp Hmodel Hloss Hms Hnd Hread r.
  destruct (lookup_lt_is_Some_2 hyp 0) as [h0 Hh0].
  { subst hyp. unfold hypothesis_of, pred_tokens. rewrite !length_map.
    destruct lp; [contradiction|cbn; lia]. }
  destruct (lookup_lt_is_Some_2 gt 0) as [g0 Hg0].
  { subst gt. unfold groundtruth_of, right_pad. rewrite !length_map.
    destruct labels; [contradiction|cbn; lia]. }
  destruct (lookup_lt_is_Some_2 filenames 0) as [f0 Hf0];
    [destruct filenames; [contradiction|cbn; lia]|].
  subst r.
  rewrite (forward_run split features labels filenames s lp lpl loss h0 g0 f0
             Hf Hl Hmodel Hloss Hms Hh0 Hg0 Hf0 Hread).
  cbn [fst snd self records logger]. fold me tok hyp gt.
  (* what the distinctness of the names gives *)
  subst names. apply NoDup_cons in Hnd as [Hloss_fresh Hnd].
  apply NoDup_app in Hnd as (Hnd_ms & Hdisj & _).
  assert (Hlm : ~ In "loss" (metrics me)).
  { intros Hin. apply Hloss_fresh, elem_of_app. left. apply list_elem_of_In, Hin. }
  assert (Hfixed : forall m, In m (metrics me) ->
            m <> "loss" /\ m <> "hypothesis" /\ m <> "groundtruth" /\ m <> "filename").
  { intros m Hin. repeat split; intros ->.
    - contradiction.
    - apply (Hdisj "hypothesis"); [apply list_elem_of_In, Hin | set_solver].
    - apply (Hdisj "groundtruth"); [apply list_elem_of_In, Hin | set_solver].
    - apply (Hdisj "filename"); [apply list_elem_of_In, Hin | set_solver]. }
  assert (Hnot : forall k, (k = "hypothesis" \/ k = "groundtruth" \/ k = "filename") ->
            ~ In k (metrics me)).
  { intros k Hk Hin. destruct (Hfixed k Hin) as (_ & ? & ? & ?).
    destruct Hk as [ -> | [ -> | -> ] ]; contradiction. }
  (* readability along the chain of appends *)
  apply Forall_cons in Hread as [Rloss Hread].
  apply Forall_app in Hread as [Rms Hread].
  apply Forall_cons in Hread as [Rh Hread].
  apply Forall_cons in Hread as [Rg Hread].
  apply Forall_cons in Hread as [Rf _].
  set (r1 := push "loss" (VFloat loss) (records s)).
  assert (R1 : forall k, readable k (records s) -> readable k r1)
    by (intros k Hk; apply readable_push; assumption).
  assert (Rms1 : Forall (fun m => readable m r1) (metrics me))
    by (eapply Forall_impl; [exact Rms|exact R1]).
  set (r2 := with_metrics lp lpl hyp gt r1 (metrics me)).
  assert (R2 : forall k, readable k (records s) -> readable k r2)
    by (intros k Hk; apply with_metrics_readable; auto).
  set (r3 := push "hypothesis" (VStr h0) r2).
  assert (R3 : forall k, readable k (records s) -> readable k r3)
    by (intros k Hk; apply readable_push; auto).
  set (r4 := push "groundtruth" (VStr g0) r3).
  assert (R4 : forall k, readable k (records s) -> readable k r4)
    by (intros k Hk; apply readable_push; auto).
  subst r4; subst r3; subst r2; subst r1.
  split; [reflexivity|]. split; [reflexivity|]. split; [reflexivity|].
  split; [|split; [|split]].
  - rewrite !field_push_other by (auto || discriminate).
    rewrite field_with_metrics_other by assumption.
    apply field_push_same. exact Rloss.
  - intros m Hin. destruct (Hfixed m Hin) as (? & ? & ? & ?).
    assert (Hok : is_ok (metric_value lp lpl hyp gt m) = true).
    { eapply Forall_forall in Hms; [exact Hms|apply list_elem_of_In, Hin]. }
    destruct (metric_value lp lpl hyp gt m) as [v|e] eqn:Hv; [|discriminate].
    exists v. split; [reflexivity|].
    rewrite !field_push_other by auto.
    rewrite (with_metrics_in _ _ _ _ _ _ m v) by assumption.
    rewrite field_push_other by auto. reflexivity.
  - exists h0, g0, f0. repeat split; try assumption.
    + rewrite !field_push_other by (auto || discriminate).
      rewrite field_push_same by auto.
      rewrite field_with_metrics_other by auto.
      rewrite field_push_other by (auto || discriminate). reflexivity.
    + rewrite !field_push_other by (auto || discriminate).
      rewrite field_push_same by auto.
      rewrite field_push_other by (auto || discriminate).
      rewrite field_with_metrics_other by auto.
      rewrite field_push_other by (auto || discriminate). reflexivity.
    + rewrite field_push_same by auto.
      rewrite !field_push_other by (auto || discriminate).
      rewrite field_with_metrics_other by auto.
      rewrite field_push_other by (auto || discriminate). reflexivity.
  - intros k Hk.
    assert (Hk' : k <> "loss" /\ ~ In k (metrics me) /\ k <> "hypothesis" /\
                  k <> "groundtruth" /\ k <> "filename").
    { repeat split; intros Hc; apply Hk; try subst k; cbn; auto.
      - right. apply in_or_app. auto.
      - right. apply in_or_app. right. cbn. auto.
      - right. apply in_or_app. right. cbn. auto.
      - right. apply in_or_app. right. cbn. auto. }
    destruct Hk' as (? & ? & ? & ? & ?).
    rewrite !assoc_push_other by auto.
    rewrite with_metrics_other by auto.
    rewrite assoc_push_other by auto. reflexivity.
Qed.


(** C4: for a batch of N >= 1 utterances whose model, loss and metrics
    return, one call to [forward] returns the loss and appends exactly one
    value to [records['loss']] (the loss), exactly one value to
    [records[m]] for each configured metric [m] (its value on the batch),
    and exactly one entry each, taken from the first utterance, to
    [records['hypothesis']], [records['groundtruth']] and
    [records['filename']]; no other key of the records is modified, nor is
    the expert or the logger.  The metric names are distinct from one
    another and from the four fixed keys. *)
Theorem forward_appends split (features : list (list Frame)) labels filenames
    (s : @State Frame PFrame) (N : nat) lp lpl loss :
  let me := self s in
  let tok := tokenizer me in
  let hyp := hypothesis_of tok lp in
  let gt := groundtruth_of tok (right_pad (pad_idx tok) labels) in
  let names := "loss" :: metrics me ++ ["hypothesis"; "groundtruth"; "filename"] in
  (1 <= N)%nat ->
  length features = N -> length labels = N -> length filenames = N ->
  model me (map (map (projector me)) (right_pad zero_frame features))
        (map len features) = Ok (lp, lpl) ->
  length lp = N ->
  objective me (transpose lp) (right_pad (pad_idx tok) labels) lpl
            (map len labels) = Ok loss ->
  Forall (fun m => is_ok (metric_value lp lpl hyp gt m) = true) (metrics me) ->
  NoDup names ->
  Forall (fun k => readable k (records s)) names ->
  let r := forward split features labels filenames s in
  snd r = Ok loss /\
  self (fst r) = self s /\
  logger (fst r) = logger s /\
  field "loss" (records (fst r)) = field "loss" (records s) ++ [VFloat loss] /\
  (forall m, In m (metrics me) ->
     exists v, metric_value lp lpl hyp gt m = Ok v /\
               field m (records (fst r)) = field m (records s) ++ [v]) /\
  (exists h0 g0 f0,
     hyp !! 0%nat = Some h0 /\ gt !! 0%nat = Some g0 /\ filenames !! 0%nat = Some f0 /\
     field "hypothesis" (records (fst r)) = field "hypothesis" (records s) ++ [VStr h0] /\
     field "groundtruth" (records (fst r)) = field "groundtruth" (records s) ++ [VStr g0] /\
     field "filename" (records (fst r)) = field "filename" (records s) ++ [VStr f0]) /\
  (forall k, ~ In k names ->
     assoc k (items (records (fst r))) = assoc k (items (records s))).
Proof.
  intros me tok hyp gt names HN Hnf Hnl Hnn Hmodel Hnlp Hloss Hms Hnd Hread r.
  apply forward_fields; try assumption.
  - intros ->. cbn in Hnf. lia.
  - intros ->. cbn in Hnl. lia.
  - intros ->. cbn in Hnn. lia.
  - intros ->. cbn in Hnlp. lia.
Qed.

(** *** Padding and lengths *)

Lemma length_le_max_len {A} (sequences : list (list A)) row :
  In row sequences -> (length row <= max_len sequences)%nat.
Proof.
  unfold max_len. induction sequences as [|s sequences IH]; cbn; [contradiction|].
  intros [->|Hin]; [lia|]. specialize (IH Hin). lia.
Qed.

Lemma right_pad_rows {A} (v : A) (sequences : list (list A)) :
  rows_of_length (Z.of_nat (max_len sequences)) (right_pad v sequences).
Proof.
  unfold rows_of_length, right_pad. apply Forall_forall. intros row Hrow.
  apply list_elem_of_In, in_map_iff in Hrow as (s & <- & Hs).
  pose proof (length_le_max_len _ _ Hs).
  unfold len. rewrite length_app, length_replicate. lia.
Qed.

Lemma right_pad_lookup {A} (v : A) (sequences : list (list A)) i row :
  sequences !! i = Some row ->
  right_pad v sequences !! i =
    Some (row ++ replicate (max_len sequences - length row) v).
Proof. intros Hrow. unfold right_pad. rewrite list_lookup_fmap, Hrow. reflexivity. Qed.








(** *** Metrics that do not resolve *)

Lemma readable_dec k r : readable k r \/ ~ readable k r.
Proof.
  unfold readable. destruct (default_factory r); [auto|].
  destruct (assoc k (items r)); [left; right; discriminate|].
  right. intros [|]; congruence.
Qed.

(** One metric only ever extends the fields of the records. *)
Lemma record_metric_grows lp lpl hyp gt m (s : @State Frame PFrame) k :
  let r := record_metric lp lpl hyp gt m s in
  exists more, field k (records (fst r)) = field k (records s) ++ more.
Proof.
  unfold record_metric. rewrite run_bind.
  destruct (readable_dec m (records s)) as [Hr|Hr].
  2:{ unfold on_records at 1. rewrite (get_unreadable _ _ Hr). cbn.
      exists []. rewrite app_nil_r. reflexivity. }
  rewrite get_run by exact Hr.
  destruct (get_readable m _ Hr) as (r1 & E & _ & Hm & Hsame & _).
  rewrite E. cbn [fst].
  rewrite run_bind. unfold lift at 1.
  destruct (eval metric_scope metric_expression m) as [f|e];
    [|cbn; exists []; rewrite app_nil_r; apply Hsame].
  rewrite run_bind. unfold lift at 1.
  destruct (f lp lpl hyp gt) as [v|e];
    [|cbn; exists []; rewrite app_nil_r; apply Hsame].
  rewrite append_run. cbn [fst records].
  assert (Hr1 : readable m r1) by (right; congruence).
  assert (Hpush : fst (Rec.append m v r1) = push m v r1).
  { unfold push. rewrite (get_present _ _ _ Hm). reflexivity. }
  rewrite Hpush.
  destruct (String.eqb_spec k m) as [->|Hne].
  - exists [v]. rewrite field_push_same by exact Hr1. rewrite Hsame. reflexivity.
  - exists []. rewrite field_push_other by assumption. rewrite app_nil_r. apply Hsame.
Qed.

Lemma metrics_loop_grows lp lpl hyp gt ms k : forall (s : @State Frame PFrame),
  let r := for_each ms (record_metric lp lpl hyp gt) s in
  exists more, field k (records (fst r)) = field k (records s) ++ more.
Proof.
  induction ms as [|m ms IH]; intros s; cbn [for_each].
  - exists []. rewrite app_nil_r. reflexivity.
  - rewrite run_bind.
    destruct (record_metric_grows lp lpl hyp gt m s k) as [more1 H1].
    destruct (record_metric lp lpl hyp gt m s) as [s1 [[]|e]]; cbn [fst] in *.
    + destruct (IH s1) as [more2 H2]. exists (more1 ++ more2).
      rewrite H2, H1, app_assoc. reflexivity.
    + exists more1. exact H1.
Qed.

Lemma record_metric_unresolved lp lpl hyp gt m (s : @State Frame PFrame) e0 :
  eval metric_scope metric_expression m = Raise e0 ->
  exists e, snd (record_metric lp lpl hyp gt m s) = Raise e /\
            (readable m (records s) -> e = e0).
Proof.
  intros Hm. unfold record_metric. rewrite run_bind.
  destruct (readable_dec m (records s)) as [Hr|Hr].
  - rewrite get_run by exact Hr. rewrite run_bind. unfold lift at 1.
    rewrite Hm. cbn. eauto.
  - unfold on_records at 1. rewrite (get_unreadable _ _ Hr). cbn.
    eexists. split; [reflexivity|]. contradiction.
Qed.

Lemma metrics_loop_raises lp lpl hyp gt ms m e0 : forall (s : @State Frame PFrame),
  In m ms -> eval metric_scope metric_expression m = Raise e0 ->
  exists e, snd (for_each ms (record_metric lp lpl hyp gt) s) = Raise e.
Proof.
  induction ms as [|m' ms IH]; intros s Hin Hm; [destruct Hin|].
  cbn [for_each]. rewrite run_bind.
  destruct (record_metric lp lpl hyp gt m' s) as [s1 [[]|e]] eqn:E; [|cbn; eauto].
  destruct Hin as [->|Hin]; [|apply IH; assumption].
  destruct (record_metric_unresolved lp lpl hyp gt m s e0 Hm) as (e & He & _).
  rewrite E in He. discriminate.
Qed.

Lemma metrics_loop_first_unresolved lp lpl hyp gt pre m post e0 :
  forall (s : @State Frame PFrame),
  Forall (fun k => readable k (records s)) (pre ++ [m]) ->
  Forall (fun k => is_ok (metric_value lp lpl hyp gt k) = true) pre ->
  eval metric_scope metric_expression m = Raise e0 ->
  snd (for_each (pre ++ m :: post) (record_metric lp lpl hyp gt) s) =
    Raise e0.
Proof.
  induction pre as [|k pre IH]; intros s Hread Hok Hm; cbn [app for_each];
    rewrite run_bind.
  - apply Forall_cons in Hread as [Hr _].
    destruct (record_metric_unresolved lp lpl hyp gt m s e0 Hm) as (e & He & Hname).
    destruct (record_metric lp lpl hyp gt m s) as [s1 [[]|e']]; cbn in *;
      [discriminate|]. rewrite <- (Hname Hr). congruence.
  - cbn [app] in Hread. apply Forall_cons in Hread as [Hr Hread].
    apply Forall_cons in Hok as [Hk Hok].
    destruct (metric_value lp lpl hyp gt k) as [v|e] eqn:Hv; [|discriminate].
    rewrite (record_metric_run _ _ _ _ _ v) by assumption.
    apply IH; cbn [records]; [|assumption|assumption].
    eapply Forall_impl; [exact Hread|]. intros k' Hk'. apply readable_push; assumption.
Qed.


(** *** Greedy decoding *)

Lemma pred_tokens_rows (lp : LogProbs) T :
  rows_of_length T lp -> rows_of_length T (pred_tokens lp).
Proof.
  unfold rows_of_length, pred_tokens. intros Hrows.
  apply Forall_fmap. eapply Forall_impl; [exact Hrows|].
  intros row Hrow. cbn. unfold len in *. rewrite length_map. exact Hrow.
Qed.

(** C10: in [forward] the greedy hypothesis of every utterance is decoded
    from a full row of the padded output: every token sequence handed to
    the repeat-collapsing [decode] has the length T of the second dimension
    of [log_probs] (the longest output of the batch), whatever output
    lengths [log_probs_len] the model reports; those lengths take no part
    in decoding, and the hypothesis recorded for the first utterance is the
    decoding of its whole row. *)
Theorem forward_decodes_padded_rows split (features : list (list Frame)) labels
    filenames (s : @State Frame PFrame) lp lpl loss row rest T :
  let me := self s in
  let tok := tokenizer me in
  let hyp := hypothesis_of tok lp in
  let gt := groundtruth_of tok (right_pad (pad_idx tok) labels) in
  features <> [] -> labels <> [] -> filenames <> [] ->
  model me (map (map (projector me)) (right_pad zero_frame features))
        (map len features) = Ok (lp, lpl) ->
  lp = row :: rest ->
  rows_of_length T lp ->
  objective me (transpose lp) (right_pad (pad_idx tok) labels) lpl
            (map len labels) = Ok loss ->
  Forall (fun m => is_ok (metric_value lp lpl hyp gt m) = true) (metrics me) ->
  NoDup ("loss" :: metrics me ++ ["hypothesis"; "groundtruth"; "filename"]) ->
  Forall (fun k => readable k (records s))
         ("loss" :: metrics me ++ ["hypothesis"; "groundtruth"; "filename"]) ->
  hyp = map (fun h => decode tok h true) (pred_tokens lp) /\
  Forall (fun h => len h = T) (pred_tokens lp) /\
  len (map argmax row) = T /\
  field "hypothesis" (records (fst (forward split features labels filenames s))) =
    field "hypothesis" (records s) ++ [VStr (decode tok (map argmax row) true)].
Proof.
  intros me tok hyp gt Hf Hl Hfn Hmodel Elp Hrows Hloss Hms Hnd Hread.
  split; [reflexivity|]. split; [apply pred_tokens_rows, Hrows|].
  split.
  - rewrite Elp in Hrows. apply Forall_cons in Hrows as [Hrow _].
    unfold len in *. rewrite length_map. exact Hrow.
  - assert (Hlp : lp <> []) by (rewrite Elp; discriminate).
    destruct (forward_fields split features labels filenames s lp lpl loss
                Hf Hl Hfn Hlp Hmodel Hloss Hms Hnd Hread)
      as (_ & _ & _ & _ & _ & (h0 & g0 & f0 & Hh0 & _ & _ & Hh & _) & _).
    rewrite Hh. subst hyp. rewrite Elp in Hh0.
    change (Some (decode tok (map argmax row) true) = Some h0) in Hh0.
    injection Hh0 as <-. reflexivity.
Qed.


(** A batch up to the loop over the metrics. *)
Lemma forward_until_metrics split (features : list (list Frame)) labels filenames
    (s : @State Frame PFrame) lp lpl loss :
  let me := self s in
  let tok := tokenizer me in
  let hyp := hypothesis_of tok lp in
  let gt := groundtruth_of tok (right_pad (pad_idx tok) labels) in
  let s1 := {| self := me; records := push "loss" (VFloat loss) (records s);
               logger := logger s |} in
  features <> [] -> labels <> [] ->
  model me (map (map (projector me)) (right_pad zero_frame features))
        (map len features) = Ok (lp, lpl) ->
  objective me (transpose lp) (right_pad (pad_idx tok) labels) lpl
            (map len labels) = Ok loss ->
  readable "loss" (records s) ->
  forall s2 e,
    for_each (metrics me) (record_metric lp lpl hyp gt) s1 = (s2, Raise e) ->
    forward split features labels filenames s = (s2, Raise e).
Proof.
  intros me tok hyp gt s1 Hf Hl Hmodel Hloss Rloss s2 e Hloop.
  subst s1 hyp gt tok me. unfold push in Hloop.
  unfold forward. rewrite run_bind. unfold gets at 1.
  rewrite run_bind. unfold lift at 1.
  destruct features as [|f1 features'] eqn:Ef; [contradiction|].
  rewrite getitem_0. rewrite <- Ef in *.
  rewrite run_bind. unfold lift at 1.
  rewrite (collate_nonempty _ _ _ Hf Hl).
  cbn [padded_features features_len padded_labels labels_len].
  rewrite run_bind. unfold lift at 1. rewrite Hmodel.
  rewrite run_bind. unfold lift at 1. rewrite Hloss.
  rewrite run_bind, get_run by exact Rloss.
  rewrite run_bind, append_run. cbn [self records logger].
  rewrite run_bind, Hloop. reflexivity.
Qed.

(** C9: metric names are resolved inside [forward], on every call, and not
    by the constructor: on an expert that construction has accepted, if a
    configured metric name fails to resolve ([eval] raises: [NameError] for
    a name that is not bound), [forward] raises in the loop over the
    metrics (that error, on the first such name, when the metrics before it
    give values), and by then the loss of the batch has been appended to
    [records['loss']]: the records are left partially mutated. *)
Theorem forward_unresolved_metric upstream_dim upstream_rate runner
    (rc : Config.DownstreamRc TextRc Kwargs)
    split (features : list (list Frame)) labels filenames
    (s : @State Frame PFrame) lp lpl loss m e0 :
  let me := self s in
  let tok := tokenizer me in
  let hyp := hypothesis_of tok lp in
  let gt := groundtruth_of tok (right_pad (pad_idx tok) labels) in
  __init__ upstream_dim upstream_rate runner rc = Ok me ->
  In m (metrics me) ->
  eval metric_scope metric_expression m = Raise e0 ->
  features <> [] -> labels <> [] ->
  model me (map (map (projector me)) (right_pad zero_frame features))
        (map len features) = Ok (lp, lpl) ->
  objective me (transpose lp) (right_pad (pad_idx tok) labels) lpl
            (map len labels) = Ok loss ->
  readable "loss" (records s) ->
  let r := forward split features labels filenames s in
  (exists e, snd r = Raise e) /\
  (exists more,
     field "loss" (records (fst r)) = field "loss" (records s) ++ VFloat loss :: more) /\
  records (fst r) <> records s /\
  (forall pre post,
     metrics me = pre ++ m :: post ->
     Forall (fun k => readable k (records s)) (pre ++ [m]) ->
     Forall (fun k => is_ok (metric_value lp lpl hyp gt k) = true) pre ->
     snd r = Raise e0) /\
  (is_name m = true -> e0 = NameError m /\ metric_scope m = None).
Proof.
  intros me tok hyp gt _ Hin Hm Hf Hl Hmodel Hloss Rloss r.
  set (s1 := {| self := me; records := push "loss" (VFloat loss) (records s);
                logger := logger s |}).
  destruct (metrics_loop_raises lp lpl hyp gt (metrics me) m e0 s1 Hin Hm) as [e He].
  destruct (metrics_loop_grows lp lpl hyp gt (metrics me) "loss" s1) as [more Hmore].
  destruct (for_each (metrics me) (record_metric lp lpl hyp gt) s1) as [s2 out] eqn:Hloop.
  cbn [fst snd] in *. subst out.
  pose proof (forward_until_metrics split features labels filenames s lp lpl loss
                Hf Hl Hmodel Hloss Rloss s2 e Hloop) as Hrun.
  fold r in Hrun.
  assert (Hfield : field "loss" (records (fst r))
                   = field "loss" (records s) ++ VFloat loss :: more).
  { rewrite Hrun. cbn [fst]. rewrite Hmore. subst s1. cbn [records].
    rewrite field_push_same by exact Rloss. rewrite <- app_assoc. reflexivity. }
  split; [exists e; rewrite Hrun; reflexivity|].
  split; [exists more; exact Hfield|].
  split; [|split].
  - intros Heq. rewrite Heq in Hfield.
    apply (f_equal (@length _)) in Hfield. rewrite length_app in Hfield.
    cbn in Hfield. lia.
  - intros pre post Hms Hread Hok.
    assert (Hread1 : Forall (fun k => readable k (records s1)) (pre ++ [m])).
    { subst s1. cbn [records]. eapply Forall_impl; [exact Hread|].
      intros k Hk. apply readable_push; assumption. }
    pose proof (metrics_loop_first_unresolved lp lpl hyp gt pre m post e0 s1
                  Hread1 Hok Hm) as Hfirst.
    rewrite <- Hms, Hloop in Hfirst. rewrite Hrun. cbn in *. congruence.
  - intros Hname. apply (eval_name_raises _ _ _ _ Hname Hm).
Qed.

End Properties.

(** * Further properties of the code *)

Section Coverage.

Context `{Collaborators Frame PFrame TextRc Kwargs}.

Ltac steps :=
  repeat (progress
    (unfold mbind, M_bind, mret, M_ret, lift, gets, modify, emit, set_best_score,
       on_records;
     cbn beta iota zeta delta [fst snd self records logger];
     rewrite ?getitem_0)).

(** ** [log_records]: what is logged *)

Lemma log_scalar_logs split step acc key values (s : @State Frame PFrame) task :
  _get_task_name (self s) = Ok task ->
  scalars_loggable (self s) [(key, values)] ->
  exists s1 names,
    log_scalar split step acc (key, values) s = (s1, Ok names) /\
    records s1 = records s /\
    logger s1 = logger s ++ scalar_events task split step (key, values).
Proof.
  intros Htask (Hname & Hms & Hes & Hall).
  apply Forall_cons in Hall as [(v0 & Hv0 & Hmean) _]. cbn [snd] in *.
  unfold log_scalar, scalar_events. cbn [fst snd]. steps.
  destruct values as [|v values']; [discriminate|]. cbn in Hv0. injection Hv0 as ->.
  steps. destruct (is_number v0).
  2:{ exists s, acc. rewrite app_nil_r. auto. }
  destruct (Hmean eq_refl) as [avg ->]. steps. rewrite Htask. steps.
  destruct (metrics (self s)) as [|m0 ms]; [congruence|]. steps.
  destruct (String.eqb key m0); steps.
  2:{ eexists _, _. split; [reflexivity|]. cbn. rewrite <- app_assoc. auto. }
  destruct (eval_dataloaders (self s)) as [|e0 es]; [congruence|]. steps.
  destruct (String.eqb split e0 && _); steps;
    (eexists _, _; split; [reflexivity|]; cbn; rewrite <- app_assoc; auto).
Qed.

Lemma scalar_loop_logs split step task its : forall acc (s : @State Frame PFrame),
  _get_task_name (self s) = Ok task ->
  scalars_loggable (self s) its ->
  logger (fst (for_fold its (log_scalar split step) acc s)) =
    logger s ++ concat (map (scalar_events task split step) its).
Proof.
  induction its as [|[key values] its IH]; intros acc s Htask Hlog; cbn [for_fold].
  - cbn. rewrite app_nil_r. reflexivity.
  - rewrite run_bind.
    destruct Hlog as (Hname & Hms & Hes & Hall).
    apply Forall_cons in Hall as [Hhd Htl].
    destruct (log_scalar_logs split step acc key values s task Htask)
      as (s1 & names & E & Hrec & Hlg).
    { repeat split; auto. }
    pose proof (log_scalar_outcome split step acc key values s) as Ho.
    rewrite E in *.
    assert (Hself : corpus (self s1) = corpus (self s) /\
                    metrics (self s1) = metrics (self s) /\
                    eval_dataloaders (self s1) = eval_dataloaders (self s)).
    { inversion Ho as [avg s2 _ Hs | s2 _ Hs | ]; subst; rewrite Hs; auto. }
    destruct Hself as (Hc & Hm & He).
    rewrite IH.
    + rewrite Hlg. cbn [map concat]. rewrite app_assoc. reflexivity.
    + unfold _get_task_name in *. rewrite Hc. exact Htask.
    + repeat split; try congruence; exact Htl.
Qed.

(** X1: on records whose fields can be averaged and that hold at least
    three aligned samples, [log_records] returns, leaves the records as they
    were, and appends to the logger exactly this: for every field in
    iteration order whose first value is a number, the printed line and one
    scalar tagged [<task>/<split>-<key>] carrying the mean of the field
    (nothing for the text fields), and after all of them the text entries of
    the sampled positions. *)
Theorem log_records_logger split step (s : @State Frame PFrame) :
  let n := len (field "filename" (records s)) in
  let r := log_records split step s in
  scalars_loggable (self s) (items (records s)) ->
  samples_aligned (records s) ->
  3 <= n ->
  exists task evs,
    _get_task_name (self s) = Ok task /\
    is_ok (snd r) = true /\
    records (fst r) = records s /\
    logger (fst r) =
      logger s ++ concat (map (scalar_events task split step) (items (records s)))
               ++ evs /\
    Forall2 (fun i ev => sample_at task split step (records s) i = Some ev)
            (positions n (round_div n 5)) evs.
Proof.
  intros n r Hlog Hal Hn.
  destruct (log_records_run split step s Hlog Hal Hn)
    as (s1 & names & task & evs & Hloop & Htask & Hevs & Hrun).
  exists task, evs. subst r. rewrite Hrun. cbn [fst snd records logger is_ok].
  repeat split; try assumption.
  pose proof (scalar_loop_logs split step task (items (records s)) [] s Htask Hlog) as Hl.
  rewrite Hloop in Hl. cbn [fst] in Hl. rewrite Hl, <- app_assoc. reflexivity.
Qed.

(** ** [log_records]: the best score *)




Lemma assoc_of_In {A} k (a : A) (its : list (string * A)) :
  In (k, a) its -> assoc k its <> None.
Proof.
  induction its as [|[k' a'] its IH]; cbn; [contradiction|].
  intros [[= -> ->]|Hin].
  - rewrite String.eqb_refl. discriminate.
  - destruct (String.eqb k k'); [discriminate | apply IH, Hin].
Qed.

(** The best score after a call, from the outcome of the scalar loop. *)
Lemma log_records_best split step (s : @State Frame PFrame) :
  NoDup (keys (records s)) ->
  let r := log_records split step s in
  self (fst r) = self s \/
  exists key values average,
    In (key, values) (items (records s)) /\
    improves (self s) split key values average /\
    self (fst r) = with_best_score average (self s).
Proof.
  intros Hnd r. subst r. rewrite log_records_self.
  pose proof (scalar_loop_outcome split step (items (records s)) [] s Hnd) as Hout.
  destruct (for_fold (items (records s)) (log_scalar split step) [] s) as [s1 out].
  cbn [fst].
  inversion Hout as [k v avg s' out' Hin Himp Hs Ho | s' Hno Hs | s' e Hs]; subst;
    [right; exists k, v, avg; auto | left; exact Hs | left; exact Hs].
Qed.


(** X3: a call on a split that is not the first evaluation split, or on
    records that hold no field for the primary metric, never saves: the
    expert is left exactly as it was, and a returning call returns no
    label. *)
Theorem log_records_no_save split step (s : @State Frame PFrame) :
  NoDup (keys (records s)) ->
  eval_dataloaders (self s) !! 0%nat <> Some split \/
  (forall key, metrics (self s) !! 0%nat = Some key ->
               assoc key (items (records s)) = None) ->
  let r := log_records split step s in
  self (fst r) = self s /\
  (forall save_names, snd r = Ok save_names -> save_names = []).
Proof.
  intros Hnd Hwhy r.
  assert (Hno : forall key values average,
            In (key, values) (items (records s)) ->
            ~ improves (self s) split key values average).
  { intros k v a Hin (Hk & _ & _ & He & _). destruct Hwhy as [Hsplit|Hkey].
    - contradiction.
    - apply (assoc_of_In _ _ _ Hin). apply Hkey, Hk. }
  split.
  - destruct (log_records_best split step s Hnd) as [Hs|(k & v & avg & Hin & Himp & _)];
      [exact Hs|]. exfalso. eapply Hno; eauto.
  - intros names Hr.
    destruct (log_records_cases split step s names Hnd Hr)
      as [(k & v & a & Hin & Himp & _)|(_ & _ & ->)]; [|reflexivity].
    exfalso. eapply Hno; eauto.
Qed.

(** ** [log_records]: records it cannot log *)

Lemma sample_indices_missing (s : @State Frame PFrame) :
  assoc "filename" (items (records s)) = None ->
  sample_indices s =
    if default_factory (records s)
    then ({| self := self s;
             records := {| default_factory := true;
                           items := items (records s) ++ [("filename", [])] |};
             logger := logger s |}, Raise ValueError)
    else ({| self := self s; records := records s; logger := logger s |},
          Raise (KeyError "filename")).
Proof.
  intros Hnone. unfold sample_indices. steps.
  unfold Rec.get at 1. rewrite Hnone.
  destruct (default_factory (records s)); steps; [|reflexivity].
  unfold Rec.get. cbn [items default_factory].
  rewrite assoc_app_fresh by exact Hnone. reflexivity.
Qed.

(** X4: when the scalar loop succeeds and the records have no 'filename'
    key, [log_records] fails after that loop, best score possibly updated:
    on a plain dict with [KeyError] and the records untouched; on a
    [defaultdict] the read creates the key with an empty list, the stride
    is 0 and the call fails with the zero-step [ValueError], leaving the new
    empty 'filename' field behind. *)
Theorem log_records_without_filename split step (s : @State Frame PFrame) :
  scalars_loggable (self s) (items (records s)) ->
  assoc "filename" (items (records s)) = None ->
  let r := log_records split step s in
  (default_factory (records s) = false ->
   snd r = Raise (KeyError "filename") /\ records (fst r) = records s) /\
  (default_factory (records s) = true ->
   snd r = Raise ValueError /\
   default_factory (records (fst r)) = true /\
   items (records (fst r)) = items (records s) ++ [("filename", [])]).
Proof.
  intros Hlog Hnone r. subst r.
  destruct (scalar_loop_returns split step _ [] s Hlog) as (s1 & names & Hloop).
  pose proof (scalar_loop_frame split step (items (records s)) [] s) as [Hrec _].
  rewrite Hloop in Hrec. cbn [fst] in Hrec.
  rewrite log_records_unfold, Hloop, sample_indices_missing by congruence.
  rewrite Hrec. split; intros Hd; rewrite Hd; cbn; auto.
Qed.

Lemma for_fold_app {S A B} (body : B -> A -> M S B) (l1 l2 : list A) : forall acc s,
  for_fold (l1 ++ l2) body acc s =
    match for_fold l1 body acc s with
    | (s1, Ok acc1) => for_fold l2 body acc1 s1
    | (s1, Raise e) => (s1, Raise e)
    end.
Proof.
  induction l1 as [|x l1 IH]; intros acc s; cbn [app for_fold]; [reflexivity|].
  rewrite !run_bind. destruct (body acc x s) as [s1 [acc1|e]]; [apply IH | reflexivity].
Qed.

Lemma log_records_scalar_error split step (s s1 : @State Frame PFrame) e :
  for_fold (items (records s)) (log_scalar split step) [] s = (s1, Raise e) ->
  log_records split step s = (s1, Raise e).
Proof. intros Hloop. rewrite log_records_unfold, Hloop. reflexivity. Qed.

(** X5: the first field that cannot be logged decides how [log_records]
    fails.  When the fields before it are logged without error, a field
    holding an empty list ends the call with [IndexError], and a field whose
    first value is a number but whose average torch cannot take ends it with
    the error of the averaging.  The records are as before, the earlier
    fields have been printed and logged (and may have moved the best score),
    and nothing is logged for the failing field or after it. *)
Theorem log_records_first_bad_field split step (s : @State Frame PFrame)
    pre key values post task :
  items (records s) = pre ++ (key, values) :: post ->
  _get_task_name (self s) = Ok task ->
  scalars_loggable (self s) pre ->
  let r := log_records split step s in
  (values = [] -> snd r = Raise IndexError) /\
  (forall v0 e,
     values !! 0%nat = Some v0 -> is_number v0 = true ->
     FloatTensor_mean values = Raise e -> snd r = Raise e) /\
  (values = [] \/
   (exists v0 e, values !! 0%nat = Some v0 /\ is_number v0 = true /\
                 FloatTensor_mean values = Raise e) ->
   records (fst r) = records s /\
   logger (fst r) = logger s ++ concat (map (scalar_events task split step) pre)).
Proof.
  intros Hits Htask Hlog r.
  destruct (scalar_loop_returns split step pre [] s Hlog) as (s1 & acc1 & Hpre).
  pose proof (scalar_loop_frame split step pre [] s) as [Hrec _].
  pose proof (scalar_loop_logs split step task pre [] s Htask Hlog) as Hlg.
  rewrite Hpre in Hrec, Hlg. cbn [fst] in Hrec, Hlg.
  assert (Hloop : forall e,
            snd (log_scalar split step acc1 (key, values) s1) = Raise e ->
            fst (log_scalar split step acc1 (key, values) s1) = s1 ->
            log_records split step s = (s1, Raise e)).
  { intros e He Hs. apply log_records_scalar_error.
    rewrite Hits, for_fold_app, Hpre. cbn [for_fold]. rewrite run_bind.
    destruct (log_scalar split step acc1 (key, values) s1) as [s2 [a|e']];
      cbn in *; congruence. }
  assert (Hempty : values = [] -> log_records split step s = (s1, Raise IndexError)).
  { intros ->. apply Hloop; reflexivity. }
  assert (Hmean : forall v0 e,
            values !! 0%nat = Some v0 -> is_number v0 = true ->
            FloatTensor_mean values = Raise e ->
            log_records split step s = (s1, Raise e)).
  { intros v0 e Hv0 Hnum He.
    destruct values as [|v values']; [discriminate|]. cbn in Hv0. injection Hv0 as ->.
    apply Hloop; unfold log_scalar; steps; rewrite Hnum; steps; rewrite He; reflexivity. }
  subst r. split; [|split].
  - intros Hv. rewrite (Hempty Hv). reflexivity.
  - intros v0 e Hv0 Hnum He. rewrite (Hmean v0 e Hv0 Hnum He). reflexivity.
  - intros [Hv|(v0 & e & Hv0 & Hnum & He)];
      [rewrite (Hempty Hv) | rewrite (Hmean v0 e Hv0 Hnum He)];
      cbn [fst]; auto.
Qed.

(** X6: gaps of the configuration that the constructor accepts surface at
    the first field whose first value is a number.  With records whose
    first field is such a field, with a mean [average]: a corpus without a
    name fails with [KeyError] on 'name' after the line has been printed; an
    empty metric list fails with [IndexError] after the scalar has been
    logged; an empty list of evaluation splits fails with [IndexError] when
    the field is the primary metric.  In every case the expert and the
    records are left as they were. *)
Theorem log_records_config_gaps split step (s : @State Frame PFrame)
    key v0 values rest average :
  items (records s) = (key, v0 :: values) :: rest ->
  is_number v0 = true ->
  FloatTensor_mean (v0 :: values) = Ok average ->
  let r := log_records split step s in
  let line := Print (split +:+ " " +:+ key +:+ ": " +:+ float_repr average) in
  (Config.name (corpus (self s)) = None ->
   r = ({| self := self s; records := records s; logger := logger s ++ [line] |},
        Raise (KeyError "name"))) /\
  (forall task,
     _get_task_name (self s) = Ok task ->
     let scalar := AddScalar (task +:+ "/" +:+ split +:+ "-" +:+ key) average step in
     (metrics (self s) = [] \/
      (metrics (self s) !! 0%nat = Some key /\ eval_dataloaders (self s) = [])) ->
     r = ({| self := self s; records := records s;
             logger := logger s ++ [line; scalar] |}, Raise IndexError)).
Proof.
  intros Hits Hnum Hmean r line. subst r line. split.
  - intros Hname. apply log_records_scalar_error. rewrite Hits. cbn [for_fold].
    rewrite run_bind. unfold log_scalar, _get_task_name. steps.
    rewrite Hnum. steps. rewrite Hmean. steps. rewrite Hname. reflexivity.
  - intros task Htask scalar Hgap. subst scalar.
    apply log_records_scalar_error. rewrite Hits. cbn [for_fold].
    rewrite run_bind. unfold log_scalar. steps.
    rewrite Hnum. steps. rewrite Hmean. steps. rewrite Htask. steps.
    destruct Hgap as [Hms|[Hkey Hes]].
    + rewrite Hms. cbn. rewrite <- app_assoc. reflexivity.
    + destruct (metrics (self s)) as [|m0 ms]; [discriminate|].
      cbn in Hkey. injection Hkey as ->. steps. rewrite String.eqb_refl. steps.
      rewrite Hes. cbn. rewrite <- app_assoc. reflexivity.
Qed.

(** ** What a computation keeps *)

Section Keeps.

Context {X : Type} (proj : @State Frame PFrame -> X) (R : X -> X -> Prop).
Context (R_refl : forall x, R x x) (R_trans : forall x y z, R x y -> R y z -> R x z).

Lemma keeps_ret {A} (a : A) : keeps proj R (mret a).
Proof. intros s. apply R_refl. Qed.

Lemma keeps_lift {A} (r : result A) : keeps proj R (lift r).
Proof. intros s. apply R_refl. Qed.

Lemma keeps_gets {A} (f : State -> A) : keeps proj R (gets f).
Proof. intros s. apply R_refl. Qed.

Lemma keeps_bind {A B} (m : M State A) (k : A -> M State B) :
  keeps proj R m -> (forall a, keeps proj R (k a)) -> keeps proj R (m ≫= k).
Proof.
  intros Hm Hk s. rewrite run_bind. specialize (Hm s).
  destruct (m s) as [s1 [a|e]]; cbn [fst] in *; [|exact Hm].
  eapply R_trans; [exact Hm | apply Hk].
Qed.

Lemma keeps_for_each {A} (l : list A) (body : A -> M State unit) :
  (forall a, keeps proj R (body a)) -> keeps proj R (for_each l body).
Proof.
  intros Hb. induction l as [|a l IH]; cbn [for_each].
  - apply keeps_ret.
  - apply keeps_bind; [apply Hb | intros _; exact IH].
Qed.

End Keeps.

Lemma keeps_on_records {A} (R : Records -> Records -> Prop) (m : M Records A) :
  (forall r, R r (fst (m r))) -> keeps (@records Frame PFrame) R (on_records m).
Proof.
  intros Hm s. unfold on_records. specialize (Hm (records s)).
  destruct (m (records s)) as [r a]. exact Hm.
Qed.

Lemma self_on_records {A} (m : M Records A) :
  keeps (@self Frame PFrame) eq (on_records m).
Proof. intros s. unfold on_records. destruct (m (records s)). reflexivity. Qed.

Lemma logger_on_records {A} (m : M Records A) :
  keeps (@logger Frame PFrame) eq (on_records m).
Proof. intros s. unfold on_records. destruct (m (records s)). reflexivity. Qed.

(** *** Reads and appends on the records *)

Lemma assoc_None_keys {A} k (l : list (string * A)) :
  assoc k l = None -> ~ In k (map fst l).
Proof.
  induction l as [|[k' a] l IH]; cbn; [tauto|].
  destruct (String.eqb_spec k k'); [discriminate|].
  intros Hk [Heq|Hin]; [congruence | exact (IH Hk Hin)].
Qed.

Lemma keys_assoc_alter {A} (f : A -> A) k (l : list (string * A)) :
  map fst (assoc_alter f k l) = map fst l.
Proof.
  induction l as [|[k' a] l IH]; cbn; [reflexivity|].
  destruct (String.eqb k k'); cbn; [reflexivity | rewrite IH; reflexivity].
Qed.

Lemma same_fields_refl r : same_fields r r.
Proof. repeat split; auto. Qed.

Lemma same_fields_trans r1 r2 r3 :
  same_fields r1 r2 -> same_fields r2 r3 -> same_fields r1 r3.
Proof.
  intros (Hd1 & Hf1 & Hk1 & Hn1) (Hd2 & Hf2 & Hk2 & Hn2).
  repeat split; try congruence; auto.
Qed.

Lemma extends_refl r : extends r r.
Proof.
  repeat split; auto. intros k. exists []. rewrite app_nil_r. reflexivity.
Qed.

Lemma extends_trans r1 r2 r3 : extends r1 r2 -> extends r2 r3 -> extends r1 r3.
Proof.
  intros (Hd1 & Hf1 & Hk1 & Hn1) (Hd2 & Hf2 & Hk2 & Hn2).
  repeat split; try congruence; auto.
  intros k. destruct (Hf1 k) as [m1 E1], (Hf2 k) as [m2 E2].
  exists (m1 ++ m2). rewrite E2, E1, app_assoc. reflexivity.
Qed.

Lemma same_fields_extends r r' : same_fields r r' -> extends r r'.
Proof.
  intros (Hd & Hf & Hk & Hn). repeat split; auto.
  intros k. exists []. rewrite app_nil_r. apply Hf.
Qed.

Lemma get_same_fields k r : same_fields r (fst (Rec.get k r)).
Proof.
  unfold Rec.get. destruct (assoc k (items r)) as [l|] eqn:Hk;
    [apply same_fields_refl|].
  destruct (default_factory r) eqn:Hd; [|apply same_fields_refl].
  cbn [fst]. repeat split; cbn.
  - congruence.
  - intros k'. unfold field. cbn. destruct (String.eqb_spec k' k) as [->|Hne].
    + rewrite (assoc_app_fresh _ _ _ Hk), Hk. reflexivity.
    + rewrite assoc_app_other by exact Hne. reflexivity.
  - intros k' Hk'. destruct (String.eqb_spec k' k) as [->|Hne]; [congruence|].
    rewrite assoc_app_other by exact Hne. exact Hk'.
  - unfold keys. cbn. rewrite map_app. cbn. intros Hnd.
    apply NoDup_app. split; [exact Hnd|]. split; [|apply NoDup_singleton].
    intros x Hx Hx'. apply list_elem_of_singleton in Hx' as ->.
    apply (assoc_None_keys _ _ Hk). apply list_elem_of_In. exact Hx.
Qed.

Lemma append_extends k v r : extends r (fst (Rec.append k v r)).
Proof.
  unfold Rec.append, modify. cbn [fst]. repeat split; cbn.
  - intros k'. unfold field. cbn. destruct (String.eqb_spec k' k) as [->|Hne].
    + rewrite assoc_alter_same. destruct (assoc k (items r)); cbn; eauto.
    + rewrite assoc_alter_other by exact Hne. exists []. rewrite app_nil_r. reflexivity.
  - intros k' Hk'. destruct (String.eqb_spec k' k) as [->|Hne].
    + rewrite assoc_alter_same. destruct (assoc k (items r)); [discriminate|congruence].
    + rewrite assoc_alter_other by exact Hne. exact Hk'.
  - unfold keys. cbn. rewrite keys_assoc_alter. auto.
Qed.

Ltac keeps_steps refl trans prim :=
  repeat first
    [ apply keeps_ret; exact refl
    | apply keeps_lift; exact refl
    | apply keeps_gets; exact refl
    | apply keeps_for_each; [exact refl | exact trans | intros ]
    | apply keeps_bind; [exact trans | | intros ]
    | prim
    | match goal with |- keeps _ _ (let '(_, _) := ?x in _) => destruct x end ].

(** ** [forward]: what it leaves alone *)

Lemma forward_keeps_records split (features : list (list Frame)) labels filenames :
  keeps records extends (forward split features labels filenames).
Proof.
  unfold forward, record_metric.
  keeps_steps extends_refl extends_trans
    ltac:(first [ apply keeps_on_records; intros;
                  first [ apply same_fields_extends, get_same_fields
                        | apply append_extends ] ]).
Qed.

Lemma forward_keeps_self split (features : list (list Frame)) labels filenames :
  keeps self eq (forward split features labels filenames).
Proof.
  unfold forward, record_metric.
  keeps_steps (@eq_refl (@DownstreamExpert Frame PFrame))
              (@eq_trans (@DownstreamExpert Frame PFrame))
    ltac:(apply self_on_records).
Qed.

Lemma forward_keeps_logger split (features : list (list Frame)) labels filenames :
  keeps logger eq (forward split features labels filenames).
Proof.
  unfold forward, record_metric.
  keeps_steps (@eq_refl (list event)) (@eq_trans (list event))
    ltac:(apply logger_on_records).
Qed.

(** X7: whatever happens in [forward], whether it returns or raises at any
    point, it leaves the expert (the best score included) and the logger
    untouched, and it only ever appends to the records: every field
    afterwards starts with the field as it was, no key is removed, the
    kind of mapping is the same and distinct keys stay distinct. *)
Theorem forward_only_appends split (features : list (list Frame)) labels filenames
    (s : @State Frame PFrame) :
  let s' := fst (forward split features labels filenames s) in
  self s' = self s /\
  logger s' = logger s /\
  default_factory (records s') = default_factory (records s) /\
  (forall k, exists more, field k (records s') = field k (records s) ++ more) /\
  (forall k, assoc k (items (records s)) <> None ->
             assoc k (items (records s')) <> None) /\
  (NoDup (keys (records s)) -> NoDup (keys (records s'))).
Proof.
  intros s'. subst s'.
  pose proof (forward_keeps_self split features labels filenames s) as Hs.
  pose proof (forward_keeps_logger split features labels filenames s) as Hl.
  pose proof (forward_keeps_records split features labels filenames s) as (Hd & Hf & Hk & Hn).
  auto 10.
Qed.

(** ** [forward]: what the model and the loss are called with *)





(** ** [log_records]: what it does to the records *)

Lemma keeps_modify {X} (proj : @State Frame PFrame -> X) (R : X -> X -> Prop)
    (f : State -> State) :
  (forall s, R (proj s) (proj (f s))) -> keeps proj R (modify f).
Proof. intros Hf s. apply Hf. Qed.

Lemma keeps_for_fold {X A B} (proj : @State Frame PFrame -> X) (R : X -> X -> Prop)
    (l : list A) (body : B -> A -> M State B) :
  (forall x, R x x) -> (forall x y z, R x y -> R y z -> R x z) ->
  (forall b a, keeps proj R (body b a)) ->
  forall acc, keeps proj R (for_fold l body acc).
Proof.
  intros Hrefl Htrans Hb. induction l as [|a l IH]; intros acc; cbn [for_fold].
  - apply keeps_ret, Hrefl.
  - apply keeps_bind; [exact Htrans | apply Hb | intros b; apply IH].
Qed.


Lemma only_read_refl r : only_read r r.
Proof. split; [apply same_fields_refl | auto]. Qed.

Lemma only_read_trans r1 r2 r3 : only_read r1 r2 -> only_read r2 r3 -> only_read r1 r3.
Proof.
  intros [H1 K1] [H2 K2]. split; [eapply same_fields_trans; eassumption|].
  intros k Hk. destruct (K2 k Hk) as [Hk2|Hin]; [apply K1, Hk2 | right; exact Hin].
Qed.

Lemma get_only_read k r :
  In k ["filename"; "hypothesis"; "groundtruth"] -> only_read r (fst (Rec.get k r)).
Proof.
  intros Hin. split; [apply get_same_fields|].
  intros k' Hk'. unfold Rec.get in Hk'.
  destruct (assoc k (items r)) eqn:Hk; [left; exact Hk'|].
  destruct (default_factory r); [|left; exact Hk']. cbn in Hk'.
  destruct (String.eqb_spec k' k) as [->|Hne]; [right; exact Hin|].
  left. rewrite assoc_app_other in Hk' by exact Hne. exact Hk'.
Qed.

Lemma log_records_keeps_records split step :
  keeps (@records Frame PFrame) only_read (log_records split step).
Proof.
  unfold log_records.
  apply keeps_bind; [exact only_read_trans | apply keeps_gets, only_read_refl |].
  intros its. apply keeps_bind; [exact only_read_trans | |].
  - apply keeps_for_fold; [exact only_read_refl | exact only_read_trans |].
    intros acc [key values] s.
    pose proof (log_scalar_frame split step acc (key, values) s) as [-> _].
    apply only_read_refl.
  - intros names. unfold sample_indices, log_text, emit.
    keeps_steps only_read_refl only_read_trans
      ltac:(first [ apply keeps_on_records; intros; apply get_only_read; cbn; tauto
                  | apply keeps_modify; intros; apply only_read_refl ]).
Qed.

(** X8: [log_records] never changes a recorded value, whether it returns
    or raises: every field afterwards is the field before, no key is lost
    and distinct keys stay distinct.  The only trace it can leave in the
    records is an empty list created under 'filename', 'hypothesis' or
    'groundtruth' when a [defaultdict] lacks that key. *)
Theorem log_records_reads_only split step (s : @State Frame PFrame) :
  let r' := records (fst (log_records split step s)) in
  default_factory r' = default_factory (records s) /\
  (forall k, field k r' = field k (records s)) /\
  (forall k, assoc k (items (records s)) <> None -> assoc k (items r') <> None) /\
  (forall k, assoc k (items r') <> None ->
             assoc k (items (records s)) <> None \/
             In k ["filename"; "hypothesis"; "groundtruth"]) /\
  (NoDup (keys (records s)) -> NoDup (keys r')).
Proof.
  intros r'. subst r'.
  destruct (log_records_keeps_records split step s) as [(Hd & Hf & Hk & Hn) Hc].
  auto 10.
Qed.

(** ** [forward]: failures before the first append *)

(** X9: [forward] mutates nothing before the loss has been computed: an
    empty batch fails with [IndexError] on [features[0]], a batch without
    labels with the error of [pad_sequence], an error of the model or of
    the loss is passed on as it is, and a plain dict without the key 'loss'
    fails with [KeyError]; in each case the state, records included, is
    exactly the one before the call. *)
Theorem forward_fails_untouched split (features : list (list Frame)) labels filenames
    (s : @State Frame PFrame) :
  let me := self s in
  let pad := pad_idx (tokenizer me) in
  let run := forward split features labels filenames s in
  let projected := map (map (projector me)) (right_pad zero_frame features) in
  (features = [] -> run = (s, Raise IndexError)) /\
  (features <> [] -> labels = [] -> run = (s, Raise RuntimeError)) /\
  (features <> [] -> labels <> [] ->
   forall e, model me projected (map len features) = Raise e ->
             run = (s, Raise e)) /\
  (features <> [] -> labels <> [] ->
   forall lp lpl e,
     model me projected (map len features) = Ok (lp, lpl) ->
     objective me (transpose lp) (right_pad pad labels) lpl (map len labels) = Raise e ->
     run = (s, Raise e)) /\
  (features <> [] -> labels <> [] ->
   forall lp lpl loss,
     model me projected (map len features) = Ok (lp, lpl) ->
     objective me (transpose lp) (right_pad pad labels) lpl (map len labels) = Ok loss ->
     ~ readable "loss" (records s) ->
     run = (s, Raise (KeyError "loss"))).
Proof.
  intros me pad run projected. subst run projected pad me.
  assert (Hs : s = {| self := self s; records := records s; logger := logger s |})
    by (destruct s; reflexivity).
  split; [|split; [|split; [|split]]].
  - intros ->. unfold forward. steps. first [reflexivity | rewrite <- Hs; reflexivity].
  - intros Hf ->. unfold forward. steps.
    destruct features as [|f1 features']; [contradiction|]. steps.
    unfold collate, pad_sequence. cbn. first [reflexivity | rewrite <- Hs; reflexivity].
  - intros Hf Hl e Hmodel. unfold forward. rewrite run_bind. unfold gets at 1.
    rewrite run_bind. unfold lift at 1.
    destruct features as [|f1 features'] eqn:Ef; [contradiction|].
    rewrite getitem_0. rewrite <- Ef in *.
    rewrite run_bind. unfold lift at 1. rewrite (collate_nonempty _ _ _ Hf Hl).
    cbn [padded_features features_len padded_labels labels_len].
    rewrite run_bind. unfold lift at 1. rewrite Hmodel. reflexivity.
  - intros Hf Hl lp lpl e Hmodel Hloss. unfold forward. rewrite run_bind.
    unfold gets at 1. rewrite run_bind. unfold lift at 1.
    destruct features as [|f1 features'] eqn:Ef; [contradiction|].
    rewrite getitem_0. rewrite <- Ef in *.
    rewrite run_bind. unfold lift at 1. rewrite (collate_nonempty _ _ _ Hf Hl).
    cbn [padded_features features_len padded_labels labels_len].
    rewrite run_bind. unfold lift at 1. rewrite Hmodel.
    rewrite run_bind. unfold lift at 1. rewrite Hloss. reflexivity.
  - intros Hf Hl lp lpl loss Hmodel Hloss Hread. unfold forward. rewrite run_bind.
    unfold gets at 1. rewrite run_bind. unfold lift at 1.
    destruct features as [|f1 features'] eqn:Ef; [contradiction|].
    rewrite getitem_0. rewrite <- Ef in *.
    rewrite run_bind. unfold lift at 1. rewrite (collate_nonempty _ _ _ Hf Hl).
    cbn [padded_features features_len padded_labels labels_len].
    rewrite run_bind. unfold lift at 1. rewrite Hmodel.
    rewrite run_bind. unfold lift at 1. rewrite Hloss.
    rewrite run_bind. unfold on_records at 1.
    rewrite (get_unreadable _ _ Hread). first [reflexivity | rewrite <- Hs; reflexivity].
Qed.

(** ** [forward]: the order of the fields *)

Lemma assoc_alter_app_fresh {A} (f : A -> A) k a (l : list (string * A)) :
  assoc k l = None ->
  assoc_alter f k (l ++ [(k, a)]) = l ++ [(k, f a)].
Proof.
  induction l as [|[k' a'] l IH]; cbn.
  - rewrite String.eqb_refl. reflexivity.
  - destruct (String.eqb k k'); [discriminate|]. intros Hk. rewrite IH by exact Hk.
    reflexivity.
Qed.

Lemma push_fresh k v r :
  default_factory r = true -> assoc k (items r) = None ->
  push k v r = {| default_factory := true; items := items r ++ [(k, [v])] |}.
Proof.
  intros Hd Hk. unfold push, Rec.get, Rec.append, modify. rewrite Hk, Hd. cbn.
  rewrite assoc_alter_app_fresh by exact Hk. reflexivity.
Qed.

Lemma with_metrics_fresh lp lpl hyp gt ms : forall r vs,
  default_factory r = true ->
  NoDup ms ->
  (forall m, In m ms -> assoc m (items r) = None) ->
  Forall2 (fun m v => metric_value lp lpl hyp gt m = Ok v) ms vs ->
  with_metrics lp lpl hyp gt r ms =
    {| default_factory := true;
       items := items r ++ zip_with (fun m v => (m, [v])) ms vs |}.
Proof.
  induction ms as [|m ms IH]; intros r vs Hd Hnd Hfresh Hvs.
  - apply Forall2_nil_inv_l in Hvs as ->. cbn. rewrite app_nil_r.
    destruct r; cbn in *; congruence.
  - apply Forall2_cons_inv_l in Hvs as (v & vs' & Hv & Hvs & ->).
    apply NoDup_cons in Hnd as [Hm Hnd].
    rewrite with_metrics_cons, Hv.
    rewrite (push_fresh m v r Hd) by (apply Hfresh; left; reflexivity).
    rewrite (IH _ vs'); cbn [items default_factory]; auto.
    + rewrite <- app_assoc. reflexivity.
    + intros m' Hin. rewrite assoc_app_other.
      * apply Hfresh. right. exact Hin.
      * intros ->. apply Hm, list_elem_of_In, Hin.
Qed.

Lemma metric_values_exist lp lpl hyp gt ms :
  Forall (fun m => is_ok (metric_value lp lpl hyp gt m) = true) ms ->
  exists vs, Forall2 (fun m v => metric_value lp lpl hyp gt m = Ok v) ms vs.
Proof.
  induction 1 as [|m ms Hm _ [vs IH]]; [exists []; constructor|].
  destruct (metric_value lp lpl hyp gt m) as [v|e] eqn:Hv; [|discriminate].
  exists (v :: vs). constructor; assumption.
Qed.

Lemma assoc_None_of_keys {A} k (l : list (string * A)) :
  ~ In k (map fst l) -> assoc k l = None.
Proof.
  induction l as [|[k' a] l IH]; cbn; [reflexivity|].
  intros Hk. destruct (String.eqb_spec k k') as [->|Hne]; [tauto|]. apply IH. tauto.
Qed.

Lemma keys_zip_eq (ms : list string) : forall (vs : list value),
  length ms = length vs ->
  map fst (zip_with (fun m v => (m, [v])) ms vs) = ms.
Proof.
  induction ms as [|m ms IH]; intros [|v vs] Hlen; cbn in *; try discriminate;
    [reflexivity|]. rewrite IH by lia. reflexivity.
Qed.

Lemma keys_zip (ms : list string) : forall (vs : list value) k,
  In k (map fst (zip_with (fun m v => (m, [v])) ms vs)) -> In k ms.
Proof.
  induction ms as [|m ms IH]; intros [|v vs] k; cbn; try tauto.
  intros [<-|Hk]; [left; reflexivity | right; eapply IH, Hk].
Qed.

(** X10: on a [defaultdict] that holds none of the fields yet, a batch
    whose model, loss and metrics return creates them in this order, after
    the keys already there: 'loss', the metrics in the configured order,
    'hypothesis', 'groundtruth', 'filename', each with its one value.  This
    is the order in which [log_records] later goes through the fields. *)
Theorem forward_creates_fields_in_order split (features : list (list Frame)) labels
    filenames (s : @State Frame PFrame) lp lpl loss :
  let me := self s in
  let tok := tokenizer me in
  let hyp := hypothesis_of tok lp in
  let gt := groundtruth_of tok (right_pad (pad_idx tok) labels) in
  let names := "loss" :: metrics me ++ ["hypothesis"; "groundtruth"; "filename"] in
  features <> [] -> labels <> [] -> filenames <> [] -> lp <> [] ->
  model me (map (map (projector me)) (right_pad zero_frame features))
        (map len features) = Ok (lp, lpl) ->
  objective me (transpose lp) (right_pad (pad_idx tok) labels) lpl
            (map len labels) = Ok loss ->
  Forall (fun m => is_ok (metric_value lp lpl hyp gt m) = true) (metrics me) ->
  NoDup names ->
  default_factory (records s) = true ->
  (forall k, In k names -> assoc k (items (records s)) = None) ->
  exists vs h0 g0 f0,
    Forall2 (fun m v => metric_value lp lpl hyp gt m = Ok v) (metrics me) vs /\
    hyp !! 0%nat = Some h0 /\ gt !! 0%nat = Some g0 /\ filenames !! 0%nat = Some f0 /\
    forward split features labels filenames s =
      ({| self := me;
          records :=
            {| default_factory := true;
               items :=
                 items (records s)
                   ++ ("loss", [VFloat loss])
                   :: zip_with (fun m v => (m, [v])) (metrics me) vs
                   ++ [ ("hypothesis", [VStr h0]);
                        ("groundtruth", [VStr g0]);
                        ("filename", [VStr f0]) ] |};
          logger := logger s |}, Ok loss) /\
    keys (records (fst (forward split features labels filenames s))) =
      keys (records s) ++ names.
Proof.
  intros me tok hyp gt names Hf Hl Hfn Hlp Hmodel Hloss Hms Hnd Hd Hfresh.
  destruct (metric_values_exist _ _ _ _ _ Hms) as [vs Hvs].
  destruct (lookup_lt_is_Some_2 hyp 0) as [h0 Hh0].
  { subst hyp. unfold hypothesis_of, pred_tokens. rewrite !length_map.
    destruct lp; [contradiction|cbn; lia]. }
  destruct (lookup_lt_is_Some_2 gt 0) as [g0 Hg0].
  { subst gt. unfold groundtruth_of, right_pad. rewrite !length_map.
    destruct labels; [contradiction|cbn; lia]. }
  destruct (lookup_lt_is_Some_2 filenames 0) as [f0 Hf0];
    [destruct filenames; [contradiction|cbn; lia]|].
  assert (Hread : Forall (fun k => readable k (records s)) names).
  { apply Forall_forall. intros k _. left. exact Hd. }
  exists vs, h0, g0, f0.
  split; [exact Hvs|]. split; [exact Hh0|]. split; [exact Hg0|]. split; [exact Hf0|].
  (* distinctness of the names *)
  subst names. pose proof Hnd as Hnd'.
  apply NoDup_cons in Hnd' as [Hloss_fresh Hnd'].
  apply NoDup_app in Hnd' as (Hnd_ms & Hdisj & _).
  assert (Hin : forall k, In k (metrics me ++ ["hypothesis"; "groundtruth"; "filename"])
                  -> k <> "loss").
  { intros k Hk ->. apply Hloss_fresh, list_elem_of_In, Hk. }
  assert (Hfix : forall m k, In m (metrics me) ->
                   In k ["hypothesis"; "groundtruth"; "filename"] -> k <> m).
  { intros m k Hm Hk ->. apply (Hdisj m); apply list_elem_of_In; assumption. }
  assert (Hrun :
    forward split features labels filenames s =
      ({| self := me;
          records :=
            {| default_factory := true;
               items :=
                 items (records s)
                   ++ ("loss", [VFloat loss])
                   :: zip_with (fun m v => (m, [v])) (metrics me) vs
                   ++ [ ("hypothesis", [VStr h0]);
                        ("groundtruth", [VStr g0]);
                        ("filename", [VStr f0]) ] |};
          logger := logger s |}, Ok loss)).
  { rewrite (forward_run split features labels filenames s lp lpl loss h0 g0 f0
               Hf Hl Hmodel Hloss Hms Hh0 Hg0 Hf0 Hread).
    fold me tok hyp gt.
    rewrite (push_fresh "loss" _ (records s) Hd)
      by (apply Hfresh; left; reflexivity).
    rewrite (with_metrics_fresh lp lpl hyp gt (metrics me)
               {| default_factory := true;
                  items := items (records s) ++ [("loss", [VFloat loss])] |}
               vs eq_refl Hnd_ms);
      [|cbn [items]; intros m Hm; rewrite assoc_app_other;
        [apply Hfresh; right; apply in_or_app; left; exact Hm
        |apply Hin, in_or_app; left; exact Hm]
       |exact Hvs].
    assert (Hkeys : forall k, In k ["hypothesis"; "groundtruth"; "filename"] ->
              assoc k ((items (records s) ++ [("loss", [VFloat loss])])
                         ++ zip_with (fun m v => (m, [v])) (metrics me) vs) = None).
    { intros k Hk. apply assoc_None_of_keys. rewrite !map_app. cbn [map fst].
      intros Hc. apply in_app_or in Hc as [Hc|Hc];
        [apply in_app_or in Hc as [Hc|[Hc|[]]]|].
      - eapply assoc_None_keys; [|exact Hc].
        apply Hfresh. right. apply in_or_app. right. exact Hk.
      - apply (Hin k); [apply in_or_app; right; exact Hk | symmetry; exact Hc].
      - apply keys_zip in Hc. apply (Hfix k k Hc Hk). reflexivity. }
    rewrite (push_fresh "hypothesis"); cbn [items default_factory];
      [|reflexivity|apply Hkeys; cbn; tauto].
    rewrite (push_fresh "groundtruth"); cbn [items default_factory];
      [|reflexivity
       |rewrite assoc_app_other by discriminate; apply Hkeys; cbn; tauto].
    rewrite (push_fresh "filename"); cbn [items default_factory];
      [|reflexivity
       |rewrite !assoc_app_other by discriminate; apply Hkeys; cbn; tauto].
    rewrite <- !app_assoc. reflexivity. }
  split; [exact Hrun|].
  rewrite Hrun. cbn [fst records]. unfold keys. cbn [items].
  rewrite map_app. cbn [map fst]. rewrite map_app. cbn [map fst].
  rewrite keys_zip_eq by (apply (Forall2_length _ _ _ Hvs)). reflexivity.
Qed.

(** ** [forward] followed by [log_records] *)

(** X11: a batch that succeeds on records whose samples are aligned keeps
    them aligned, with one sample more; so once two samples are recorded,
    [log_records] returns on the records the batch leaves, provided their
    number fields can be averaged. *)
Theorem forward_then_log_records split split' step (features : list (list Frame))
    labels filenames (s : @State Frame PFrame) lp lpl loss :
  let me := self s in
  let tok := tokenizer me in
  let hyp := hypothesis_of tok lp in
  let gt := groundtruth_of tok (right_pad (pad_idx tok) labels) in
  let names := "loss" :: metrics me ++ ["hypothesis"; "groundtruth"; "filename"] in
  let s' := fst (forward split features labels filenames s) in
  features <> [] -> labels <> [] -> filenames <> [] -> lp <> [] ->
  model me (map (map (projector me)) (right_pad zero_frame features))
        (map len features) = Ok (lp, lpl) ->
  objective me (transpose lp) (right_pad (pad_idx tok) labels) lpl
            (map len labels) = Ok loss ->
  Forall (fun m => is_ok (metric_value lp lpl hyp gt m) = true) (metrics me) ->
  NoDup names ->
  Forall (fun k => readable k (records s)) names ->
  samples_aligned (records s) ->
  samples_aligned (records s') /\
  len (field "filename" (records s')) = len (field "filename" (records s)) + 1 /\
  (2 <= len (field "filename" (records s)) ->
   scalars_loggable me (items (records s')) ->
   exists save_names, snd (log_records split' step s') = Ok save_names).
Proof.
  intros me tok hyp gt names s' Hf Hl Hfn Hlp Hmodel Hloss Hms Hnd Hread [Hah Hag].
  destruct (forward_fields split features labels filenames s lp lpl loss
              Hf Hl Hfn Hlp Hmodel Hloss Hms Hnd Hread)
    as (_ & Hself & _ & _ & _ & (h0 & g0 & f0 & _ & _ & _ & Hh & Hg & Hfl) & _).
  fold s' in Hself, Hh, Hg, Hfl.
  assert (Hal : samples_aligned (records s')).
  { unfold samples_aligned. rewrite Hh, Hg, Hfl, !length_app. cbn. lia. }
  assert (Hlen : len (field "filename" (records s'))
                 = len (field "filename" (records s)) + 1).
  { unfold len. rewrite Hfl, length_app. cbn. lia. }
  split; [exact Hal|]. split; [exact Hlen|].
  intros Hn Hlog. apply log_records_returns.
  - rewrite Hself. exact Hlog.
  - exact Hal.
  - lia.
Qed.

(** X12: the ground-truth text of an utterance is decoded from its padded
    label row: every sequence handed to [decode] for the ground truth has
    the length of the longest label sequence of the batch, and the text
    recorded for the first utterance is the decoding, without collapsing
    repeats, of its labels followed by the padding tokens. *)
Theorem forward_groundtruth_padded split (features : list (list Frame)) labels
    filenames (s : @State Frame PFrame) lp lpl loss first rest :
  let me := self s in
  let tok := tokenizer me in
  let pad := pad_idx tok in
  let hyp := hypothesis_of tok lp in
  let gt := groundtruth_of tok (right_pad pad labels) in
  let names := "loss" :: metrics me ++ ["hypothesis"; "groundtruth"; "filename"] in
  features <> [] -> labels = first :: rest -> filenames <> [] -> lp <> [] ->
  model me (map (map (projector me)) (right_pad zero_frame features))
        (map len features) = Ok (lp, lpl) ->
  objective me (transpose lp) (right_pad pad labels) lpl (map len labels) = Ok loss ->
  Forall (fun m => is_ok (metric_value lp lpl hyp gt m) = true) (metrics me) ->
  NoDup names ->
  Forall (fun k => readable k (records s)) names ->
  gt = map (fun g => decode tok g false) (right_pad pad labels) /\
  Forall (fun g => length g = max_len labels) (right_pad pad labels) /\
  field "groundtruth" (records (fst (forward split features labels filenames s))) =
    field "groundtruth" (records s)
      ++ [VStr (decode tok (first ++ replicate (max_len labels - length first) pad)
                       false)].
Proof.
  intros me tok pad hyp gt names Hf El Hfn Hlp Hmodel Hloss Hms Hnd Hread.
  assert (Hl : labels <> []) by (rewrite El; discriminate).
  split; [reflexivity|]. split.
  - pose proof (right_pad_rows pad labels) as Hrows. unfold rows_of_length in Hrows.
    eapply Forall_impl; [exact Hrows|]. intros g Hg. unfold len in Hg. lia.
  - destruct (forward_fields split features labels filenames s lp lpl loss
                Hf Hl Hfn Hlp Hmodel Hloss Hms Hnd Hread)
      as (_ & _ & _ & _ & _ & (h0 & g0 & f0 & _ & Hg0 & _ & _ & Hg & _) & _).
    rewrite Hg.
    assert (Hrow : gt !! 0%nat =
              Some (decode tok (first ++ replicate (max_len labels - length first) pad)
                           false)).
    { unfold gt, groundtruth_of. rewrite list_lookup_fmap.
      rewrite (right_pad_lookup pad labels 0 first) by (rewrite El; reflexivity).
      reflexivity. }
    change (groundtruth_of (tokenizer (self s))
              (right_pad (pad_idx (tokenizer (self s))) labels)) with gt in Hg0.
    rewrite Hrow in Hg0. injection Hg0 as <-. reflexivity.
Qed.

Lemma scalar_loop_empty_field split step its k : forall acc (s : @State Frame PFrame),
  In (k, []) its ->
  exists e, snd (for_fold its (log_scalar split step) acc s) = Raise e.
Proof.
  induction its as [|item its IH]; intros acc s Hin; [destruct Hin|].
  cbn [for_fold]. rewrite run_bind.
  destruct Hin as [->|Hin].
  - unfold log_scalar. steps. eauto.
  - destruct (log_scalar split step acc item s) as [s1 [acc1|e]]; [|cbn; eauto].
    apply IH, Hin.
Qed.

Lemma assoc_In {A} k (a : A) (l : list (string * A)) :
  assoc k l = Some a -> In (k, a) l.
Proof.
  induction l as [|[k' a'] l IH]; cbn; [discriminate|].
  destruct (String.eqb_spec k k') as [->|Hne].
  - intros [= ->]. left. reflexivity.
  - intros Hk. right. apply IH, Hk.
Qed.

Lemma metrics_loop_first_unresolved_state lp lpl hyp gt pre m post e0 :
  forall (s : @State Frame PFrame),
  Forall (fun k => readable k (records s)) (pre ++ [m]) ->
  Forall (fun k => is_ok (metric_value lp lpl hyp gt k) = true) pre ->
  eval metric_scope metric_expression m = Raise e0 ->
  for_each (pre ++ m :: post) (record_metric lp lpl hyp gt) s =
    ({| self := self s;
        records := fst (Rec.get m (with_metrics lp lpl hyp gt (records s) pre));
        logger := logger s |}, Raise e0).
Proof.
  induction pre as [|k pre IH]; intros s Hread Hok Hm; cbn [app for_each];
    rewrite run_bind.
  - apply Forall_cons in Hread as [Hr _].
    unfold record_metric. rewrite run_bind, get_run by exact Hr.
    rewrite run_bind. unfold lift at 1. rewrite Hm. reflexivity.
  - cbn [app] in Hread. apply Forall_cons in Hread as [Hr Hread].
    apply Forall_cons in Hok as [Hk Hok].
    destruct (metric_value lp lpl hyp gt k) as [v|e] eqn:Hv; [|discriminate].
    rewrite (record_metric_run _ _ _ _ _ v) by assumption.
    rewrite IH; cbn [self records logger]; [|
      eapply Forall_impl; [exact Hread|]; intros k' Hk'; apply readable_push; assumption
      | assumption | assumption].
    rewrite with_metrics_cons, Hv. reflexivity.
Qed.

(** X13: a metric name that does not resolve poisons the records of a
    [defaultdict].  [forward] raises the error of [eval] on the first such
    name ([NameError] for a name that is not bound), but by then the
    subscription [records[metric]] has created the key with an empty list;
    [log_records] on the records left behind then never returns: it fails
    in the scalar loop, at the latest on the empty field. *)
Theorem unresolved_metric_then_log_records split split' step
    (features : list (list Frame)) labels filenames
    (s : @State Frame PFrame) lp lpl loss pre m post e0 :
  let me := self s in
  let tok := tokenizer me in
  let hyp := hypothesis_of tok lp in
  let gt := groundtruth_of tok (right_pad (pad_idx tok) labels) in
  let r := forward split features labels filenames s in
  metrics me = pre ++ m :: post ->
  eval metric_scope metric_expression m = Raise e0 ->
  Forall (fun k => is_ok (metric_value lp lpl hyp gt k) = true) pre ->
  features <> [] -> labels <> [] ->
  model me (map (map (projector me)) (right_pad zero_frame features))
        (map len features) = Ok (lp, lpl) ->
  objective me (transpose lp) (right_pad (pad_idx tok) labels) lpl
            (map len labels) = Ok loss ->
  default_factory (records s) = true ->
  assoc m (items (records s)) = None ->
  m <> "loss" -> ~ In m pre ->
  snd r = Raise e0 /\
  (is_name m = true -> e0 = NameError m /\ metric_scope m = None) /\
  assoc m (items (records (fst r))) = Some [] /\
  exists e, snd (log_records split' step (fst r)) = Raise e.
Proof.
  intros me tok hyp gt r Hms Hm Hok Hf Hl Hmodel Hloss Hd Hnone Hne Hpre.
  assert (Rall : forall k, readable k (records s)) by (intros k; left; exact Hd).
  set (s1 := {| self := me; records := push "loss" (VFloat loss) (records s);
                logger := logger s |}).
  assert (Hread1 : Forall (fun k => readable k (records s1)) (pre ++ [m])).
  { apply Forall_forall. intros k _. apply readable_push; apply Rall. }
  pose proof (metrics_loop_first_unresolved_state lp lpl hyp gt pre m post e0 s1
                Hread1 Hok Hm) as Hloop.
  rewrite <- Hms in Hloop.
  pose proof (forward_until_metrics split features labels filenames s lp lpl loss
                Hf Hl Hmodel Hloss (Rall "loss") _ _ Hloop) as Hrun.
  fold r in Hrun.
  set (r2 := with_metrics lp lpl hyp gt (records s1) pre) in *.
  assert (Hnone2 : assoc m (items r2) = None).
  { subst r2. rewrite with_metrics_other.
    - subst s1. cbn [records]. rewrite assoc_push_other; auto.
    - apply Forall_forall. intros k _. apply readable_push; apply Rall.
    - exact Hpre. }
  assert (Hr2 : readable m r2).
  { subst r2. apply with_metrics_readable.
    - apply Forall_forall. intros k _. apply readable_push; apply Rall.
    - apply readable_push; apply Rall. }
  destruct (get_readable m r2 Hr2) as (r3 & Hget & _ & Hsome & _).
  assert (Hempty : assoc m (items (records (fst r))) = Some []).
  { rewrite Hrun. cbn [fst records]. rewrite Hget. cbn [fst].
    rewrite Hsome. unfold field. rewrite Hnone2. reflexivity. }
  split; [rewrite Hrun; reflexivity|].
  split; [intros Hname; apply (eval_name_raises _ _ _ _ Hname Hm)|].
  split; [exact Hempty|].
  apply assoc_In in Hempty.
  destruct (scalar_loop_empty_field split' step _ m [] (fst r) Hempty) as [e He].
  exists e. rewrite log_records_unfold.
  destruct (for_fold _ _ _ (fst r)) as [s2 [names|e']]; cbn in *; congruence.
Qed.

(** ** Construction *)

Ltac rsteps := unfold mbind, result_bind, getkey; cbn beta iota.

(** X14: what a constructed expert is made of.  The tokenizer is the one
    loaded from the [text] section; the projector is the layer [nn.Linear]
    builds from the upstream width to [project_dim]; the model is what the
    selection evaluates to, applied to [project_dim], the tokenizer's
    vocabulary size, the upstream rate and the block of hyperparameters
    named after it; and the blank symbol of the CTC loss is the tokenizer's
    padding index, the value [forward] pads the labels with. *)
Theorem init_wiring dim rate runner
    (rc : Config.DownstreamRc TextRc Kwargs) me :
  __init__ dim rate runner rc = Ok me ->
  exists text modelrc project_dim model_select cls kwargs zero_infinity,
    Config.text rc = Some text /\
    load_text_encoder text = Ok (tokenizer me) /\
    Config.model rc = Some modelrc /\
    Config.project_dim modelrc = Some project_dim /\
    Config.select modelrc = Some model_select /\
    eval model_scope model_expression model_select = Ok cls /\
    Config.blocks modelrc !! model_select = Some kwargs /\
    Config.zero_infinity modelrc = Some zero_infinity /\
    upstream_dim me = dim /\
    nn_Linear dim project_dim = Ok (projector me) /\
    cls project_dim (vocab_size (tokenizer me)) rate kwargs = Ok (model me) /\
    objective me = nn_CTCLoss (pad_idx (tokenizer me)) zero_infinity.
Proof.
  unfold __init__. rsteps.
  destruct (Config.corpus rc) as [c|]; [|discriminate].
  destruct (Config.text rc) as [text|]; [|discriminate]. rsteps.
  destruct (load_text_encoder text) as [tok|e] eqn:Htok; [|discriminate].
  destruct (Config.model rc) as [modelrc|]; [|discriminate]. rsteps.
  destruct (Config.project_dim modelrc) as [pd|] eqn:Hpd; [|discriminate].
  destruct (nn_Linear dim pd) as [proj|e] eqn:Hlin; [|discriminate].
  destruct (Config.select modelrc) as [sel|] eqn:Hsel; [|discriminate]. rsteps.
  destruct (eval model_scope model_expression sel) as [cls|e] eqn:Hcls; [|discriminate].
  destruct (Config.blocks modelrc !! sel) as [kw|] eqn:Hkw; [|discriminate]. rsteps.
  destruct (cls pd (vocab_size tok) rate kw) as [mdl|e] eqn:Hmdl; [|discriminate].
  destruct (Config.zero_infinity modelrc) as [zi|] eqn:Hzi; [|discriminate].
  destruct (Config.eval_dataloaders runner) as [eds|]; [|discriminate].
  destruct (Config.metric rc) as [ms|]; [|discriminate].
  destruct (Config.metric_higher_better rc) as [hb|]; [|discriminate].
  intros [= <-]. cbn.
  exists text, modelrc, pd, sel, cls, kw, zi. repeat split; assumption || reflexivity.
Qed.

(** X15: the errors of construction.  The constructor raises nothing of its
    own: an error is the [KeyError] of one of the nine keys it reads, the
    error of [eval] on the selected model ([NameError] on the selection
    when it is a name that is not bound; the error of the evaluator, such as
    [SyntaxError], when it is no name), the [KeyError] of the missing block
    named after the model, or the error of one of the three collaborators it
    calls that can fail: the tokenizer loader, [nn.Linear] and the model
    constructor. *)
Theorem init_errors dim rate runner
    (rc : Config.DownstreamRc TextRc Kwargs) e :
  __init__ dim rate runner rc = Raise e ->
  (exists k, e = KeyError k /\
     In k ["corpus"; "text"; "model"; "project_dim"; "select"; "zero_infinity";
           "eval_dataloaders"; "metric"; "metric_higher_better"]) \/
  (exists modelrc model_select,
     Config.model rc = Some modelrc /\ Config.select modelrc = Some model_select /\
     (eval model_scope model_expression model_select = Raise e /\
      (is_name model_select = true ->
       e = NameError model_select /\ model_scope model_select = None) /\
      (is_name model_select = false -> model_expression model_select = Raise e)
      \/
      e = KeyError model_select /\ Config.blocks modelrc !! model_select = None)) \/
  (exists text, Config.text rc = Some text /\ load_text_encoder text = Raise e) \/
  (exists modelrc project_dim,
     Config.model rc = Some modelrc /\
     Config.project_dim modelrc = Some project_dim /\
     nn_Linear dim project_dim = Raise e) \/
  (exists text tok modelrc model_select cls project_dim kwargs,
     Config.text rc = Some text /\ load_text_encoder text = Ok tok /\
     Config.model rc = Some modelrc /\ Config.select modelrc = Some model_select /\
     eval model_scope model_expression model_select = Ok cls /\
     Config.project_dim modelrc = Some project_dim /\
     Config.blocks modelrc !! model_select = Some kwargs /\
     cls project_dim (vocab_size tok) rate kwargs = Raise e).
Proof.
  unfold __init__. rsteps.
  assert (Hkey : forall k,
    In k ["corpus"; "text"; "model"; "project_dim"; "select"; "zero_infinity";
          "eval_dataloaders"; "metric"; "metric_higher_better"] ->
    forall P : Prop, (exists k', KeyError k = KeyError k' /\
      In k' ["corpus"; "text"; "model"; "project_dim"; "select"; "zero_infinity";
             "eval_dataloaders"; "metric"; "metric_higher_better"]) \/ P).
  { intros k Hk P. left. exists k. split; [reflexivity|exact Hk]. }
  destruct (Config.corpus rc) as [c|];
    [|intros [= <-]; apply Hkey; cbn; tauto].
  destruct (Config.text rc) as [text|]; rsteps;
    [|intros [= <-]; apply Hkey; cbn; tauto].
  destruct (load_text_encoder text) as [tok|e'] eqn:Htok;
    [|intros [= <-]; right; right; left; eauto].
  destruct (Config.model rc) as [modelrc|]; rsteps;
    [|intros [= <-]; apply Hkey; cbn; tauto].
  destruct (Config.project_dim modelrc) as [pd|] eqn:Hpd;
    [|intros [= <-]; apply Hkey; cbn; tauto].
  destruct (nn_Linear dim pd) as [proj|e'] eqn:Hlin;
    [|intros [= <-]; right; right; right; left; exists modelrc, pd; auto].
  destruct (Config.select modelrc) as [sel|] eqn:Hsel; rsteps;
    [|intros [= <-]; apply Hkey; cbn; tauto].
  destruct (eval model_scope model_expression sel) as [cls|e'] eqn:Hcls.
  2:{ intros [= <-]. right. left. exists modelrc, sel.
      split; [reflexivity|]. split; [exact Hsel|]. left.
      split; [exact Hcls|]. split.
      - intros Hname. apply (eval_name_raises _ _ _ _ Hname Hcls).
      - intros Hname. rewrite eval_expression in Hcls by exact Hname. exact Hcls. }
  destruct (Config.blocks modelrc !! sel) as [kw|] eqn:Hkw; rsteps;
    [|intros [= <-]; right; left; exists modelrc, sel; auto].
  destruct (cls pd (vocab_size tok) rate kw) as [mdl|e'] eqn:Hmdl;
    [|intros [= <-]; right; right; right; right;
      exists text, tok, modelrc, sel, cls, pd, kw; auto 10].
  destruct (Config.zero_infinity modelrc) as [zi|];
    [|intros [= <-]; apply Hkey; cbn; tauto].
  destruct (Config.eval_dataloaders runner) as [eds|];
    [|intros [= <-]; apply Hkey; cbn; tauto].
  destruct (Config.metric rc) as [ms|];
    [|intros [= <-]; apply Hkey; cbn; tauto].
  destruct (Config.metric_higher_better rc) as [hb|];
    [|intros [= <-]; apply Hkey; cbn; tauto].
  discriminate.
Qed.

(** ** The task name *)

Lemma lower_ascii_not_upper c : is_upper (lower_ascii c) = false.
Proof. destruct c as [[] [] [] [] [] [] [] []]; vm_compute; reflexivity. Qed.

Lemma lower_ascii_fixed c : is_upper c = false -> lower_ascii c = c.
Proof. unfold lower_ascii, is_upper. intros ->. reflexivity. Qed.

Lemma lower_ascii_is_ascii c :
  (nat_of_ascii c <? 128)%nat = true -> (nat_of_ascii (lower_ascii c) <? 128)%nat = true.
Proof. destruct c as [[] [] [] [] [] [] [] []]; vm_compute; intros; congruence. Qed.

Lemma ascii_lower_idempotent s : ascii_lower (ascii_lower s) = ascii_lower s.
Proof.
  induction s as [|c s IH]; cbn; [reflexivity|].
  rewrite IH, (lower_ascii_fixed (lower_ascii c)) by apply lower_ascii_not_upper.
  reflexivity.
Qed.

Lemma ascii_lower_length s : String.length (ascii_lower s) = String.length s.
Proof. induction s as [|c s IH]; cbn; congruence. Qed.

Lemma ascii_lower_no_upper s :
  Forall (fun c => is_upper c = false) (list_ascii_of_string (ascii_lower s)).
Proof.
  induction s as [|c s IH]; cbn; constructor; [apply lower_ascii_not_upper|exact IH].
Qed.

Lemma ascii_lower_is_ascii s : is_ascii s = true -> is_ascii (ascii_lower s) = true.
Proof.
  unfold is_ascii. induction s as [|c s IH]; cbn [list_ascii_of_string ascii_lower forallb];
    [reflexivity|].
  intros Hs. apply andb_prop in Hs as [Hc Hs].
  rewrite (lower_ascii_is_ascii c Hc), (IH Hs). reflexivity.
Qed.

Lemma ctc_prefix s : "ctc-" +:+ s = String "c" (String "t" (String "c" (String "-" s))).
Proof. reflexivity. Qed.

(** X16: the task name.  When it can be formed it is the lowered corpus
    name behind the prefix [ctc-], so corpora with the same lowered name
    share their task name, hence the tags of what [log_records] logs.  For
    a corpus name that is all ASCII it is four characters longer than the
    name, free of upper-case ASCII letters, and unchanged by lowering it
    once more.  (Beyond ASCII [str.lower] can change the length.) *)
Theorem task_name_lower_case (me me' : @DownstreamExpert Frame PFrame) t :
  _get_task_name me = Ok t ->
  exists name,
    Config.name (corpus me) = Some name /\
    t = "ctc-" +:+ lower name /\
    (forall name', Config.name (corpus me') = Some name' ->
       lower name' = lower name -> _get_task_name me' = Ok t) /\
    (is_ascii name = true ->
     t = "ctc-" +:+ ascii_lower name /\
     String.length t = (4 + String.length name)%nat /\
     Forall (fun c => is_upper c = false) (list_ascii_of_string t) /\
     lower t = t).
Proof.
  unfold _get_task_name. rsteps.
  destruct (Config.name (corpus me)) as [name|]; [|discriminate].
  intros [= <-]. exists name. split; [reflexivity|]. split; [reflexivity|].
  split; [intros name' -> ->; reflexivity|].
  intros Hascii.
  assert (Hl : lower name = ascii_lower name)
    by (unfold lower; rewrite Hascii; reflexivity).
  rewrite Hl. split; [reflexivity|].
  split; [rewrite ctc_prefix; cbn [String.length]; rewrite ascii_lower_length;
          reflexivity|].
  split; [rewrite ctc_prefix; cbn [list_ascii_of_string];
          repeat (constructor; [reflexivity|]); apply ascii_lower_no_upper|].
  assert (Ht : is_ascii ("ctc-" +:+ ascii_lower name) = true).
  { rewrite ctc_prefix. unfold is_ascii. cbn [list_ascii_of_string forallb].
    apply ascii_lower_is_ascii in Hascii. unfold is_ascii in Hascii.
    rewrite Hascii. reflexivity. }
  unfold lower. rewrite Ht, !ctc_prefix. cbn [ascii_lower].
  rewrite ascii_lower_idempotent. reflexivity.
Qed.

(** ** Padding and transposition *)

Lemma take_padded {A} (v : A) m l :
  zip_with (fun n row => take (Z.to_nat n) row) (map len l)
           (map (fun s => s ++ replicate (m - length s) v) l) = l.
Proof.
  induction l as [|s l IH]; cbn [map zip_with]; [reflexivity|].
  rewrite IH. unfold len. rewrite Nat2Z.id, take_app_length. reflexivity.
Qed.

(** X17: padding loses nothing.  Cutting each row of the padded batch at
    the length [forward] records for it gives back the sequences of the
    batch, so the padded labels together with [labels_len], as the loss
    receives them, determine the label sequences; and every entry of a row
    from its recorded length on is the padding value. *)
Theorem right_pad_round_trip {A} (v : A) (sequences : list (list A)) :
  zip_with (fun n row => take (Z.to_nat n) row) (map len sequences)
           (right_pad v sequences) = sequences /\
  (forall i s row (j : nat), sequences !! i = Some s ->
     right_pad v sequences !! i = Some row ->
     (length s <= j < max_len sequences)%nat -> row !! j = Some v).
Proof.
  split; [apply take_padded|].
  intros i s row j Hs Hrow Hj.
  rewrite (right_pad_lookup v sequences i s Hs) in Hrow. injection Hrow as <-.
  rewrite lookup_app_r by lia. apply lookup_replicate_2. lia.
Qed.

Lemma transpose_cons {A} (row r : list A) rest :
  transpose (row :: r :: rest) = zip_with cons row (transpose (r :: rest)).
Proof. reflexivity. Qed.

Lemma transpose_spec {A} (n : nat) (t : list (list A)) :
  t <> [] -> Forall (fun row => length row = n) t ->
  length (transpose t) = n /\
  Forall (fun col => length col = length t) (transpose t) /\
  (forall i j, transpose t !! j ≫= (.!! i) = t !! i ≫= (.!! j)).
Proof.
  induction t as [|row rest IH]; [contradiction|]. intros _ Hrows.
  apply Forall_cons in Hrows as [Hrow Hrest].
  destruct rest as [|r rest].
  - cbn [transpose]. split; [rewrite length_map; exact Hrow|]. split.
    + apply Forall_forall. intros col Hcol. apply list_elem_of_In in Hcol.
      apply in_map_iff in Hcol as (x & <- & _). reflexivity.
    + intros i j. rewrite list_lookup_fmap.
      destruct (row !! j) as [x|] eqn:Hx; cbn.
      * destruct i as [|i]; cbn; [rewrite Hx; reflexivity|].
        destruct i; reflexivity.
      * destruct i as [|i]; cbn; [rewrite Hx; reflexivity|].
        destruct i; reflexivity.
  - destruct (IH ltac:(discriminate) Hrest) as (Hlen & Hcols & Hlook).
    rewrite transpose_cons. set (tr := transpose (r :: rest)) in *. clearbody tr.
    split; [rewrite length_zip_with; lia|]. split.
    + apply Forall_forall. intros col Hcol.
      apply elem_of_lookup_zip_with in Hcol as (j & x & c & -> & _ & Hc).
      cbn [length]. f_equal.
      rewrite Forall_forall in Hcols. apply Hcols.
      eapply list_elem_of_lookup_2, Hc.
    + intros i j. rewrite lookup_zip_with.
      destruct (row !! j) as [x|] eqn:Hx; cbn.
      * destruct (tr !! j) as [c|] eqn:Hc; cbn.
        -- destruct i as [|i]; cbn; [rewrite Hx; reflexivity|].
           specialize (Hlook i j). rewrite Hc in Hlook. exact Hlook.
        -- apply lookup_lt_Some in Hx. apply lookup_ge_None in Hc. lia.
      * destruct i as [|i]; cbn; [rewrite Hx; reflexivity|].
        specialize (Hlook i j).
        apply lookup_ge_None in Hx.
        rewrite (lookup_ge_None_2 tr j) in Hlook by lia. exact Hlook.
Qed.

Lemma nested_lookup_eq {A} (n : nat) (t u : list (list A)) :
  length t = length u ->
  Forall (fun row => length row = n) t ->
  Forall (fun row => length row = n) u ->
  (forall i j, t !! i ≫= (.!! j) = u !! i ≫= (.!! j)) ->
  t = u.
Proof.
  intros Hlen Ht Hu Heq. apply list_eq. intros i.
  destruct (t !! i) as [row|] eqn:Hrow.
  - destruct (lookup_lt_is_Some_2 u i) as [row' Hrow'];
      [apply lookup_lt_Some in Hrow; lia|].
    rewrite Hrow'. f_equal. apply list_eq. intros j.
    specialize (Heq i j). rewrite Hrow, Hrow' in Heq. exact Heq.
  - apply lookup_ge_None in Hrow. symmetry. apply lookup_ge_None. lia.
Qed.

(** X18: the transposition [forward] hands to the loss.  For a batch of
    [N >= 1] rows of [T] entries each, [transpose] gives [T] rows of [N]
    entries, its entry at [(j, i)] is the entry of the batch at [(i, j)]:
    [(N, T, C) -> (T, N, C)], as the comment in the source says; and for
    [T >= 1] transposing twice gives the batch back. *)
Theorem transpose_time_first {A} (T : nat) (t : list (list A)) :
  t <> [] -> Forall (fun row => length row = T) t ->
  length (transpose t) = T /\
  Forall (fun col => length col = length t) (transpose t) /\
  (forall i j, transpose t !! j ≫= (.!! i) = t !! i ≫= (.!! j)) /\
  (T <> 0%nat -> transpose (transpose t) = t).
Proof.
  intros Hne Hrows.
  destruct (transpose_spec T t Hne Hrows) as (Hlen & Hcols & Hlook).
  split; [exact Hlen|]. split; [exact Hcols|]. split; [exact Hlook|].
  intros HT.
  assert (Hne' : transpose t <> []) by (intros E; rewrite E in Hlen; cbn in Hlen; lia).
  destruct (transpose_spec (length t) (transpose t) Hne' Hcols)
    as (Hlen2 & Hcols2 & Hlook2).
  apply (nested_lookup_eq T).
  - rewrite Hlen2. reflexivity.
  - rewrite Hlen in Hcols2. exact Hcols2.
  - exact Hrows.
  - intros i j. rewrite Hlook2. apply Hlook.
Qed.
End Coverage.

(** * The properties on explicit inputs *)

Ltac loggable_item :=
  eexists; split;
  [ reflexivity
  | cbn; let Hn := fresh in
    intros Hn; first [ discriminate Hn | eexists; vm_compute; reflexivity ] ].

Ltac demo_loggable :=
  split; [discriminate|]; split; [discriminate|]; split; [discriminate|];
  repeat (apply Forall_cons; split; [loggable_item|]); apply Forall_nil; exact I.

Ltac demo_nodup := apply (bool_decide_unpack _); vm_compute; exact I.

Ltac demo_aligned := split; vm_compute; lia.

Lemma log_records_best_score_witness :
  let s := Demo.epoch false [F32.c0_75; F32.c0_75; F32.c0_75] in
  let r := log_records "dev-clean" 100 s in
  NoDup (keys (records s)) /\
  metric_higher_better (self s) = false /\
  best_score (self s) = F32.of_Z (2 ^ 31) /\
  F32.lt F32.c0_75 (best_score (self s)) = true /\
  snd r = Ok ["dev-clean-best.ckpt"] /\
  best_score (self (fst r)) = F32.c0_75.
Proof.
  intros s r. subst r.
  assert (Hnd : NoDup (keys (records s))) by demo_nodup.
  pose proof (log_records_best_score "dev-clean" 100 s Hnd)
    as (_ & _ & Hcases & _ & Hret).
  split; [exact Hnd|]. split; [reflexivity|]. split; [reflexivity|].
  split; [vm_compute; reflexivity|].
  destruct Hret as [names Hnames].
  - demo_loggable.
  - demo_aligned.
  - vm_compute. discriminate.
  - rewrite Hnames.
    destruct (Hcases names Hnames)
      as [(key & values & average & Hin & (Hkey & _ & Hmean & _) & Hbest & _ & ->)
         |(Hno & _ & _)].
    + injection Hkey as <-.
      assert (Hvalues : values = map VFloat [F32.c0_75; F32.c0_75; F32.c0_75]).
      { destruct Hin as [E|[E|[E|[E|[E|[]]]]]];
          first [discriminate E | injection E as E2; symmetry; exact E2]. }
      subst values. vm_compute in Hmean. injection Hmean as <-.
      split; [reflexivity|exact Hbest].
    + exfalso.
      apply (Hno "wer" (map VFloat [F32.c0_75; F32.c0_75; F32.c0_75]) F32.c0_75).
      * right. left. reflexivity.
      * split; [reflexivity|]. split; [eexists; split; reflexivity|].
        split; [vm_compute; reflexivity|]. split; [reflexivity|].
        vm_compute. reflexivity.
Defined.

Lemma initial_best_score_bound_witness :
  let me := Demo.scored false in
  let s := Demo.epoch false [F32.c0_75; F32.c0_75; F32.c0_75] in
  __init__ 27 1 Demo.runner (Demo.config "RNNs" ["wer"] false) = Ok me /\
  best_score me = F32.of_Z (2 ^ 31) /\
  snd (log_records "dev-clean" 100 s) = Ok ["dev-clean-best.ckpt"] /\
  best_score (self (fst (log_records "dev-clean" 100 s))) = F32.c0_75.
Proof.
  intros me s.
  assert (Hinit : __init__ 27 1 Demo.runner (Demo.config "RNNs" ["wer"] false) = Ok me)
    by reflexivity.
  destruct (initial_best_score_bound 27 1 Demo.runner _ me Hinit) as [Hbest Hfirst].
  split; [exact Hinit|]. split; [exact Hbest|].
  apply (Hfirst "dev-clean" 100 (Demo.sampled [F32.c0_75; F32.c0_75; F32.c0_75]) []
           "wer" (map VFloat [F32.c0_75; F32.c0_75; F32.c0_75]) F32.c0_75).
  - demo_nodup.
  - demo_loggable.
  - demo_aligned.
  - vm_compute. discriminate.
  - reflexivity.
  - reflexivity.
  - cbn. auto.
  - eexists. split; reflexivity.
  - vm_compute. reflexivity.
Defined.

(** C2, as stated, fails: right after construction with lower-is-better,
    the finite first mean 2^31 on the first evaluation split saves nothing;
    nor does the first mean 0 with higher-is-better. *)
Lemma initial_best_score_not_infinite :
  let me := Demo.scored false in
  let x := F32.of_Z (2 ^ 31) in
  let s := Demo.epoch false [x; x; x] in
  let s0 := Demo.epoch true [F32.zero; F32.zero; F32.zero] in
  __init__ 27 1 Demo.runner (Demo.config "RNNs" ["wer"] false) = Ok me /\
  eval_dataloaders me !! 0%nat = Some "dev-clean" /\
  FloatTensor_mean (map VFloat [x; x; x]) = Ok x /\
  F32.is_finite x = true /\
  snd (log_records "dev-clean" 100 s) = Ok [] /\
  best_score (self (fst (log_records "dev-clean" 100 s))) = best_score me /\
  __init__ 27 1 Demo.runner (Demo.config "RNNs" ["wer"] true) = Ok (self s0) /\
  FloatTensor_mean (map VFloat [F32.zero; F32.zero; F32.zero]) = Ok F32.zero /\
  snd (log_records "dev-clean" 100 s0) = Ok [].
Proof. vm_compute. repeat split. Qed.

Lemma best_score_two_epochs_witness :
  let s := Demo.epoch true [F32.c0_75; F32.c0_75; F32.c0_75] in
  let records' := Demo.sampled [F32.c0_60; F32.c0_60; F32.c0_60] in
  let first := log_records "dev-clean" 100 s in
  let second :=
    log_records "dev-clean" 200
      {| self := self (fst first); records := records';
         logger := logger (fst first) |} in
  metric_higher_better (self s) = true /\
  best_score (self s) = F32.zero /\
  snd first = Ok ["dev-clean-best.ckpt"] /\
  best_score (self (fst first)) = F32.c0_75 /\
  snd second = Ok [] /\
  best_score (self (fst second)) = F32.c0_75.
Proof.
  intros s records' first second.
  split; [reflexivity|]. split; [reflexivity|].
  apply (best_score_two_epochs "dev-clean" 100 200 s records' "wer"
           (map VFloat [F32.c0_75; F32.c0_75; F32.c0_75])
           (map VFloat [F32.c0_60; F32.c0_60; F32.c0_60])).
  - reflexivity.
  - reflexivity.
  - reflexivity.
  - reflexivity.
  - demo_nodup.
  - demo_loggable.
  - demo_aligned.
  - vm_compute. discriminate.
  - cbn. auto.
  - eexists. split; reflexivity.
  - vm_compute. reflexivity.
  - demo_nodup.
  - demo_loggable.
  - demo_aligned.
  - vm_compute. discriminate.
  - cbn. auto.
  - eexists. split; reflexivity.
  - vm_compute. reflexivity.
Defined.

Ltac demo_readable := repeat (apply Forall_cons; split; [left; reflexivity|]);
                      apply Forall_nil; exact I.

Ltac demo_metrics_ok :=
  repeat (apply Forall_cons; split; [vm_compute; reflexivity|]);
  apply Forall_nil; exact I.

Lemma forward_appends_witness :
  let s := Demo.batch_state ["wer"; "cer"] in
  let r := forward "train" Demo.batch_features Demo.batch_labels Demo.batch_filenames s in
  (1 <= 2)%nat /\
  length Demo.batch_features = 2%nat /\
  snd r = Ok (F32.of_Z 2) /\
  field "loss" (records (fst r)) = [VFloat (F32.of_Z 2)] /\
  keys (records (fst r)) = ["loss"; "wer"; "cer"; "hypothesis"; "groundtruth"; "filename"] /\
  field "filename" (records (fst r)) = [VStr "utt1"].
Proof.
  intros s r. subst r.
  destruct (forward_appends "train" Demo.batch_features Demo.batch_labels Demo.batch_filenames s 2
              Demo.batch_log_probs [4; 2] (F32.of_Z 2))
    as (Hloss & _ & _ & Hl & _ & (h0 & g0 & f0 & _ & _ & Hf0 & _ & _ & Hfn) & _).
  - lia.
  - reflexivity.
  - reflexivity.
  - reflexivity.
  - reflexivity.
  - reflexivity.
  - reflexivity.
  - demo_metrics_ok.
  - demo_nodup.
  - demo_readable.
  - split; [lia|]. split; [reflexivity|]. split; [exact Hloss|].
    split; [exact Hl|]. split; [vm_compute; reflexivity|].
    rewrite Hfn. cbn in Hf0. injection Hf0 as <-. reflexivity.
Defined.


Lemma log_records_text_entries_witness :
  let s := Demo.epoch false Demo.six in
  let r := log_records "dev-clean" 100 s in
  5 <= len (field "filename" (records s)) /\
  exists evs,
    texts (logger (fst r)) = texts (logger s) ++ evs /\
    4 <= Z.of_nat (length evs) <= 7.
Proof.
  intros s r. subst r.
  assert (Hn : 5 <= len (field "filename" (records s))) by (vm_compute; discriminate).
  destruct (log_records_text_entries "dev-clean" 100 s)
    as (names & task & evs & _ & _ & Htexts & _ & _ & Hbounds & _).
  - demo_loggable.
  - demo_aligned.
  - exact Hn.
  - split; [exact Hn|]. exists evs. split; assumption.
Defined.

(** C6, as stated, fails: Demo.six recorded samples give stride 1 and Demo.six text
    entries, eight recorded samples give stride 2 and four. *)
Lemma six_samples_six_entries :
  let s6 := Demo.epoch false Demo.six in
  let s8 := Demo.epoch false (replicate 8 F32.c0_75) in
  5 <= len (field "filename" (records s6)) /\
  round_div (len (field "filename" (records s6))) 5 = 1 /\
  texts (logger s6) = [] /\
  length (texts (logger (fst (log_records "dev-clean" 100 s6)))) = 6%nat /\
  5 <= len (field "filename" (records s8)) /\
  length (texts (logger (fst (log_records "dev-clean" 100 s8)))) = 4%nat.
Proof. vm_compute. repeat split; discriminate. Qed.

Lemma log_records_zero_stride_witness :
  let s := Demo.epoch false [F32.c0_75; F32.c0_75] in
  readable "filename" (records s) /\
  len (field "filename" (records s)) < 3 /\
  snd (log_records "dev-clean" 100 s) = Raise ValueError.
Proof.
  intros s.
  assert (Hr : readable "filename" (records s)) by (left; reflexivity).
  assert (Hn : len (field "filename" (records s)) < 3) by reflexivity.
  destruct (log_records_zero_stride "dev-clean" 100 s) as (Hzero & _).
  - demo_loggable.
  - exact Hr.
  - split; [exact Hr|]. split; [exact Hn|]. apply Hzero. exact Hn.
Defined.

(** C7, as stated, fails: with three or four recorded samples, fewer than
    five, the stride is 1 and the call returns. *)
Lemma three_samples_no_error :
  let s3 := Demo.epoch false [F32.c0_75; F32.c0_75; F32.c0_75] in
  let s4 := Demo.epoch false [F32.c0_75; F32.c0_75; F32.c0_75; F32.c0_75] in
  len (field "filename" (records s3)) = 3 /\
  round_div 3 5 = 1 /\
  snd (log_records "dev-clean" 100 s3) = Ok ["dev-clean-best.ckpt"] /\
  len (field "filename" (records s4)) = 4 /\
  snd (log_records "dev-clean" 100 s4) = Ok ["dev-clean-best.ckpt"].
Proof. vm_compute. repeat split. Qed.

Lemma construction_errors_witness :
  let rc := Demo.config "LSTM" ["wer"] false in
  let bad := Demo.config "1+" ["wer"] false in
  let ok := Demo.config "RNNs" ["wer"] false in
  is_name "LSTM" = true /\ model_scope "LSTM" = None /\
  __init__ 27 1 Demo.runner rc = Raise (NameError "LSTM") /\
  is_name "1+" = false /\
  __init__ 27 1 Demo.runner bad = Raise SyntaxError /\
  complete Demo.runner ok = true /\
  (exists me, __init__ 27 1 Demo.runner ok = Ok me /\ tokenizer me = Demo.letters) /\
  complete Demo.runner (Demo.negative_width "RNNs") = true /\
  __init__ 27 1 Demo.runner (Demo.negative_width "RNNs") = Raise RuntimeError /\
  __init__ 27 1 Demo.runner (Demo.negative_width "LSTM") = Raise RuntimeError /\
  exists e, __init__ 27 1 Demo.runner (Demo.negative_width "LSTM") = Raise e.
Proof.
  intros rc bad ok.
  destruct (construction_errors 27 1 Demo.runner (Demo.negative_width "LSTM") _ "LSTM"
              eq_refl eq_refl) as (Hnarrow & _).
  destruct (construction_errors 27 1 Demo.runner rc (Demo.modelrc "LSTM") "LSTM"
              eq_refl eq_refl) as (Hunknown & _).
  destruct (construction_errors 27 1 Demo.runner bad (Demo.modelrc "1+") "1+"
              eq_refl eq_refl) as (_ & Hexpr & _).
  destruct (construction_errors 27 1 Demo.runner ok (Demo.modelrc "RNNs") "RNNs"
              eq_refl eq_refl) as (_ & _ & _ & _ & Hknown).
  assert (Hreach : forall select,
            reaches_model_lookup 27 (Demo.config select ["wer"] false)
                                 (Demo.modelrc select)).
  { intros select. split; [discriminate|].
    split; [exists tt, Demo.letters; split; reflexivity|].
    split; [reflexivity|]. exists 27, (fun x => x). split; reflexivity. }
  split; [reflexivity|]. split; [reflexivity|].
  split; [apply (Hunknown eq_refl eq_refl), Hreach|].
  split; [reflexivity|].
  split; [apply (Hexpr SyntaxError eq_refl eq_refl), Hreach|].
  split; [reflexivity|].
  assert (Hcls : exists mdl, Demo.rnn 27 27 1 tt = Ok mdl) by (eexists; reflexivity).
  destruct Hcls as [mdl Hmdl].
  split.
  - destruct (Hknown Demo.rnn tt Demo.letters 27 (fun x => x) tt mdl)
      as (me & Hme & Htok & _); try reflexivity.
    + exact Hmdl.
    + exists me. split; [exact Hme|exact Htok].
  - split; [reflexivity|]. split; [reflexivity|]. split; [reflexivity|].
    exact (proj1 (Hnarrow eq_refl eq_refl)).
Defined.

Lemma forward_unresolved_metric_witness :
  let s := Demo.batch_state ["wer"; "bleu"; "cer"] in
  let r := forward "train" Demo.batch_features Demo.batch_labels Demo.batch_filenames s in
  __init__ 27 1 Demo.runner (Demo.config "RNNs" ["wer"; "bleu"; "cer"] false)
    = Ok (self s) /\
  is_name "bleu" = true /\
  metric_scope "bleu" = None /\
  snd r = Raise (NameError "bleu") /\
  (exists more, field "loss" (records (fst r)) = [] ++ VFloat (F32.of_Z 2) :: more) /\
  records (fst r) <> records s.
Proof.
  intros s r. subst r.
  assert (Hinit : __init__ 27 1 Demo.runner
                    (Demo.config "RNNs" ["wer"; "bleu"; "cer"] false) = Ok (self s))
    by reflexivity.
  destruct (forward_unresolved_metric 27 1 Demo.runner _ "train" Demo.batch_features
              Demo.batch_labels Demo.batch_filenames s Demo.batch_log_probs [4; 2] (F32.of_Z 2) "bleu"
              (NameError "bleu") Hinit)
    as (_ & Hloss & Hne & Hname & Hunbound).
  - right. left. reflexivity.
  - reflexivity.
  - discriminate.
  - discriminate.
  - reflexivity.
  - reflexivity.
  - left. reflexivity.
  - split; [exact Hinit|]. split; [reflexivity|].
    split; [exact (proj2 (Hunbound eq_refl))|].
    split; [|split; [exact Hloss|exact Hne]].
    apply (Hname ["wer"] ["cer"]).
    + reflexivity.
    + demo_readable.
    + demo_metrics_ok.
Defined.

Lemma forward_decodes_padded_rows_witness :
  let s := Demo.batch_state ["wer"] in
  let r := forward "train" Demo.batch_features Demo.batch_labels Demo.batch_filenames s in
  rows_of_length 4 Demo.batch_log_probs /\
  pred_tokens Demo.batch_log_probs = [[1; 2; 2; 3]; [1; 1; 0; 0]] /\
  Forall (fun h => len h = 4) (pred_tokens Demo.batch_log_probs) /\
  field "hypothesis" (records (fst r)) = [VStr "abc"].
Proof.
  intros s r. subst r.
  assert (Hrows : rows_of_length 4 Demo.batch_log_probs).
  { repeat (apply Forall_cons; split; [reflexivity|]). apply Forall_nil. exact I. }
  destruct (forward_decodes_padded_rows "train" Demo.batch_features Demo.batch_labels
              Demo.batch_filenames s Demo.batch_log_probs [4; 2] (F32.of_Z 2)
              (map (Demo.one_hot 27) [1; 2; 2; 3])
              [map (Demo.one_hot 27) [1; 1; 0; 0]] 4)
    as (_ & Hlen & _ & Hhyp).
  - discriminate.
  - discriminate.
  - discriminate.
  - reflexivity.
  - reflexivity.
  - exact Hrows.
  - reflexivity.
  - demo_metrics_ok.
  - demo_nodup.
  - demo_readable.
  - split; [exact Hrows|]. split; [vm_compute; reflexivity|].
    split; [exact Hlen|]. rewrite Hhyp. vm_compute. reflexivity.
Defined.

Lemma log_records_logger_witness :
  let s := Demo.epoch false [F32.c0_75; F32.c0_75; F32.c0_75] in
  let r := log_records "dev-clean" 100 s in
  3 <= len (field "filename" (records s)) /\
  exists evs,
    logger (fst r) =
      concat (map (scalar_events "ctc-librispeech" "dev-clean" 100) (items (records s)))
        ++ evs /\
    length evs = 3%nat.
Proof.
  intros s r. subst r.
  assert (Hn : 3 <= len (field "filename" (records s))) by (vm_compute; discriminate).
  destruct (log_records_logger "dev-clean" 100 s)
    as (task & evs & Htask & _ & _ & Hlog & Hevs).
  - demo_loggable.
  - demo_aligned.
  - exact Hn.
  - split; [exact Hn|]. exists evs. split.
    + injection Htask as <-. exact Hlog.
    + apply Forall2_length in Hevs. rewrite <- Hevs. reflexivity.
Defined.


Lemma log_records_no_save_witness :
  let s := Demo.epoch false [F32.c0_75; F32.c0_75; F32.c0_75] in
  let r := log_records "test-clean" 100 s in
  NoDup (keys (records s)) /\
  eval_dataloaders (self s) !! 0%nat <> Some "test-clean" /\
  self (fst r) = self s /\
  (forall save_names, snd r = Ok save_names -> save_names = []).
Proof.
  intros s r. subst r.
  assert (Hnd : NoDup (keys (records s))) by demo_nodup.
  assert (Hsplit : eval_dataloaders (self s) !! 0%nat <> Some "test-clean")
    by discriminate.
  split; [exact Hnd|]. split; [exact Hsplit|].
  apply (log_records_no_save "test-clean" 100 s Hnd). left. exact Hsplit.
Defined.

Lemma log_records_without_filename_witness :
  let s := Demo.state (Demo.scored false) (Demo.scalars_only [F32.c0_75; F32.c0_60]) in
  let r := log_records "dev-clean" 100 s in
  assoc "filename" (items (records s)) = None /\
  snd r = Raise ValueError /\
  items (records (fst r)) = items (records s) ++ [("filename", [])].
Proof.
  intros s r. subst r.
  destruct (log_records_without_filename "dev-clean" 100 s) as (_ & Hdefault).
  - demo_loggable.
  - reflexivity.
  - destruct (Hdefault eq_refl) as (Herr & _ & Hitems).
    split; [reflexivity|]. split; [exact Herr|exact Hitems].
Defined.

Lemma log_records_first_bad_field_witness :
  let s := Demo.state (Demo.scored false) Demo.poisoned in
  let r := log_records "dev-clean" 100 s in
  items (records s) = [("loss", [VFloat Demo.one])] ++ [("bleu", [])] /\
  snd r = Raise IndexError /\
  records (fst r) = records s /\
  logger (fst r) =
    scalar_events "ctc-librispeech" "dev-clean" 100 ("loss", [VFloat Demo.one]).
Proof.
  intros s r. subst r.
  destruct (log_records_first_bad_field "dev-clean" 100 s
              [("loss", [VFloat Demo.one])] "bleu" [] [] "ctc-librispeech")
    as (Hempty & _ & Hstate).
  - reflexivity.
  - reflexivity.
  - demo_loggable.
  - destruct (Hstate (or_introl eq_refl)) as (Hrec & Hlog).
    split; [reflexivity|]. split; [exact (Hempty eq_refl)|].
    split; [exact Hrec|]. rewrite Hlog. cbn [map concat logger Demo.state app].
    rewrite app_nil_r. reflexivity.
Defined.

Lemma log_records_config_gaps_witness :
  let s := Demo.state (Demo.expert [] false)
             (Demo.sampled [F32.c0_75; F32.c0_75; F32.c0_75]) in
  let r := log_records "dev-clean" 100 s in
  metrics (self s) = [] /\
  FloatTensor_mean (map VFloat [F32.c0_75; F32.c0_75; F32.c0_75]) = Ok F32.c0_75 /\
  snd r = Raise IndexError /\
  self (fst r) = self s /\
  length (logger (fst r)) = 2%nat.
Proof.
  intros s r. subst r.
  assert (Hmean : FloatTensor_mean (map VFloat [F32.c0_75; F32.c0_75; F32.c0_75])
                  = Ok F32.c0_75) by (vm_compute; reflexivity).
  destruct (log_records_config_gaps "dev-clean" 100 s "loss" (VFloat F32.c0_75)
              (map VFloat [F32.c0_75; F32.c0_75])
              [ ("wer", map VFloat [F32.c0_75; F32.c0_75; F32.c0_75]);
                ("hypothesis", map (fun _ => VStr "ab") [F32.c0_75; F32.c0_75; F32.c0_75]);
                ("groundtruth", map (fun _ => VStr "ab") [F32.c0_75; F32.c0_75; F32.c0_75]);
                ("filename", map (fun _ => VStr "utt") [F32.c0_75; F32.c0_75; F32.c0_75]) ]
              F32.c0_75 eq_refl eq_refl Hmean) as (_ & Hgap).
  specialize (Hgap "ctc-librispeech" eq_refl (or_introl eq_refl)).
  split; [reflexivity|]. split; [exact Hmean|].
  rewrite Hgap. repeat split.
Defined.

Lemma forward_creates_fields_in_order_witness :
  let s := Demo.batch_state ["wer"; "cer"] in
  let r := forward "train" Demo.batch_features Demo.batch_labels Demo.batch_filenames s in
  items (records s) = [] /\
  snd r = Ok (F32.of_Z 2) /\
  keys (records (fst r)) =
    ["loss"; "wer"; "cer"; "hypothesis"; "groundtruth"; "filename"].
Proof.
  intros s r. subst r.
  destruct (forward_creates_fields_in_order "train" Demo.batch_features
              Demo.batch_labels Demo.batch_filenames s Demo.batch_log_probs [4; 2]
              (F32.of_Z 2))
    as (vs & h0 & g0 & f0 & _ & _ & _ & _ & Hrun & Hkeys).
  - discriminate.
  - discriminate.
  - discriminate.
  - discriminate.
  - reflexivity.
  - reflexivity.
  - demo_metrics_ok.
  - demo_nodup.
  - reflexivity.
  - reflexivity.
  - split; [reflexivity|]. split; [rewrite Hrun; reflexivity|exact Hkeys].
Defined.

Lemma forward_then_log_records_witness :
  let s := Demo.epoch false [F32.c0_75; F32.c0_75] in
  let s' := fst (forward "dev-clean" Demo.batch_features Demo.batch_labels
                   Demo.batch_filenames s) in
  samples_aligned (records s) /\
  len (field "filename" (records s)) = 2 /\
  samples_aligned (records s') /\
  len (field "filename" (records s')) = 3 /\
  exists save_names, snd (log_records "dev-clean" 100 s') = Ok save_names.
Proof.
  intros s s'. subst s'.
  assert (Hal : samples_aligned (records s)) by demo_aligned.
  destruct (forward_then_log_records "dev-clean" "dev-clean" 100 Demo.batch_features
              Demo.batch_labels Demo.batch_filenames s Demo.batch_log_probs [4; 2]
              (F32.of_Z 2))
    as (Hal' & Hlen & Hret).
  - discriminate.
  - discriminate.
  - discriminate.
  - discriminate.
  - reflexivity.
  - reflexivity.
  - demo_metrics_ok.
  - demo_nodup.
  - demo_readable.
  - exact Hal.
  - split; [exact Hal|]. split; [reflexivity|]. split; [exact Hal'|].
    split; [exact Hlen|]. apply Hret; [vm_compute; discriminate|].
    demo_loggable.
Defined.

Lemma forward_groundtruth_padded_witness :
  let s := Demo.batch_state ["wer"] in
  let r := forward "train" Demo.batch_features Demo.short_first Demo.batch_filenames s in
  right_pad 0 Demo.short_first = [[1; 0; 0]; [1; 2; 3]] /\
  Forall (fun g => length g = 3%nat) (right_pad 0 Demo.short_first) /\
  field "groundtruth" (records (fst r)) =
    [VStr (decode Demo.letters [1; 0; 0] false)].
Proof.
  intros s r. subst r.
  destruct (forward_groundtruth_padded "train" Demo.batch_features Demo.short_first
              Demo.batch_filenames s Demo.batch_log_probs [4; 2] (F32.of_Z 2)
              [1] [[1; 2; 3]])
    as (_ & Hrows & Hgt).
  - discriminate.
  - reflexivity.
  - discriminate.
  - discriminate.
  - reflexivity.
  - reflexivity.
  - demo_metrics_ok.
  - demo_nodup.
  - demo_readable.
  - split; [reflexivity|]. split; [exact Hrows|exact Hgt].
Defined.

Lemma unresolved_metric_then_log_records_witness :
  let s := Demo.batch_state ["wer"; "bleu"; "cer"] in
  let r := forward "train" Demo.batch_features Demo.batch_labels Demo.batch_filenames s in
  is_name "bleu" = true /\
  metric_scope "bleu" = None /\
  snd r = Raise (NameError "bleu") /\
  assoc "bleu" (items (records (fst r))) = Some [] /\
  exists e, snd (log_records "train" 100 (fst r)) = Raise e.
Proof.
  intros s r. subst r.
  destruct (unresolved_metric_then_log_records "train" "train" 100 Demo.batch_features
              Demo.batch_labels Demo.batch_filenames s Demo.batch_log_probs [4; 2]
              (F32.of_Z 2) ["wer"] "bleu" ["cer"] (NameError "bleu"))
    as (Herr & Hunbound & Hempty & Hlog).
  - reflexivity.
  - reflexivity.
  - demo_metrics_ok.
  - discriminate.
  - discriminate.
  - reflexivity.
  - reflexivity.
  - reflexivity.
  - reflexivity.
  - discriminate.
  - intros [Hin|[]]. discriminate Hin.
  - split; [reflexivity|]. split; [exact (proj2 (Hunbound eq_refl))|].
    split; [exact Herr|]. split; [exact Hempty|exact Hlog].
Defined.

Lemma init_wiring_witness :
  let me := Demo.scored false in
  __init__ 27 1 Demo.runner (Demo.config "RNNs" ["wer"] false) = Ok me /\
  exists project_dim zero_infinity,
    nn_Linear 27 project_dim = Ok (projector me) /\
    objective me = nn_CTCLoss (pad_idx (tokenizer me)) zero_infinity.
Proof.
  intros me.
  assert (Hinit : __init__ 27 1 Demo.runner (Demo.config "RNNs" ["wer"] false) = Ok me)
    by reflexivity.
  destruct (init_wiring 27 1 Demo.runner _ me Hinit)
    as (text & modelrc & pd & sel & cls & kw & zi & _ & _ & _ & _ & _ & _ & _ & _ & _
        & Hproj & _ & Hobj).
  split; [exact Hinit|]. exists pd, zi. split; [exact Hproj|exact Hobj].
Defined.

Lemma init_errors_witness :
  let rc := Demo.config "LSTM" ["wer"] false in
  __init__ 27 1 Demo.runner rc = Raise (NameError "LSTM") /\
  model_scope "LSTM" = None.
Proof.
  intros rc.
  assert (Hinit : __init__ 27 1 Demo.runner rc = Raise (NameError "LSTM"))
    by reflexivity.
  split; [exact Hinit|].
  destruct (init_errors 27 1 Demo.runner rc (NameError "LSTM") Hinit)
    as [ (k & Hk & _)
       | [ (modelrc & sel & Hmodel & Hsel & [ (_ & Hname & _) | [He _] ])
         | [ (text & _ & Htext)
           | [ (modelrc & pd & Hmodel & Hpd & Hlin)
             | (text & tok & modelrc & sel & cls & pd & kw & _ & _ & Hmodel & Hsel
                & Hcls & _) ] ] ] ].
  - discriminate Hk.
  - injection Hmodel as <-. injection Hsel as <-.
    exact (proj2 (Hname eq_refl)).
  - discriminate He.
  - discriminate Htext.
  - injection Hmodel as <-. injection Hpd as <-. discriminate Hlin.
  - injection Hmodel as <-. injection Hsel as <-. discriminate Hcls.
Defined.

Lemma task_name_lower_case_witness :
  let me := Demo.scored false in
  _get_task_name me = Ok "ctc-librispeech" /\
  Config.name (corpus me) = Some "LibriSpeech" /\
  is_ascii "LibriSpeech" = true /\
  String.length "ctc-librispeech" = (4 + String.length "LibriSpeech")%nat /\
  lower "ctc-librispeech" = "ctc-librispeech".
Proof.
  intros me.
  assert (Htask : _get_task_name me = Ok "ctc-librispeech") by reflexivity.
  destruct (task_name_lower_case me me "ctc-librispeech" Htask)
    as (name & Hname & _ & _ & Hascii).
  cbn in Hname. injection Hname as <-.
  destruct (Hascii eq_refl) as (_ & Hlen & _ & Hlow).
  split; [exact Htask|]. split; [reflexivity|]. split; [reflexivity|].
  split; [exact Hlen|exact Hlow].
Defined.

Lemma transpose_time_first_witness :
  Demo.batch_log_probs <> [] /\
  length Demo.batch_log_probs = 2%nat /\
  length (transpose Demo.batch_log_probs) = 4%nat /\
  Forall (fun col => length col = 2%nat) (transpose Demo.batch_log_probs) /\
  transpose (transpose Demo.batch_log_probs) = Demo.batch_log_probs.
Proof.
  assert (Hne : Demo.batch_log_probs <> []) by discriminate.
  destruct (transpose_time_first 4 Demo.batch_log_probs Hne)
    as (Hlen & Hcols & _ & Hinv).
  - repeat (apply Forall_cons; split; [reflexivity|]). apply Forall_nil. exact I.
  - split; [exact Hne|]. split; [reflexivity|]. split; [exact Hlen|].
    split; [exact Hcols|]. apply Hinv. discriminate.
Defined.
